(** * Verification of the scavenger-hunt secret gate

    The repository has two programs that share one cryptographic contract:

    - [build.js] (Node): reads [SECRET_CODE] and [SECRET_MESSAGE], hashes the
      code with SHA-256, derives a key with PBKDF2 and encrypts the message
      with AES-256-GCM; the results are injected into [index.html] as the
      constants [CODE_HASH], [CODE_LENGTH], [SALT], [IV], [ENCRYPTED_MESSAGE];
    - [script.js] (browser): [verify] re-hashes the typed code, compares it
      with [CODE_HASH] and, on a match, re-derives the key and decrypts.

    The development has three layers.  The first models the platform routines
    the two programs call (SHA-256, HMAC, PBKDF2, AES-256, GCM, Base64, UTF-8,
    as their standards define them).  The second embeds the two programs on top
    of those routines, function by function.  The third states and proves the
    properties. *)

From Stdlib Require Import List NArith ZArith Lia Bool String Ascii.
From Stdlib Require Import Strings.Byte.
From Stdlib Require Import ZifyNat ZifyN.
Import ListNotations.

Local Open Scope N_scope.

(* ================================================================== *)
(** * Bytes, words and JavaScript strings *)
(* ================================================================== *)

(** A [Buffer] / [Uint8Array] is a list of bytes. *)
Definition bytes := list byte.

(** Storing a number into a [Uint8Array] keeps its low eight bits. *)
Definition byte_of_N (n : N) : byte :=
  match Byte.of_N (n mod 256) with
  | Some b => b
  | None => x00
  end.

Definition bxor (a b : byte) : byte :=
  byte_of_N (N.lxor (Byte.to_N a) (Byte.to_N b)).

(** Bytewise xor; the result is as long as the shorter argument. *)
Fixpoint xor_bytes (xs ys : bytes) : bytes :=
  match xs, ys with
  | x :: xs', y :: ys' => bxor x y :: xor_bytes xs' ys'
  | _, _ => []
  end.

(** Big-endian encoding of [n] on [len] bytes (high bits beyond are dropped),
    and its inverse. *)
Fixpoint be_bytes (len : nat) (n : N) : bytes :=
  match len with
  | O => []
  | S l => be_bytes l (n / 256) ++ [byte_of_N n]
  end.

Definition be_N (bs : bytes) : N :=
  fold_left (fun acc b => acc * 256 + Byte.to_N b) bs 0.

(** A JavaScript string is a sequence of UTF-16 code units. *)
Definition jsstring := list N.

(** ASCII literals as JavaScript strings. *)
Definition js (s : string) : jsstring :=
  map N_of_ascii (list_ascii_of_string s).

Definition jsstring_eqb (a b : jsstring) : bool :=
  if list_eq_dec N.eq_dec a b then true else false.

(* ================================================================== *)
(** * SHA-256 (FIPS 180-4) *)
(* ================================================================== *)

Module SHA256.

Definition w32 (x : N) : N := x mod 4294967296.
Definition add32 (x y : N) : N := w32 (x + y).
Definition rotr (n x : N) : N :=
  N.lor (N.shiftr x n) (w32 (N.shiftl x (32 - n))).
Definition not32 (x : N) : N := N.lxor x 4294967295.

Definition Ch (x y z : N) : N :=
  N.lxor (N.land x y) (N.land (not32 x) z).
Definition Maj (x y z : N) : N :=
  N.lxor (N.lxor (N.land x y) (N.land x z)) (N.land y z).
Definition Sum0 (x : N) : N :=
  N.lxor (N.lxor (rotr 2 x) (rotr 13 x)) (rotr 22 x).
Definition Sum1 (x : N) : N :=
  N.lxor (N.lxor (rotr 6 x) (rotr 11 x)) (rotr 25 x).
Definition sig0 (x : N) : N :=
  N.lxor (N.lxor (rotr 7 x) (rotr 18 x)) (N.shiftr x 3).
Definition sig1 (x : N) : N :=
  N.lxor (N.lxor (rotr 17 x) (rotr 19 x)) (N.shiftr x 10).

(** The round constants (FIPS 180-4 section 4.2.2), in decimal. *)
Definition K : list N :=
  [1116352408; 1899447441; 3049323471; 3921009573; 961987163; 1508970993;
   2453635748; 2870763221; 3624381080; 310598401; 607225278; 1426881987;
   1925078388; 2162078206; 2614888103; 3248222580; 3835390401; 4022224774;
   264347078; 604807628; 770255983; 1249150122; 1555081692; 1996064986;
   2554220882; 2821834349; 2952996808; 3210313671; 3336571891; 3584528711;
   113926993; 338241895; 666307205; 773529912; 1294757372; 1396182291;
   1695183700; 1986661051; 2177026350; 2456956037; 2730485921; 2820302411;
   3259730800; 3345764771; 3516065817; 3600352804; 4094571909; 275423344;
   430227734; 506948616; 659060556; 883997877; 958139571; 1322822218;
   1537002063; 1747873779; 1955562222; 2024104815; 2227730452; 2361852424;
   2428436474; 2756734187; 3204031479; 3329325298].

(** The working variables a..h, also used for the chaining value. *)
Record regs := Regs {
  ra : N; rb : N; rc : N; rd : N; re : N; rf : N; rg : N; rh : N }.

Definition H0 : regs :=
  Regs 1779033703 3144134277 1013904242 2773480762
       1359893119 2600822924 528734635 1541459225.

(** Padding (section 5.1.1): a one bit, zeros up to 56 mod 64 bytes, and the
    bit length on 64 bits. *)
Definition pad (msg : bytes) : bytes :=
  let len := List.length msg in
  msg ++ x80 :: repeat x00 ((119 - len mod 64) mod 64)
      ++ be_bytes 8 (8 * N.of_nat len).

Fixpoint words_of (bs : bytes) : list N :=
  match bs with
  | a :: b :: c :: d :: rest => be_N [a; b; c; d] :: words_of rest
  | _ => []
  end.

Fixpoint blocks_of (n : nat) (ws : list N) : list (list N) :=
  match n with
  | O => []
  | S n' => firstn 16 ws :: blocks_of n' (skipn 16 ws)
  end.

(** The message schedule, kept most recent word first while it grows. *)
Fixpoint extend (n : nat) (rw : list N) : list N :=
  match n with
  | O => rw
  | S n' =>
      let wt := add32 (add32 (add32 (sig1 (nth 1 rw 0)) (nth 6 rw 0))
                             (sig0 (nth 14 rw 0))) (nth 15 rw 0) in
      extend n' (wt :: rw)
  end.

Definition schedule (block : list N) : list N :=
  rev (extend 48 (rev block)).

Definition round (s : regs) (kw : N * N) : regs :=
  let t1 := add32 (add32 (add32 (add32 (rh s) (Sum1 (re s)))
                                (Ch (re s) (rf s) (rg s))) (fst kw)) (snd kw) in
  let t2 := add32 (Sum0 (ra s)) (Maj (ra s) (rb s) (rc s)) in
  Regs (add32 t1 t2) (ra s) (rb s) (rc s) (add32 (rd s) t1) (re s) (rf s) (rg s).

Definition compress (h : regs) (block : list N) : regs :=
  let s := fold_left round (combine K (schedule block)) h in
  Regs (add32 (ra h) (ra s)) (add32 (rb h) (rb s))
       (add32 (rc h) (rc s)) (add32 (rd h) (rd s))
       (add32 (re h) (re s)) (add32 (rf h) (rf s))
       (add32 (rg h) (rg s)) (add32 (rh h) (rh s)).

Definition digest (msg : bytes) : bytes :=
  let p := pad msg in
  let h := fold_left compress
             (blocks_of (List.length p / 64) (words_of p)) H0 in
  flat_map (be_bytes 4)
    [ra h; rb h; rc h; rd h; re h; rf h; rg h; rh h].

End SHA256.

(* ================================================================== *)
(** * HMAC (RFC 2104) and PBKDF2 (RFC 8018) over SHA-256 *)
(* ================================================================== *)

Module HMAC.

Definition block_size : nat := 64.

Definition hmac_sha256 (key msg : bytes) : bytes :=
  let k := if (block_size <? List.length key)%nat
           then SHA256.digest key else key in
  let k0 := k ++ repeat x00 (block_size - List.length k) in
  SHA256.digest (map (bxor x5c) k0
                 ++ SHA256.digest (map (bxor x36) k0 ++ msg)).

End HMAC.

Module PBKDF2.

(** The function F of RFC 8018 section 5.2: the xor of the first [c]
    iterates of the pseudo-random function. *)
Definition F (prf : bytes -> bytes -> bytes)
    (password salt : bytes) (c : N) (i : N) : bytes :=
  let u1 := prf password (salt ++ be_bytes 4 i) in
  fst (N.iter (c - 1)
         (fun tu : bytes * bytes =>
            let u := prf password (snd tu) in (xor_bytes (fst tu) u, u))
         (u1, u1)).

(** [hLen] is the output length of the pseudo-random function. *)
Definition derive (prf : bytes -> bytes -> bytes) (hLen : nat)
    (password salt : bytes) (c : N) (dkLen : nat) : bytes :=
  firstn dkLen
    (flat_map (fun i => F prf password salt c (N.of_nat i))
              (seq 1 ((dkLen + hLen - 1) / hLen))).

Definition hmac_sha256 (password salt : bytes) (c : N) (dkLen : nat) : bytes :=
  derive HMAC.hmac_sha256 32 password salt c dkLen.

End PBKDF2.

(* ================================================================== *)
(** * AES-256 (FIPS 197) *)
(* ================================================================== *)

Module AES.

(** Multiplication by x in GF(2^8) modulo x^8 + x^4 + x^3 + x + 1. *)
Definition xtime (a : N) : N :=
  let d := N.shiftl a 1 in
  if N.testbit d 8 then N.lxor d 283 else d.

Fixpoint gf_mul_loop (n : nat) (a b acc : N) : N :=
  match n with
  | O => acc
  | S n' =>
      gf_mul_loop n' (xtime a) (N.shiftr b 1)
        (if N.testbit b 0 then N.lxor acc a else acc)
  end.

Definition gf_mul (a b : N) : N := gf_mul_loop 8 a b 0.

Fixpoint gf_pow (a : N) (n : nat) : N :=
  match n with
  | O => 1
  | S n' => gf_mul a (gf_pow a n')
  end.

Definition rotl8 (a k : N) : N :=
  N.lor (N.shiftl a k mod 256) (N.shiftr a (8 - k)).

(** The S-box (section 5.1.1): the multiplicative inverse (a^254, with 0
    mapped to 0) followed by the affine transformation. *)
Definition sbox_of (a : N) : N :=
  let b := gf_pow a 254 in
  N.lxor (N.lxor (N.lxor (N.lxor (N.lxor b (rotl8 b 1)) (rotl8 b 2))
                         (rotl8 b 3)) (rotl8 b 4)) 99.

Definition sbox_table : list N :=
  Eval vm_compute in map (fun i => sbox_of (N.of_nat i)) (seq 0 256).

Definition sbox (a : N) : N := nth (N.to_nat a) sbox_table 0.

Definition sub_word (w : N) : N :=
  be_N (map (fun b => byte_of_N (sbox (Byte.to_N b))) (be_bytes 4 w)).

Definition rot_word (w : N) : N :=
  N.lor (N.shiftl w 8 mod 4294967296) (N.shiftr w 24).

(** Key expansion for Nk = 8 (section 5.2); the words are kept most recent
    first while the schedule grows.  [i] is the index of the next word. *)
Fixpoint expand (n : nat) (i : nat) (rcon : N) (rw : list N) : list N :=
  match n with
  | O => rw
  | S n' =>
      let prev := nth 0 rw 0 in
      let temp :=
        if (i mod 8 =? 0)%nat
        then N.lxor (sub_word (rot_word prev)) (N.shiftl rcon 24)
        else if (i mod 8 =? 4)%nat then sub_word prev
        else prev in
      expand n' (S i) (if (i mod 8 =? 0)%nat then xtime rcon else rcon)
             (N.lxor (nth 7 rw 0) temp :: rw)
  end.

Definition key_schedule (key : bytes) : list N :=
  rev (expand 52 8 1 (rev (SHA256.words_of key))).

(** The state is the list of its sixteen bytes in input order, that is
    column by column. *)
Definition add_round_key (rk : list N) (st : list N) : list N :=
  map (fun p => N.lxor (fst p) (snd p))
      (combine st (map Byte.to_N (flat_map (be_bytes 4) rk))).

Definition sub_bytes (st : list N) : list N := map sbox st.

Definition shift_rows (st : list N) : list N :=
  map (fun i => nth (i mod 4 + 4 * ((i / 4 + i mod 4) mod 4)) st 0)
      (seq 0 16).

Definition mix_column (a0 a1 a2 a3 : N) : list N :=
  [N.lxor (N.lxor (N.lxor (gf_mul 2 a0) (gf_mul 3 a1)) a2) a3;
   N.lxor (N.lxor (N.lxor a0 (gf_mul 2 a1)) (gf_mul 3 a2)) a3;
   N.lxor (N.lxor (N.lxor a0 a1) (gf_mul 2 a2)) (gf_mul 3 a3);
   N.lxor (N.lxor (N.lxor (gf_mul 3 a0) a1) a2) (gf_mul 2 a3)].

Fixpoint mix_columns (st : list N) : list N :=
  match st with
  | a0 :: a1 :: a2 :: a3 :: rest => mix_column a0 a1 a2 a3 ++ mix_columns rest
  | _ => []
  end.

Fixpoint rounds (n : nat) (ks : list N) (st : list N) : list N :=
  match n with
  | O => add_round_key (firstn 4 ks) (shift_rows (sub_bytes st))
  | S n' =>
      rounds n' (skipn 4 ks)
        (add_round_key (firstn 4 ks)
           (mix_columns (shift_rows (sub_bytes st))))
  end.

(** The cipher (section 5.1) with Nr = 14, on a block given as a 128-bit
    number (first byte most significant). *)
Definition encrypt_block (key : bytes) (block : N) : N :=
  let ks := key_schedule key in
  let st := add_round_key (firstn 4 ks) (map Byte.to_N (be_bytes 16 block)) in
  be_N (map byte_of_N (rounds 13 (skipn 4 ks) st)).

End AES.

(* ================================================================== *)
(** * Galois/Counter Mode (NIST SP 800-38D) over AES-256 *)
(* ================================================================== *)

Module GCM.

(** Multiplication in GF(2^128) (section 6.3); bit 0 of the standard is the
    most significant bit of the number. *)
Fixpoint mul_loop (n : nat) (x z v : N) : N :=
  match n with
  | O => z
  | S n' =>
      mul_loop n' x
        (if N.testbit x (N.of_nat n') then N.lxor z v else z)
        (if N.testbit v 0
         then N.lxor (N.shiftr v 1) (N.shiftl 225 120)
         else N.shiftr v 1)
  end.

Definition mul (x y : N) : N := mul_loop 128 x 0 y.

(** The 16-byte blocks of a byte string, the last one padded with zeros. *)
Fixpoint blocks_of (n : nat) (bs : bytes) : list N :=
  match n with
  | O => []
  | S n' =>
      let b := firstn 16 bs in
      be_N (b ++ repeat x00 (16 - List.length b)) :: blocks_of n' (skipn 16 bs)
  end.

Definition nblocks (bs : bytes) : nat := (List.length bs + 15) / 16.

Definition blocks (bs : bytes) : list N := blocks_of (nblocks bs) bs.

Definition ghash (h : N) (xs : list N) : N :=
  fold_left (fun y x => mul (N.lxor y x) h) xs 0.

Definition inc32 (cb : N) : N :=
  N.shiftl (N.shiftr cb 32) 32 + (cb + 1) mod 4294967296.

Fixpoint keystream (key : bytes) (n : nat) (cb : N) : bytes :=
  match n with
  | O => []
  | S n' =>
      be_bytes 16 (AES.encrypt_block key cb) ++ keystream key n' (inc32 cb)
  end.

(** GCTR (section 6.5). *)
Definition gctr (key : bytes) (icb : N) (x : bytes) : bytes :=
  xor_bytes x (keystream key (nblocks x) icb).

Definition hash_subkey (key : bytes) : N := AES.encrypt_block key 0.

(** The pre-counter block J0 (section 7.1, step 2). *)
Definition j0 (key iv : bytes) : N :=
  if (List.length iv =? 12)%nat
  then be_N iv * 4294967296 + 1
  else ghash (hash_subkey key)
             (blocks iv ++ [8 * N.of_nat (List.length iv)]).

(** Steps 3 of the authenticated encryption and 5 of the decryption. *)
Definition crypt (key iv data : bytes) : bytes :=
  gctr key (inc32 (j0 key iv)) data.

(** The full 128-bit tag over ciphertext [c], with no additional data. *)
Definition tag (key iv c : bytes) : bytes :=
  let s := ghash (hash_subkey key)
                 (blocks c ++ [8 * N.of_nat (List.length c)]) in
  gctr key (j0 key iv) (be_bytes 16 s).

End GCM.

(* ================================================================== *)
(** * Exceptions *)
(* ================================================================== *)

(** The exceptions the platform routines below can raise. *)
Inductive exn : Type :=
| InvalidCharacterError
| OperationError
| InvalidAccessError
| NotSupportedError
| SyntaxError
| RangeError
| TypeError.

(** The result of evaluating a call: a value, or a raised exception (for a
    promise: fulfilled, or rejected). *)
Inductive completion (A : Type) : Type :=
| Normal (a : A)
| Throw (e : exn).

Arguments Normal {A} a.
Arguments Throw {A} e.

Fixpoint list_eqb {A : Type} (eqb : A -> A -> bool) (xs ys : list A) : bool :=
  match xs, ys with
  | [], [] => true
  | x :: xs', y :: ys' => eqb x y && list_eqb eqb xs' ys'
  | _, _ => false
  end.

(** [===] on two strings. *)
Definition strict_eq (a b : jsstring) : bool := list_eqb N.eqb a b.

Definition bytes_eqb (a b : bytes) : bool := list_eqb Byte.eqb a b.

(* ================================================================== *)
(** * Hexadecimal and Base64 *)
(* ================================================================== *)

Module Hex.

(** The lower-case hexadecimal digit of a value below sixteen. *)
Definition digit (d : N) : N := if d <? 10 then 48 + d else 87 + d.

(** [Buffer.prototype.toString('hex')] / [hash.digest('hex')]: two
    lower-case digits per byte. *)
Definition encode (bs : bytes) : jsstring :=
  flat_map (fun b => [digit (Byte.to_N b / 16); digit (Byte.to_N b mod 16)]) bs.

(** [Number.prototype.toString(16)] on a non-negative integer: its digits
    without leading zeros, ["0"] for zero. *)
Fixpoint digits (fuel : nat) (n : N) (acc : jsstring) : jsstring :=
  match fuel with
  | O => acc
  | S f => if n <? 16 then digit n :: acc
           else digits f (n / 16) (digit (n mod 16) :: acc)
  end.

Definition toString16 (n : N) : jsstring := digits (S (N.size_nat n)) n [].

(** [String.prototype.padStart(len, fill)] with a one-character [fill]. *)
Definition padStart (len : nat) (fill : N) (s : jsstring) : jsstring :=
  repeat fill (len - List.length s) ++ s.

End Hex.

Module Base64.

Definition alphabet : jsstring :=
  js "ABCDEFGHIJKLMNOPQRSTUVWXYZabcdefghijklmnopqrstuvwxyz0123456789+/".

Definition char_of (sextet : N) : N := nth (N.to_nat sextet) alphabet 0.

Definition pad_char : N := 61.

(** [Buffer.prototype.toString('base64')] (RFC 4648 section 4). *)
Fixpoint encode (bs : bytes) : jsstring :=
  match bs with
  | [] => []
  | [a] =>
      let n := Byte.to_N a * 65536 in
      [char_of (n / 262144); char_of (n / 4096 mod 64); pad_char; pad_char]
  | [a; b] =>
      let n := Byte.to_N a * 65536 + Byte.to_N b * 256 in
      [char_of (n / 262144); char_of (n / 4096 mod 64);
       char_of (n / 64 mod 64); pad_char]
  | a :: b :: c :: rest =>
      let n := Byte.to_N a * 65536 + Byte.to_N b * 256 + Byte.to_N c in
      char_of (n / 262144) :: char_of (n / 4096 mod 64)
        :: char_of (n / 64 mod 64) :: char_of (n mod 64) :: encode rest
  end.

(** The value of a Base64 character, if it is one. *)
Definition value_of (c : N) : option N :=
  if (65 <=? c) && (c <=? 90) then Some (c - 65)
  else if (97 <=? c) && (c <=? 122) then Some (c - 71)
  else if (48 <=? c) && (c <=? 57) then Some (c + 4)
  else if c =? 43 then Some 62
  else if c =? 47 then Some 63
  else None.

Definition is_ascii_whitespace (c : N) : bool :=
  (c =? 9) || (c =? 10) || (c =? 12) || (c =? 13) || (c =? 32).

(** Step 2 of the forgiving-base64 decode: when the length is a multiple
    of four, one or two trailing padding characters are removed. *)
Definition strip_padding (s : jsstring) : jsstring :=
  if (List.length s mod 4 =? 0)%nat then
    match rev s with
    | x :: y :: r =>
        if x =? pad_char
        then if y =? pad_char then rev r else rev (y :: r)
        else s
    | _ => s
    end
  else s.

Fixpoint values_of (s : jsstring) : option (list N) :=
  match s with
  | [] => Some []
  | c :: rest =>
      match value_of c, values_of rest with
      | Some v, Some vs => Some (v :: vs)
      | _, _ => None
      end
  end.

(** Steps 5 to 10: six bits per character; a trailing group of two or three
    characters gives one or two bytes, its last four or two bits dropped. *)
Fixpoint decode_values (vs : list N) : jsstring :=
  match vs with
  | a :: b :: c :: d :: rest =>
      let n := ((a * 64 + b) * 64 + c) * 64 + d in
      (n / 65536) :: (n / 256 mod 256) :: (n mod 256) :: decode_values rest
  | [a; b; c] =>
      let n := ((a * 64 + b) * 64 + c) / 4 in
      [n / 256; n mod 256]
  | [a; b] => [(a * 64 + b) / 16]
  | _ => []
  end.

(** [atob] (HTML, forgiving-base64 decode): the binary string whose code
    units are the decoded bytes, or an [InvalidCharacterError]. *)
Definition atob (data : jsstring) : completion jsstring :=
  let s := strip_padding (filter (fun c => negb (is_ascii_whitespace c)) data) in
  if (List.length s mod 4 =? 1)%nat then Throw InvalidCharacterError
  else match values_of s with
       | Some vs => Normal (decode_values vs)
       | None => Throw InvalidCharacterError
       end.

End Base64.

(* ================================================================== *)
(** * UTF-8: [TextEncoder], [TextDecoder] and Node's 'utf8' encoding *)
(* ================================================================== *)

Module UTF8.

Definition is_high (u : N) : bool := (55296 <=? u) && (u <=? 56319).
Definition is_low (u : N) : bool := (56320 <=? u) && (u <=? 57343).

Definition replacement : N := 65533.

(** Conversion of a string to scalar values: a surrogate pair is one code
    point, a surrogate on its own becomes U+FFFD. *)
Fixpoint scalar_values (s : jsstring) : list N :=
  match s with
  | [] => []
  | u :: rest =>
      if is_high u then
        match rest with
        | v :: rest' =>
            if is_low v
            then (65536 + (u - 55296) * 1024 + (v - 56320)) :: scalar_values rest'
            else replacement :: scalar_values rest
        | [] => [replacement]
        end
      else if is_low u then replacement :: scalar_values rest
      else u :: scalar_values rest
  end.

Definition encode_scalar (c : N) : bytes :=
  if c <? 128 then [byte_of_N c]
  else if c <? 2048 then
    [byte_of_N (192 + c / 64); byte_of_N (128 + c mod 64)]
  else if c <? 65536 then
    [byte_of_N (224 + c / 4096); byte_of_N (128 + c / 64 mod 64);
     byte_of_N (128 + c mod 64)]
  else
    [byte_of_N (240 + c / 262144); byte_of_N (128 + c / 4096 mod 64);
     byte_of_N (128 + c / 64 mod 64); byte_of_N (128 + c mod 64)].

(** [new TextEncoder().encode(s)]; also how Node turns a string into bytes
    for [hash.update(s)], [pbkdf2Sync(s, ...)] and [cipher.update(s, 'utf8')]. *)
Definition encode (s : jsstring) : bytes :=
  flat_map encode_scalar (scalar_values s).

(** The state of the UTF-8 decoder (WHATWG Encoding, section 8.1.1). *)
Record dstate := DState {
  d_cp : N; d_seen : N; d_needed : N; d_lower : N; d_upper : N }.

Definition d_init : dstate := DState 0 0 0 128 191.

Inductive lead : Type :=
| Emit (c : N)
| Begin (st : dstate)
| Bad.

(** What a byte does when no continuation byte is expected. *)
Definition classify (b : N) : lead :=
  if b <=? 127 then Emit b
  else if (194 <=? b) && (b <=? 223) then
    Begin (DState (N.land b 31) 0 1 128 191)
  else if (224 <=? b) && (b <=? 239) then
    Begin (DState (N.land b 15) 0 2
             (if b =? 224 then 160 else 128) (if b =? 237 then 159 else 191))
  else if (240 <=? b) && (b <=? 244) then
    Begin (DState (N.land b 7) 0 3
             (if b =? 240 then 144 else 128) (if b =? 244 then 143 else 191))
  else Bad.

(** The decoder with error mode "replacement" (the default, non-fatal). *)
Fixpoint decode_loop (bs : bytes) (st : dstate) : list N :=
  match bs with
  | [] => if d_needed st =? 0 then [] else [replacement]
  | b0 :: rest =>
      let b := Byte.to_N b0 in
      let fresh :=
        match classify b with
        | Emit c => c :: decode_loop rest d_init
        | Begin st' => decode_loop rest st'
        | Bad => replacement :: decode_loop rest d_init
        end in
      if d_needed st =? 0 then fresh
      else if (b <? d_lower st) || (d_upper st <? b)
      then replacement :: fresh
      else
        let cp := d_cp st * 64 + N.land b 63 in
        if d_seen st + 1 =? d_needed st
        then cp :: decode_loop rest d_init
        else decode_loop rest (DState cp (d_seen st + 1) (d_needed st) 128 191)
  end.

Definition utf16_of (c : N) : jsstring :=
  if c <? 65536 then [c]
  else [55296 + (c - 65536) / 1024; 56320 + (c - 65536) mod 1024].

(** A leading byte order mark is not part of the output unless [ignoreBOM]
    is set, which the default constructor does not do. *)
Definition strip_bom (cs : list N) : list N :=
  match cs with
  | 65279 :: rest => rest
  | _ => cs
  end.

(** [new TextDecoder().decode(buffer)]. *)
Definition decode (bs : bytes) : jsstring :=
  flat_map utf16_of (strip_bom (decode_loop bs d_init)).

End UTF8.

(* ================================================================== *)
(** * The [node:crypto] routines used by build.js *)
(* ================================================================== *)

Definition cbind {A B : Type} (c : completion A) (k : A -> completion B)
  : completion B :=
  match c with
  | Normal a => k a
  | Throw e => Throw e
  end.

Module Node.

(** [crypto.createHash(alg).update(data).digest('hex')] with a string
    [data], which Node encodes as UTF-8. *)
Definition createHash_update_digest_hex (alg : string) (data : jsstring)
  : completion jsstring :=
  if String.eqb alg "sha256"
  then Normal (Hex.encode (SHA256.digest (UTF8.encode data)))
  else Throw TypeError.

(** [crypto.pbkdf2Sync(password, salt, iterations, keylen, digest)] with a
    string password, which Node encodes as UTF-8. *)
Definition pbkdf2Sync (password : jsstring) (salt : bytes)
    (iterations : N) (keylen : nat) (digest : string) : completion bytes :=
  if negb (String.eqb digest "sha256") then Throw TypeError
  else if iterations =? 0 then Throw RangeError
  else Normal (PBKDF2.hmac_sha256 (UTF8.encode password) salt iterations keylen).

(** A GCM [Cipher] object: its key and IV, and the plaintext fed so far. *)
Record cipher := Cipher {
  c_key : bytes; c_iv : bytes; c_fed : bytes }.

(** [crypto.createCipheriv(alg, key, iv)]. *)
Definition createCipheriv (alg : string) (key iv : bytes)
  : completion cipher :=
  if negb (String.eqb alg "aes-256-gcm") then Throw TypeError
  else if negb (List.length key =? 32)%nat then Throw RangeError
  else if (List.length iv =? 0)%nat then Throw TypeError
  else Normal (Cipher key iv []).

(** [cipher.update(data, 'utf8')]: GCM is a stream mode, the ciphertext of
    the new bytes is returned at once. *)
Definition update (c : cipher) (data : jsstring) : bytes * cipher :=
  let fed := c_fed c ++ UTF8.encode data in
  (skipn (List.length (c_fed c)) (GCM.crypt (c_key c) (c_iv c) fed),
   Cipher (c_key c) (c_iv c) fed).

(** [cipher.final()]: nothing is left to output in a stream mode. *)
Definition final (c : cipher) : bytes := [].

(** [cipher.getAuthTag()]: the 16-byte tag over the whole ciphertext. *)
Definition getAuthTag (c : cipher) : bytes :=
  GCM.tag (c_key c) (c_iv c) (GCM.crypt (c_key c) (c_iv c) (c_fed c)).

End Node.

(* ================================================================== *)
(** * The Web Crypto routines used by script.js *)
(* ================================================================== *)

Module WebCrypto.

Inductive key_algorithm : Type :=
| KeyPBKDF2
| KeyAesGcm (length : N).

Record CryptoKey := Key {
  k_algorithm : key_algorithm;
  k_extractable : bool;
  k_usages : list string;
  k_raw : bytes }.

Definition has_usage (u : string) (us : list string) : bool :=
  existsb (String.eqb u) us.

(** [crypto.subtle.digest(alg, data)]. *)
Definition digest (alg : string) (data : bytes) : completion bytes :=
  if String.eqb alg "SHA-256" then Normal (SHA256.digest data)
  else Throw NotSupportedError.

(** [crypto.subtle.importKey(format, keyData, alg, extractable, usages)]
    for the algorithm PBKDF2. *)
Definition importKey (format : string) (keyData : bytes) (alg : string)
    (extractable : bool) (usages : list string) : completion CryptoKey :=
  if negb (String.eqb alg "PBKDF2") then Throw NotSupportedError
  else if negb (String.eqb format "raw") then Throw NotSupportedError
  else if negb (forallb (fun u => String.eqb u "deriveKey"
                                  || String.eqb u "deriveBits") usages)
  then Throw SyntaxError
  else if extractable then Throw SyntaxError
  else Normal (Key KeyPBKDF2 false usages keyData).

Record Pbkdf2Params := {
  p_name : string; p_salt : bytes; p_iterations : N; p_hash : string }.

Record AesDerivedKeyParams := { a_name : string; a_length : N }.

(** [crypto.subtle.deriveKey(alg, baseKey, derivedKeyType, extractable,
    usages)] from a PBKDF2 key to an AES-GCM key.  Of the hash functions
    and key lengths the API offers, the ones script.js asks for (SHA-256,
    256 bits) are modelled. *)
Definition deriveKey (alg : Pbkdf2Params) (baseKey : CryptoKey)
    (derived : AesDerivedKeyParams) (extractable : bool)
    (usages : list string) : completion CryptoKey :=
  if negb (String.eqb (p_name alg) "PBKDF2") then Throw NotSupportedError
  else if negb (String.eqb (a_name derived) "AES-GCM") then Throw NotSupportedError
  else if negb (String.eqb (p_hash alg) "SHA-256") then Throw NotSupportedError
  else if negb (a_length derived =? 256) then Throw NotSupportedError
  else match k_algorithm baseKey with
       | KeyPBKDF2 =>
           if negb (has_usage "deriveKey" (k_usages baseKey))
           then Throw InvalidAccessError
           else if p_iterations alg =? 0 then Throw OperationError
           else match usages with
                | [] => Throw SyntaxError
                | _ =>
                    Normal (Key (KeyAesGcm (a_length derived)) extractable usages
                              (PBKDF2.hmac_sha256 (k_raw baseKey) (p_salt alg)
                                 (p_iterations alg)
                                 (N.to_nat (a_length derived / 8))))
                end
       | KeyAesGcm _ => Throw InvalidAccessError
       end.

(** Only [name] and [iv] are given by script.js: there is no additional
    data and the tag length has its default, 128 bits. *)
Record AesGcmParams := { g_name : string; g_iv : bytes }.

Definition tag_bytes : nat := 16.

(** [crypto.subtle.decrypt(alg, key, data)] for AES-GCM: the last sixteen
    bytes of [data] are the tag; a short input or a wrong tag is an
    [OperationError]. *)
Definition decrypt (alg : AesGcmParams) (key : CryptoKey) (data : bytes)
  : completion bytes :=
  if negb (String.eqb (g_name alg) "AES-GCM") then Throw NotSupportedError
  else match k_algorithm key with
       | KeyAesGcm _ =>
           if negb (has_usage "decrypt" (k_usages key))
           then Throw InvalidAccessError
           else if (List.length data <? tag_bytes)%nat then Throw OperationError
           else
             let c := firstn (List.length data - tag_bytes) data in
             let t := skipn (List.length data - tag_bytes) data in
             if bytes_eqb (GCM.tag (k_raw key) (g_iv alg) c) t
             then Normal (GCM.crypt (k_raw key) (g_iv alg) c)
             else Throw OperationError
       | KeyPBKDF2 => Throw InvalidAccessError
       end.

End WebCrypto.

(* ================================================================== *)
(** * build.js *)
(* ================================================================== *)

Module Build.

Local Notation "x <- c ;; k" := (cbind c (fun x => k))
  (at level 61, c at next level, right associativity).

(** [process.env] as the script sees it once the optional [.env] file has
    been merged in: each variable is [undefined] or a string. *)
Record process_env := {
  SECRET_CODE : option jsstring;
  SECRET_MESSAGE : option jsstring }.

(** [!v] for a value that is [undefined] or a string. *)
Definition falsy (v : option jsstring) : bool :=
  match v with
  | None => true
  | Some [] => true
  | Some (_ :: _) => false
  end.

(** The values injected into index.html. *)
Record artifacts := Artifacts {
  codeHash : jsstring;
  codeLength : N;
  saltB64 : jsstring;
  ivB64 : jsstring;
  encryptedB64 : jsstring }.

(** [const key = crypto.pbkdf2Sync(SECRET_CODE, salt, 100000, 32, 'sha256')] *)
Definition key (code : jsstring) (salt : bytes) : completion bytes :=
  Node.pbkdf2Sync code salt 100000 32 "sha256".

(** The cipher calls: [encrypted] (after [Buffer.concat] with
    [cipher.final()]) and [authTag]. *)
Definition encrypted_and_tag (k iv : bytes) (message : jsstring)
  : completion (bytes * bytes) :=
  cipher <- Node.createCipheriv "aes-256-gcm" k iv ;;
  let (encrypted, cipher) := Node.update cipher message in
  let encrypted := encrypted ++ Node.final cipher in
  let authTag := Node.getAuthTag cipher in
  Normal (encrypted, authTag).

(** [const encryptedWithTag = Buffer.concat([encrypted, authTag])] *)
Definition encryptedWithTag (k iv : bytes) (message : jsstring)
  : completion bytes :=
  et <- encrypted_and_tag k iv message ;;
  Normal (fst et ++ snd et).

(** The derivation part of the script: from the two secrets and the random
    salt and IV to the injected values. *)
Definition prepare (code message : jsstring) (salt iv : bytes)
  : completion artifacts :=
  codeHash <- Node.createHash_update_digest_hex "sha256" code ;;
  k <- key code salt ;;
  ewt <- encryptedWithTag k iv message ;;
  Normal (Artifacts codeHash (N.of_nat (List.length code))
            (Base64.encode salt) (Base64.encode iv) (Base64.encode ewt)).

Fixpoint starts_with (pat s : jsstring) : bool :=
  match pat, s with
  | [], _ => true
  | p :: pat', c :: s' => (p =? c) && starts_with pat' s'
  | _ :: _, [] => false
  end.

(** [s.replace(pat, rep)] with a string pattern: the first occurrence is
    replaced.  (None of the replacement strings of the script contains the
    character that [replace] treats specially, the dollar sign.) *)
Fixpoint replace (pat rep s : jsstring) : jsstring :=
  if starts_with pat s then rep ++ skipn (List.length pat) s
  else match s with
       | [] => []
       | c :: s' => c :: replace pat rep s'
       end.

Fixpoint decimal_digits (fuel : nat) (n : N) (acc : jsstring) : jsstring :=
  match fuel with
  | O => acc
  | S f => if n <? 10 then (48 + n) :: acc
           else decimal_digits f (n / 10) ((48 + n mod 10) :: acc)
  end.

(** [n.toString()] for a non-negative integer. *)
Definition toString (n : N) : jsstring :=
  decimal_digits (S (N.size_nat n)) n [].

(** What the script does to the outside world. *)
Inductive effect : Type :=
| ConsoleLog (what : string)
| ConsoleError (what : string)
| Exit (status : N)
| RandomBytes (n : nat)
| MkDir (path : string)
| WriteFile (path : string) (content : jsstring)
| CopyFile (src dst : string)
| Uncaught (e : exn).

(** What the script reads from the outside world. *)
Record inputs := {
  env : process_env;
  entropy : nat -> byte;            (* the bytes [crypto.randomBytes] draws *)
  dist_exists : bool;               (* [fs.existsSync(distDir)] *)
  index_html : jsstring;            (* contents of index.html *)
  now : N;                          (* [Date.now()] *)
  assets : option (list string);    (* files of assets/, if it exists *)
  dist_assets_exists : bool }.

Definition randomBytes (src : nat -> byte) (from n : nat) : bytes :=
  map src (seq from n).

Definition inject (html : jsstring) (a : artifacts) (timestamp : N) : jsstring :=
  let html := replace (js "__CODE_HASH__") (codeHash a) html in
  let html := replace (js "__ENCRYPTED_MESSAGE__") (encryptedB64 a) html in
  let html := replace (js "__CODE_LENGTH__") (toString (codeLength a)) html in
  let html := replace (js "__IV__") (ivB64 a) html in
  let html := replace (js "__SALT__") (saltB64 a) html in
  let html := replace (js "style.css")
                (js "style.css?v=" ++ toString timestamp) html in
  let html := replace (js "script.js")
                (js "script.js?v=" ++ toString timestamp) html in
  replace (js "assets/logo.svg")
    (js "assets/logo.svg?v=" ++ toString timestamp) html.

Definition copy_assets (i : inputs) : list effect :=
  match assets i with
  | None => []
  | Some files =>
      (if dist_assets_exists i then [] else [MkDir "dist/assets"])
      ++ map (fun f => CopyFile (String.append "assets/" f)
                                (String.append "dist/assets/" f)) files
      ++ [ConsoleLog "dist/assets/ copied"]
  end.

(** The script from "Read env vars" on: the effects in order, and the
    artifacts it derived, if it got that far. *)
Definition build (i : inputs) : list effect * option artifacts :=
  if falsy (SECRET_CODE (env i)) || falsy (SECRET_MESSAGE (env i)) then
    ([ConsoleError "Missing environment variables"; Exit 1], None)
  else
    match SECRET_CODE (env i), SECRET_MESSAGE (env i) with
    | Some code, Some message =>
        let salt := randomBytes (entropy i) 0 16 in
        let iv := randomBytes (entropy i) 16 12 in
        match prepare code message salt iv
              return list effect * option artifacts with
        | Throw e =>
            ([ConsoleLog "Code length"; RandomBytes 16; RandomBytes 12;
              Uncaught e], None)
        | Normal a =>
            ([ConsoleLog "Code length"; ConsoleLog "Code hash";
              RandomBytes 16; RandomBytes 12; ConsoleLog "Encrypted message"]
             ++ (if dist_exists i then [] else [MkDir "dist"])
             ++ [WriteFile "dist/index.html" (inject (index_html i) a (now i));
                 ConsoleLog "dist/index.html written";
                 CopyFile "style.css" "dist/style.css";
                 ConsoleLog "dist/style.css copied";
                 CopyFile "script.js" "dist/script.js";
                 ConsoleLog "dist/script.js copied"]
             ++ copy_assets i
             ++ [ConsoleLog "Build complete"],
             Some a)
        end
    | _, _ => ([ConsoleError "Missing environment variables"; Exit 1], None)
    end.

End Build.

(* ================================================================== *)
(** * script.js *)
(* ================================================================== *)

Module Runtime.

(** The constants index.html defines from what build.js injected.
    (index.html is not among the sources; [CODE_LENGTH] is a number, as the
    comparisons [code.length === CODE_LENGTH] need.) *)
Record constants := Constants {
  CODE_HASH : jsstring;
  CODE_LENGTH : N;
  SALT : jsstring;
  IV : jsstring;
  ENCRYPTED_MESSAGE : jsstring }.

(** The page as build.js produces it. *)
Definition constants_of (a : Build.artifacts) : constants :=
  Constants (Build.codeHash a) (Build.codeLength a) (Build.saltB64 a)
            (Build.ivB64 a) (Build.encryptedB64 a).

(** The calls into the platform that take time or do cryptography, as they
    are recorded in the trace of a page. *)
Inductive event : Type :=
| SetTimeout (ms : N)
| SubtleDigest (alg : string) (data : bytes)
| SubtleImportKey (alg : string) (keyData : bytes)
| SubtleDeriveKey (alg : WebCrypto.Pbkdf2Params)
| SubtleDecrypt (iv data : bytes).

(** The mutable state of the page: the closure variables [boxes] (the
    values of the input elements) and [isVerifying], what [showError] /
    [clearError] write to the status element, what [showSuccess] and
    [triggerShake] were asked to show, and the trace of platform calls. *)
Record page := Page {
  boxes : list jsstring;
  isVerifying : bool;
  statusText : string;
  statusClass : string;
  revealed : option jsstring;
  shakes : nat;
  trace : list event }.

Definition initial (values : list jsstring) : page :=
  Page values false "" "status" None 0 [].

Definition set_boxes (v : list jsstring) (p : page) : page :=
  Page v (isVerifying p) (statusText p) (statusClass p) (revealed p)
       (shakes p) (trace p).
Definition set_isVerifying (v : bool) (p : page) : page :=
  Page (boxes p) v (statusText p) (statusClass p) (revealed p)
       (shakes p) (trace p).
Definition set_status (text cls : string) (p : page) : page :=
  Page (boxes p) (isVerifying p) text cls (revealed p) (shakes p) (trace p).
Definition set_revealed (m : jsstring) (p : page) : page :=
  Page (boxes p) (isVerifying p) (statusText p) (statusClass p) (Some m)
       (shakes p) (trace p).
Definition add_shake (p : page) : page :=
  Page (boxes p) (isVerifying p) (statusText p) (statusClass p) (revealed p)
       (S (shakes p)) (trace p).
Definition record (e : event) (p : page) : page :=
  Page (boxes p) (isVerifying p) (statusText p) (statusClass p) (revealed p)
       (shakes p) (trace p ++ [e]).

(** Computations of the script: they read and write the page and may throw
    (for an [async] function: its promise may reject). *)
Definition M (A : Type) : Type := page -> completion A * page.

Definition ret {A : Type} (a : A) : M A := fun p => (Normal a, p).

Definition bind {A B : Type} (m : M A) (k : A -> M B) : M B :=
  fun p => match m p with
           | (Normal a, p') => k a p'
           | (Throw e, p') => (Throw e, p')
           end.

(** [try { body } catch { handler }] *)
Definition try_catch {A : Type} (body handler : M A) : M A :=
  fun p => match body p with
           | (Normal a, p') => (Normal a, p')
           | (Throw _, p') => handler p'
           end.

Definition lift {A : Type} (c : completion A) : M A := fun p => (c, p).

Definition update (f : page -> page) : M unit := fun p => (Normal tt, f p).

Definition read {A : Type} (f : page -> A) : M A := fun p => (Normal (f p), p).

Local Notation "x <- c ;; k" := (bind c (fun x => k))
  (at level 61, c at next level, right associativity).
Local Notation "c ;; k" := (bind c (fun _ => k))
  (at level 61, right associativity).

(** [boxes.map((b) => b.value).join('')] *)
Definition getCode : M jsstring := read (fun p => List.concat (boxes p)).

(** [base64ToBytes]: each code unit of the binary string is stored into a
    [Uint8Array]. *)
Definition base64ToBytes (b64 : jsstring) : M bytes :=
  binary <- lift (Base64.atob b64) ;;
  ret (map byte_of_N binary).

(** [sha256(str)] *)
Definition sha256 (str : jsstring) : M jsstring :=
  let data := UTF8.encode str in
  update (record (SubtleDigest "SHA-256" data)) ;;
  hashBuffer <- lift (WebCrypto.digest "SHA-256" data) ;;
  let hashArray := hashBuffer in
  ret (List.concat (map (fun b => Hex.padStart 2 48 (Hex.toString16 (Byte.to_N b)))
                        hashArray)).

(** [deriveKey(password, salt)] *)
Definition deriveKey (password : jsstring) (salt : bytes)
  : M WebCrypto.CryptoKey :=
  let keyData := UTF8.encode password in
  update (record (SubtleImportKey "PBKDF2" keyData)) ;;
  keyMaterial <- lift (WebCrypto.importKey "raw" keyData "PBKDF2" false
                         ["deriveKey"%string]) ;;
  let alg := {| WebCrypto.p_name := "PBKDF2"; WebCrypto.p_salt := salt;
                WebCrypto.p_iterations := 100000;
                WebCrypto.p_hash := "SHA-256" |} in
  update (record (SubtleDeriveKey alg)) ;;
  lift (WebCrypto.deriveKey alg keyMaterial
          {| WebCrypto.a_name := "AES-GCM"; WebCrypto.a_length := 256 |}
          false ["decrypt"%string]).

Section WithConstants.

Variable C : constants.

(** [decryptMessage(code)]: the decoded plaintext, or [null] ([None])
    when anything in the [try] block threw.  [decrypt_attempt] is the
    [try] block. *)
Definition decrypt_attempt (code : jsstring) : M (option jsstring) :=
  salt <- base64ToBytes (SALT C) ;;
  iv <- base64ToBytes (IV C) ;;
  ciphertext <- base64ToBytes (ENCRYPTED_MESSAGE C) ;;
  key <- deriveKey code salt ;;
  update (record (SubtleDecrypt iv ciphertext)) ;;
  decrypted <- lift (WebCrypto.decrypt
                       {| WebCrypto.g_name := "AES-GCM";
                          WebCrypto.g_iv := iv |} key ciphertext) ;;
  ret (Some (UTF8.decode decrypted)).

Definition decryptMessage (code : jsstring) : M (option jsstring) :=
  try_catch (decrypt_attempt code) (ret None).

Definition showError (msg : string) : M unit :=
  update (set_status msg "status error").

(** [clearError()] *)
Definition clearError : M unit := update (set_status "" "status").

(** [triggerShake()]: the boxes are marked at once; their values are
    emptied half a second later, which is an edit of the boxes by the
    environment (see [Edit] below). *)
Definition triggerShake : M unit := update add_shake.

(** [showSuccess(message)]: the message is handed to the reveal panel. *)
Definition showSuccess (message : jsstring) : M unit :=
  update (set_revealed message).

(** [verify] is an [async] function: it runs up to an [await], and is
    resumed later with the awaited value, other handlers running in
    between.  A [task] is a suspended call, named after what it awaits;
    [code] is its local variable. *)
Inductive task : Type :=
| AwaitDelay (code : jsstring)
| AwaitSha256 (code : jsstring)
| AwaitDecryptMessage (code : jsstring).

(** A call of [verify()], up to its first [await]. *)
Definition verify_call : M (option task) :=
  busy <- read isVerifying ;;
  if busy then ret None
  else
    code <- getCode ;;
    if negb (N.of_nat (List.length code) =? CODE_LENGTH C) then ret None
    else
      update (set_isVerifying true) ;;
      update (set_status "DECRYPTING..." "status") ;;
      update (record (SetTimeout 800)) ;;
      ret (Some (AwaitDelay code)).

(** The rest of [verify()], from one [await] to the next.  The work of an
    awaited call is done when its result is delivered.  [if (message)]
    takes its first branch on a non-empty string: [null] and the empty
    string are falsy. *)
Definition resume (t : task) : M (option task) :=
  match t with
  | AwaitDelay code => ret (Some (AwaitSha256 code))
  | AwaitSha256 code =>
      hash <- sha256 code ;;
      if strict_eq hash (CODE_HASH C)
      then ret (Some (AwaitDecryptMessage code))
      else
        showError "INVALID SIGNAL" ;;
        triggerShake ;;
        update (set_isVerifying false) ;;
        ret None
  | AwaitDecryptMessage code =>
      message <- decryptMessage code ;;
      match message with
      | Some (c :: m) => showSuccess (c :: m) ;; ret None
      | _ =>
          showError "DECRYPTION FAILURE" ;;
          triggerShake ;;
          update (set_isVerifying false) ;;
          ret None
      end
  end.

(** A call of [verify()] that nothing interleaves with, run to its end. *)
Fixpoint drive (fuel : nat) (t : option task) : M unit :=
  match t, fuel with
  | None, _ => ret tt
  | Some _, O => ret tt
  | Some t', S fuel' => next <- resume t' ;; drive fuel' next
  end.

Definition verify : M unit :=
  t <- verify_call ;;
  drive 3 t.

(** ** The page as an event-driven system *)

(** What can happen to the page: a handler calls [verify()]; the awaited
    value of a suspended call arrives; the boxes are edited (typing,
    pasting, the delayed clearing by [triggerShake]); an input handler
    calls [clearError()]. *)
Inductive input : Type :=
| CallVerify
| Wake (i : nat)
| Edit (values : list jsstring)
| ClearError.

Record system := System {
  pg : page;
  pending : list task }.

Definition option_list {A : Type} (o : option A) : list A :=
  match o with
  | Some a => [a]
  | None => []
  end.

Fixpoint remove_nth {A : Type} (i : nat) (l : list A) : list A :=
  match i, l with
  | _, [] => []
  | O, _ :: l' => l'
  | S i', a :: l' => a :: remove_nth i' l'
  end.

Definition settle (r : completion (option task) * page) (others : list task)
  : system :=
  match r with
  | (Normal next, p) => System p (others ++ option_list next)
  | (Throw _, p) => System p others
  end.

Definition step (s : system) (i : input) : system :=
  match i with
  | CallVerify => settle (verify_call (pg s)) (pending s)
  | Wake n =>
      match nth_error (pending s) n with
      | Some t => settle (resume t (pg s)) (remove_nth n (pending s))
      | None => s
      end
  | Edit values => System (set_boxes values (pg s)) (pending s)
  | ClearError => System (snd (clearError (pg s))) (pending s)
  end.

Definition run (s : system) (evs : list input) : system :=
  fold_left step evs s.

Definition boot (values : list jsstring) : system :=
  System (initial values) [].

End WithConstants.

(** ** The states of the verification state machine, read off the page *)

Inductive state : Type :=
| Idle
| Verifying
| Accepted (plaintext : jsstring)
| RejectedHash
| RejectedDecrypt.

Definition state_of (p : page) : state :=
  match revealed p with
  | Some m => Accepted m
  | None =>
      if isVerifying p then Verifying
      else if String.eqb (statusText p) "INVALID SIGNAL" then RejectedHash
      else if String.eqb (statusText p) "DECRYPTION FAILURE" then RejectedDecrypt
      else Idle
  end.

End Runtime.

(* ================================================================== *)
(** * Strings: [trim], [split], [indexOf] *)
(* ================================================================== *)

Module Str.


(** The code units [String.prototype.trim] removes: the white space and
    the line terminators of ECMAScript. *)
Definition is_space (c : N) : bool :=
  existsb (N.eqb c)
    [9; 10; 11; 12; 13; 32; 160; 5760; 8232; 8233; 8239; 8287; 12288; 65279]
  || ((8192 <=? c) && (c <=? 8202)).

Fixpoint trimStart (s : jsstring) : jsstring :=
  match s with
  | [] => []
  | c :: s' => if is_space c then trimStart s' else s
  end.

Definition trimEnd (s : jsstring) : jsstring := rev (trimStart (rev s)).

(** [s.trim()] *)
Definition trim (s : jsstring) : jsstring := trimEnd (trimStart s).

(** [s.split(sep)] for a separator of one code unit: the pieces between
    the separators, one more than there are separators. *)
Fixpoint split (sep : N) (s : jsstring) : list jsstring :=
  match s with
  | [] => [[]]
  | c :: s' =>
      if c =? sep then [] :: split sep s'
      else match split sep s' with
           | piece :: pieces => (c :: piece) :: pieces
           | [] => [[c]]
           end
  end.

(** [s.indexOf(c)] for one code unit; [None] stands for [-1]. *)
Fixpoint indexOf (c : N) (s : jsstring) : option nat :=
  match s with
  | [] => None
  | x :: s' => if x =? c then Some O else option_map S (indexOf c s')
  end.

End Str.

(* ================================================================== *)
(** * build.js: the [.env] file *)
(* ================================================================== *)

Module Dotenv.

(** [process.env] on a POSIX system: the variables of the process, each
    name with a string value or none.  (Names and values are taken to
    hold no NUL.) *)
Definition environment := jsstring -> option jsstring.

(** The properties [process.env] inherits from [Object.prototype]: for
    such a name, and no variable of that name, [process.env[name]] is the
    inherited function or object. *)
Definition inherited (name : jsstring) : bool :=
  existsb (strict_eq name)
    (map js ["constructor"; "hasOwnProperty"; "isPrototypeOf";
             "propertyIsEnumerable"; "toLocaleString"; "toString";
             "valueOf"; "__proto__"; "__defineGetter__";
             "__defineSetter__"; "__lookupGetter__";
             "__lookupSetter__"]%string).

(** [!process.env[key]] *)
Definition unset (e : environment) (key : jsstring) : bool :=
  match e key with
  | Some [] => true
  | Some (_ :: _) => false
  | None => negb (inherited key)
  end.

(** [process.env[key] = value]: the variable is set; the system refuses
    the empty name, which Node lets pass in silence. *)
Definition set (e : environment) (key value : jsstring) : environment :=
  match key with
  | [] => e
  | _ :: _ => fun k => if strict_eq k key then Some value else e k
  end.

(** What a line of the file assigns, if anything: the lines that are
    skipped by [continue] give [None]. *)
Definition parse_line (line : jsstring) : option (jsstring * jsstring) :=
  let trimmed := Str.trim line in
  if match trimmed with [] => true | _ => false end
     || Build.starts_with (js "#") trimmed
  then None
  else
    match Str.indexOf 61 trimmed with
    | None => None
    | Some eqIndex =>
        let key := Str.trim (firstn eqIndex trimmed) in
        let value := Str.trim (skipn (eqIndex + 1) trimmed) in
        Some (key, value)
    end.

(** The body of the loop over the lines. *)
Definition load_line (e : environment) (line : jsstring) : environment :=
  match parse_line line with
  | None => e
  | Some (key, value) =>
      if unset e key then set e key value else e
  end.

(** [process.env] after the loop over [envContent.split('\n')]. *)
Definition load (envContent : jsstring) (e : environment) : environment :=
  fold_left load_line (Str.split 10 envContent) e.

(** [process.env] when the script reaches "Read env vars": [dotenv] is
    the content of the file [.env], if there is one. *)
Definition merged (dotenv : option jsstring) (e : environment)
  : environment :=
  match dotenv with
  | Some envContent => load envContent e
  | None => e
  end.

(** [const SECRET_CODE = process.env.SECRET_CODE] and
    [const SECRET_MESSAGE = process.env.SECRET_MESSAGE] *)
Definition read (e : environment) : Build.process_env :=
  {| Build.SECRET_CODE := e (js "SECRET_CODE");
     Build.SECRET_MESSAGE := e (js "SECRET_MESSAGE") |}.



End Dotenv.

(* ================================================================== *)
(** * script.js: the boxes and their handlers *)
(* ================================================================== *)

Module Handlers.

Import Runtime.

(** [l] with its element of index [i] replaced, if it has one. *)
Fixpoint set_nth {A : Type} (i : nat) (v : A) (l : list A) : list A :=
  match l, i with
  | [], _ => []
  | _ :: l', O => v :: l'
  | x :: l', S i' => x :: set_nth i' v l'
  end.

(** The page together with what the handlers use besides: the box that
    has the focus, and how many of the delayed callbacks of
    [triggerShake] have run.  (The classes [filled] and [error], which
    only style the boxes, are left out.) *)
Record ui := UI {
  sys : system;
  focus : option nat;
  cleared : nat }.

Definition set_sys (s : system) (u : ui) : ui := UI s (focus u) (cleared u).
Definition set_focus (i : nat) (u : ui) : ui := UI (sys u) (Some i) (cleared u).

Section WithConstants.

Variable C : constants.

(** [createBoxes()]: one empty box for each character of the code. *)
Definition createBoxes : list jsstring := repeat [] (N.to_nat (CODE_LENGTH C)).

(** The page once the script has run: [createBoxes()], then
    [if (boxes.length > 0) boxes[0].focus()]. *)
Definition init : ui :=
  UI (boot createBoxes)
     (match createBoxes with [] => None | _ :: _ => Some 0%nat end) 0.

(** [checkAutoVerify()]: the promise [verify()] returns is dropped, the
    call it started stays suspended. *)
Definition checkAutoVerify (s : system) : system :=
  if N.of_nat (List.length (List.concat (boxes (pg s)))) =? CODE_LENGTH C
  then settle (verify_call C (pg s)) (pending s)
  else s.

Definition with_clearError (s : system) : system :=
  System (snd (clearError (pg s))) (pending s).

(** The [input] handler of box [i]. *)
Definition on_input (i : nat) (u : ui) : ui :=
  match nth_error (boxes (pg (sys u))) i with
  | None => u
  | Some val =>
      let u' :=
        if (List.length val =? 1)%nat then
          if (i <? List.length (boxes (pg (sys u))) - 1)%nat
          then set_focus (i + 1) u
          else set_sys (checkAutoVerify (sys u)) u
        else u in
      set_sys (with_clearError (sys u')) u'
  end.

(** The [keydown] handler of box [i]. *)
Definition on_keydown (i : nat) (key : string) (u : ui) : ui :=
  let p := pg (sys u) in
  match nth_error (boxes p) i with
  | None => u
  | Some value =>
      if String.eqb key "Backspace"
         && match value with [] => true | _ :: _ => false end
         && (0 <? i)%nat
      then
        let p' := set_boxes (set_nth (i - 1) [] (boxes p)) p in
        set_sys (with_clearError (System p' (pending (sys u))))
                (set_focus (i - 1) u)
      else u
  end.

(** The loop of the [paste] handler: [boxes[i + j].value = pasted[j]]
    while [i + j < boxes.length]. *)
Fixpoint fill (i : nat) (pasted : jsstring) (bs : list jsstring)
  : list jsstring :=
  match pasted with
  | [] => bs
  | c :: rest =>
      if (i <? List.length bs)%nat then fill (S i) rest (set_nth i [c] bs)
      else bs
  end.

(** The [paste] handler of box [i]; [text] is what the clipboard gives
    for ['text']. *)
Definition on_paste (i : nat) (text : jsstring) (u : ui) : ui :=
  let p := pg (sys u) in
  match nth_error (boxes p) i with
  | None => u
  | Some _ =>
      let pasted := Str.trim text in
      let p' := set_boxes (fill i pasted (boxes p)) p in
      let nextIndex :=
        Nat.min (i + List.length pasted) (List.length (boxes p) - 1) in
      set_sys (checkAutoVerify (System p' (pending (sys u))))
              (set_focus nextIndex u)
  end.

(** The callback [triggerShake()] leaves with [setTimeout]: the boxes are
    emptied and the first one gets the focus. *)
Definition shake_timeout (u : ui) : ui :=
  let p := pg (sys u) in
  if (cleared u <? shakes p)%nat then
    UI (System (set_boxes (map (fun _ => []) (boxes p)) p) (pending (sys u)))
       (match boxes p with [] => focus u | _ :: _ => Some 0%nat end)
       (S (cleared u))
  else u.

(** What happens to the page: the user changes the value of a box
    ([input] is dispatched once the box holds the new value), presses a
    key in a box, pastes into a box; a callback of [triggerShake] is
    due; the value a suspended call of [verify] awaits arrives. *)
Inductive event : Type :=
| Input (i : nat) (value : jsstring)
| Keydown (i : nat) (key : string)
| Paste (i : nat) (text : jsstring)
| ShakeTimeout
| Resume (n : nat).

Definition step (u : ui) (e : event) : ui :=
  match e with
  | Input i value =>
      let p := pg (sys u) in
      match nth_error (boxes p) i with
      | None => u
      | Some _ =>
          on_input i
            (set_sys (System (set_boxes (set_nth i value (boxes p)) p)
                             (pending (sys u))) u)
      end
  | Keydown i key => on_keydown i key u
  | Paste i text => on_paste i text u
  | ShakeTimeout => shake_timeout u
  | Resume n => set_sys (Runtime.step C (sys u) (Wake n)) u
  end.

Definition run (u : ui) (evs : list event) : ui := fold_left step evs u.

End WithConstants.

End Handlers.

(* ================================================================== *)
(** * script.js: the reveal sequence *)
(* ================================================================== *)

Module Reveal.

(** A [div] of the terminal: its class, its text content, and whether
    that text ends in the [span] of class [status-ok]. *)
Record element := Element {
  className : string;
  textContent : jsstring;
  status_ok : bool }.

(** The container of the sequence, which never holds more than one
    child, and the frames shown so far: at each [setTimeout] what the
    container holds is on display for the delay asked for. *)
Record terminal := Terminal {
  child : option element;
  frames : list (option element * N) }.

Definition set_child (c : option element) (t : terminal) : terminal :=
  Terminal c (frames t).

(** [element.textContent = s] on the child: the text is replaced, and a
    [span] inside is gone. *)
Definition set_textContent (s : jsstring) (t : terminal) : terminal :=
  match child t with
  | Some e => set_child (Some (Element (className e) s false)) t
  | None => t
  end.

Definition get_textContent (t : terminal) : jsstring :=
  match child t with
  | Some e => textContent e
  | None => []
  end.

(** [line.innerHTML += ' <span class="status-ok">[OK]</span>'] (the text
    of the line comes back from its serialization as it was). *)
Definition append_status (t : terminal) : terminal :=
  match child t with
  | Some e =>
      set_child (Some (Element (className e) (textContent e ++ js " [OK]")
                               true)) t
  | None => t
  end.

(** [container.innerHTML = ''], then a new [div] of class [cls] is
    appended. *)
Definition new_child (cls : string) (t : terminal) : terminal :=
  set_child (Some (Element cls [] false)) t.

(** [wait(ms)], and every [setTimeout(f, ms)] that is awaited. *)
Definition wait (ms : N) (t : terminal) : terminal :=
  Terminal (child t) (frames t ++ [(child t, ms)]).

(** [text.charAt(i)] *)
Definition charAt (i : nat) (text : jsstring) : jsstring :=
  match nth_error text i with
  | Some c => [c]
  | None => []
  end.

(** The function [type] inside [typeText], from the index [i] on. *)
Fixpoint type (fuel : nat) (text : jsstring) (speed : N) (i : nat)
    (t : terminal) : terminal :=
  match fuel with
  | O => t
  | S fuel' =>
      if (i <? List.length text)%nat then
        type fuel' text speed (S i)
             (wait speed
                (set_textContent (get_textContent t ++ charAt i text) t))
      else t
  end.

(** [typeText(element, text, speed)] on the child of the container. *)
Definition typeText (text : jsstring) (speed : N) (t : terminal) : terminal :=
  type (S (List.length text)) text speed 0 (set_textContent [] t).

(** [text.substring(0, text.length - 1)] *)
Definition chop (text : jsstring) : jsstring :=
  firstn (List.length text - 1) text.

(** The function [erase] inside [deleteText]; [text] is its variable. *)
Fixpoint erase (fuel : nat) (speed : N) (text : jsstring) (t : terminal)
  : terminal :=
  match fuel with
  | O => t
  | S fuel' =>
      if (0 <? List.length text)%nat then
        erase fuel' speed (chop text)
              (wait speed (set_textContent (chop text) t))
      else t
  end.

(** [deleteText(element, speed)] on the child of the container. *)
Definition deleteText (speed : N) (t : terminal) : terminal :=
  erase (S (List.length (get_textContent t))) speed (get_textContent t) t.

(** [processStep(container, text, type, shouldDelete)] *)
Definition processStep (text : string) (type : string) (shouldDelete : bool)
    (t : terminal) : terminal :=
  let t := new_child (String.append "term-line active " type) t in
  let t := typeText (js "> " ++ js text) 30 t in
  let t := wait 400 t in
  let t := append_status t in
  let t := wait 600 t in
  if shouldDelete then wait 200 (deleteText 15 t) else t.

(** [runFocusedSequence(container, finalMessage)] *)
Definition runFocusedSequence (finalMessage : jsstring) (t : terminal)
  : terminal :=
  let t := processStep "INITIALIZING UPLINK" "normal" true t in
  let t := processStep "VERIFYING SECURITY_TOKEN" "normal" true t in
  let t := processStep "BYPASSING FIREWALL" "normal" true t in
  let t := processStep "DECRYPTING SECURE_PACKET" "normal" true t in
  let t := processStep "ACCESS GRANTED" "success" false t in
  let t := new_child "secret-message-reveal" t in
  typeText finalMessage 50 t.

(** What [showSuccess(message)] does to the reveal panel: its content is
    emptied and the sequence runs in it.  (The inputs, the status line
    and the logo are hidden, the panel is made visible.) *)
Definition showSuccess (message : jsstring) : terminal :=
  runFocusedSequence message (Terminal None []).

End Reveal.

Import Runtime.

(* ================================================================== *)
(** * Definitions used in the statements and their proofs *)
(* ================================================================== *)

(** A scalar value: a code point that is not a surrogate. *)
Definition scalar (c : N) : Prop :=
  c < 1114112 /\ (c < 55296 \/ 57343 < c).

(** A string without lone surrogates. *)
Fixpoint no_lone_surrogate (s : jsstring) : bool :=
  match s with
  | [] => true
  | u :: rest =>
      if UTF8.is_high u then
        match rest with
        | v :: rest' => UTF8.is_low v && no_lone_surrogate rest'
        | [] => false
        end
      else negb (UTF8.is_low u) && (u <? 65536) && no_lone_surrogate rest
  end.

(** Settles the comparisons of a goal by arithmetic. *)
Ltac decide_tests :=
  repeat match goal with
    | |- context [?a <=? ?b] =>
        destruct (N.leb_spec a b); [|try lia]; try lia
    | |- context [?a <? ?b] =>
        destruct (N.ltb_spec a b); [|try lia]; try lia
    | |- context [?a =? ?b] =>
        destruct (N.eqb_spec a b); [|try lia]; try lia
    end.

(** The six-bit values [Base64.encode] writes, and the padding after them. *)
Fixpoint sextets (bs : bytes) : list N :=
  match bs with
  | [] => []
  | [a] =>
      let n := Byte.to_N a * 65536 in [n / 262144; n / 4096 mod 64]
  | [a; b] =>
      let n := Byte.to_N a * 65536 + Byte.to_N b * 256 in
      [n / 262144; n / 4096 mod 64; n / 64 mod 64]
  | a :: b :: c :: rest =>
      let n := Byte.to_N a * 65536 + Byte.to_N b * 256 + Byte.to_N c in
      n / 262144 :: n / 4096 mod 64 :: n / 64 mod 64 :: n mod 64 :: sextets rest
  end.

Definition padding (bs : bytes) : jsstring :=
  repeat Base64.pad_char ((3 - List.length bs mod 3) mod 3).

(** The value of a hexadecimal digit, and the byte two digits stand for. *)
Definition hex_value (d : N) : N := if d <? 58 then d - 48 else d - 87.

(** The bytes build.js encrypts to, for a given code, message, salt and IV. *)
Definition sealed (code message : jsstring) (salt iv : bytes) : bytes :=
  let k := PBKDF2.hmac_sha256 (UTF8.encode code) salt 100000 32 in
  let c := GCM.crypt k iv (UTF8.encode message) in
  c ++ GCM.tag k iv c.

(** The page with more platform calls in its trace. *)
Definition extend (evs : list event) (p : page) : page :=
  Page (boxes p) (isVerifying p) (statusText p) (statusClass p) (revealed p)
       (shakes p) (trace p ++ evs).

(** The key script.js derives from a password and a salt. *)
Definition derived_key (password : jsstring) (salt : bytes) : WebCrypto.CryptoKey :=
  WebCrypto.Key (WebCrypto.KeyAesGcm 256) false ["decrypt"%string]
    (PBKDF2.hmac_sha256 (UTF8.encode password) salt 100000 32).

Definition pbkdf2_params (salt : bytes) : WebCrypto.Pbkdf2Params :=
  {| WebCrypto.p_name := "PBKDF2"; WebCrypto.p_salt := salt;
     WebCrypto.p_iterations := 100000; WebCrypto.p_hash := "SHA-256" |}.

Definition aes_gcm (iv : bytes) : WebCrypto.AesGcmParams :=
  {| WebCrypto.g_name := "AES-GCM"; WebCrypto.g_iv := iv |}.

(** The constants of a page built from [code], [message], [salt], [iv]. *)
Definition prepared (code message : jsstring) (salt iv : bytes) : constants :=
  Constants (Hex.encode (SHA256.digest (UTF8.encode code)))
            (N.of_nat (List.length code))
            (Base64.encode salt) (Base64.encode iv)
            (Base64.encode (sealed code message salt iv)).

(** The platform calls of a successful [decryptMessage] on such a page. *)
Definition decrypt_events (code message : jsstring) (salt iv : bytes)
  : list event :=
  [SubtleImportKey "PBKDF2" (UTF8.encode code);
   SubtleDeriveKey (pbkdf2_params salt);
   SubtleDecrypt iv (sealed code message salt iv)].

(** [m] gives the same result on every page and only appends the same
    platform calls to its trace. *)
Definition pure {A : Type} (m : M A) : Prop :=
  exists r evs, forall p, m p = (r, extend evs p).

Definition started (p : page) : page :=
  extend [SetTimeout 800]
    (set_status "DECRYPTING..." "status" (set_isVerifying true p)).

Definition rejected (msg : string) (p : page) : page :=
  set_isVerifying false (add_shake (set_status msg "status error" p)).

Definition hashed (code : jsstring) (p : page) : page :=
  extend [SubtleDigest "SHA-256" (UTF8.encode code)] p.

(** The salt and the IV build.js draws. *)
Definition salt_of (i : Build.inputs) : bytes :=
  Build.randomBytes (Build.entropy i) 0 16.
Definition iv_of (i : Build.inputs) : bytes :=
  Build.randomBytes (Build.entropy i) 16 12.

Definition sample_env (code message : jsstring) : Build.process_env :=
  {| Build.SECRET_CODE := Some code; Build.SECRET_MESSAGE := Some message |}.

Definition sample_inputs (code message : jsstring) : Build.inputs :=
  {| Build.env := sample_env code message;
     Build.entropy := fun n => byte_of_N (N.of_nat n * 37 + 11);
     Build.dist_exists := false;
     Build.index_html := js "<script>const CODE_HASH = '__CODE_HASH__';</script>";
     Build.now := 1700000000000;
     Build.assets := Some ["logo.svg"%string];
     Build.dist_assets_exists := false |}.

(** The page with one character in each box. *)
Definition typed (code : jsstring) : page := initial (map (fun c => [c]) code).

Definition treasure : jsstring := js "THE TREASURE IS UNDER THE OAK".

(** The message of the counterexample to C1: a byte order mark, then "HI". *)
Definition marked_message : jsstring := 65279 :: js "HI".

Definition sample_salt : bytes := salt_of (sample_inputs (js "ABC123") treasure).
Definition sample_iv : bytes := iv_of (sample_inputs (js "ABC123") treasure).

(** Two byte strings collide when they differ and have the same digest. *)
Definition sha256_collision (x y : bytes) : Prop :=
  x <> y /\ SHA256.digest x = SHA256.digest y.

(** The byte [b] with its bit [i] flipped. *)
Definition flip (b : byte) (i : nat) : byte :=
  byte_of_N (N.lxor (Byte.to_N b) (2 ^ N.of_nat i)).

(** The bytes [bs] with bit [i] flipped, counting from the first byte. *)
Fixpoint flip_bit (i : nat) (bs : bytes) : bytes :=
  match bs with
  | [] => []
  | b :: rest =>
      if (i <? 8)%nat then flip b i :: rest else b :: flip_bit (i - 8) rest
  end.


Definition block_bound : N := 2 ^ 128.

(** [h] is not a zero divisor; in the field GF(2^128) that is to say that
    [h] is not zero. *)
Definition no_zero_divisor (h : N) : Prop :=
  forall x, x <> 0 -> x < block_bound -> GCM.mul x h <> 0.

(** A block of at most sixteen bytes, padded with zeros. *)
Definition padded (b : bytes) : N :=
  be_N (b ++ repeat x00 (16 - List.length b)).

(** [g] leaves the first [n] powers of two as they are. *)
Definition fixes_powers (g : N -> N) (n : nat) : bool :=
  forallb (fun i => g (2 ^ N.of_nat i) =? 2 ^ N.of_nat i) (seq 0 n).

(** The product by [h] and then by [h'] leaves the first 128 powers of two
    as they are: [h'] is the inverse of [h]. *)
Definition inverse_of (h h' : N) : bool :=
  fixes_powers (fun y => GCM.mul (GCM.mul y h) h') 128.

(** The inverse in GF(2^128) of [h], when it is not zero: [h] to the power
    [2 ^ 128 - 2], as the product of its 127 successive squares. *)
Definition mul_inverse (h : N) : N :=
  snd (Nat.iter 127
         (fun p : N * N =>
            let s := GCM.mul (fst p) (fst p) in (s, GCM.mul (snd p) s))
         (h, 2 ^ 127)).


(** A page whose constants expect another hash than that of the code typed. *)
Definition other_hash : constants :=
  Constants (js "00") 6 (js "AAAA") (js "AAAA") (js "AAAA").

(** A page whose salt is not Base64. *)
Definition bad_salt : constants :=
  Constants (Hex.encode (SHA256.digest (UTF8.encode (js "ABC123")))) 6
            (js "%%%") (js "AAAA") (js "AAAA").

Definition no_message : Build.inputs :=
  {| Build.env := {| Build.SECRET_CODE := Some (js "ABC123");
                     Build.SECRET_MESSAGE := None |};
     Build.entropy := fun _ => x00;
     Build.dist_exists := false;
     Build.index_html := [];
     Build.now := 0;
     Build.assets := None;
     Build.dist_assets_exists := false |}.

(** What holds of every state the system reaches: a suspended call exists
    only while [isVerifying] is set, there is at most one, and once a
    message is revealed the flag stays set with no call left. *)
Definition well_formed (s : system) : Prop :=
  (isVerifying (pg s) = false -> pending s = []) /\
  (List.length (pending s) <= 1)%nat /\
  (revealed (pg s) <> None -> isVerifying (pg s) = true /\ pending s = []).

(** The page of the sample build, with the code typed in. *)
Definition sample_page : constants :=
  prepared (js "ABC123") treasure sample_salt sample_iv.

(** A string of white space only. *)
Definition spaces (s : jsstring) : Prop := forallb Str.is_space s = true.

(** The text of some lines, each ended by [eol] but the last. *)
Fixpoint unlines (eol : jsstring) (lines : list jsstring) : jsstring :=
  match lines with
  | [] => []
  | [l] => l
  | l :: rest => l ++ eol ++ unlines eol rest
  end.

(** A sample environment, in which only SECRET_CODE is set. *)
Definition sample_environment : Dotenv.environment :=
  fun k => if strict_eq k (js "SECRET_CODE") then Some (js "ABC123") else None.




(** A lower-case hexadecimal digit. *)
Definition lower_hex (c : N) : bool :=
  ((48 <=? c) && (c <=? 57)) || ((97 <=? c) && (c <=? 102)).

(** The sample build with another source of random bytes, which gives
    the same IV and another salt. *)
Definition other_draw : Build.inputs :=
  {| Build.env := sample_env (js "ABC123") treasure;
     Build.entropy :=
       fun n => if (n <? 16)%nat then byte_of_N (N.of_nat n * 101 + 7)
                else byte_of_N (N.of_nat n * 37 + 11);
     Build.dist_exists := true;
     Build.index_html := [];
     Build.now := 1700000000001;
     Build.assets := None;
     Build.dist_assets_exists := false |}.

(** A character of the Base64 alphabet, or the padding character. *)
Definition base64_char (c : N) : bool :=
  match Base64.value_of c with
  | Some _ => true
  | None => c =? Base64.pad_char
  end.

(** A decimal digit. *)
Definition decimal_digit (c : N) : bool := (48 <=? c) && (c <=? 57).

(** The replacement strings of the eight calls of [replace] in a run of
    the build that derived the artifacts [a]. *)
Definition replacements (a : Build.artifacts) (timestamp : N) : list jsstring :=
  [Build.codeHash a; Build.encryptedB64 a; Build.toString (Build.codeLength a);
   Build.ivB64 a; Build.saltB64 a;
   js "style.css?v=" ++ Build.toString timestamp;
   js "script.js?v=" ++ Build.toString timestamp;
   js "assets/logo.svg?v=" ++ Build.toString timestamp].

(** [pat] occurs in [s]. *)
Fixpoint occurs (pat s : jsstring) : bool :=
  Build.starts_with pat s
  || match s with
     | [] => false
     | _ :: s' => occurs pat s'
     end.

(** The eight strings the build looks for in index.html. *)
Definition placeholders : list jsstring :=
  map js ["__CODE_HASH__"; "__ENCRYPTED_MESSAGE__"; "__CODE_LENGTH__";
          "__IV__"; "__SALT__"; "style.css"; "script.js";
          "assets/logo.svg"]%string.

(** The sample build with a template that holds no placeholder. *)
Definition plain_template : Build.inputs :=
  {| Build.env := sample_env (js "ABC123") treasure;
     Build.entropy := fun n => byte_of_N (N.of_nat n * 37 + 11);
     Build.dist_exists := false;
     Build.index_html := js "<html><body>Hello</body></html>";
     Build.now := 1700000000000;
     Build.assets := None;
     Build.dist_assets_exists := false |}.

(** The number a string of decimal digits stands for. *)
Definition decimal_value (s : jsstring) : N :=
  fold_left (fun v c => v * 10 + (c - 48)) s 0.

(** A code unit [atob] refuses: not of the Base64 alphabet, not the
    padding character, not ASCII white space. *)
Definition foreign (c : N) : Prop :=
  Base64.value_of c = None /\ c <> Base64.pad_char /\
  Base64.is_ascii_whitespace c = false.

(** A page whose IV was never injected. *)
Definition placeholder_left : constants :=
  Constants (js "00") 6 (js "AAAA") (js "__IV__") (js "AAAA").

(** The inputs that start and resume nothing: an edit of the boxes, a
    call of [clearError()]. *)
Definition quiet (i : input) : bool :=
  match i with
  | Edit _ | ClearError => true
  | CallVerify | Wake _ => false
  end.

(** Two pages that differ at most in the boxes and the status line. *)
Definition alike (p q : page) : Prop :=
  isVerifying p = isVerifying q /\ revealed p = revealed q /\
  shakes p = shakes q /\ trace p = trace q.

(** Two systems with the same suspended calls and pages alike. *)
Definition alike_systems (s t : system) : Prop :=
  pending s = pending t /\ alike (pg s) (pg t).

(** The events in which the user leaves at most one code unit in a box,
    as [maxLength = 1] lets them. *)
Definition within_maxLength (e : Handlers.event) : bool :=
  match e with
  | Handlers.Input _ value => (List.length value <=? 1)%nat
  | _ => true
  end.

(** The frames in which an element of class [cls] shows the prefixes of
    [text] of the lengths [lengths], each for [speed] milliseconds. *)
Definition prefix_frames (cls : string) (text : jsstring) (speed : N)
    (lengths : list nat) : list (option Reveal.element * N) :=
  map (fun k => (Some (Reveal.Element cls (firstn k text) false), speed))
      lengths.

(** The time a list of frames takes. *)
Definition duration (fs : list (option Reveal.element * N)) : N :=
  fold_right (fun f d => snd f + d) 0 fs.

(** The element of the message before anything is typed. *)
Definition blank_line : Reveal.terminal :=
  Reveal.Terminal (Some (Reveal.Element "secret-message-reveal" [] false)) [].

(** A line of the terminal, typed and marked. *)
Definition typed_line : Reveal.terminal :=
  Reveal.Terminal (Some (Reveal.Element "term-line active normal"
                           (js "> GO [OK]") true)) [].

(** A message with an accented letter, a character of three bytes and
    one outside the basic plane. *)
Definition greeting : jsstring := [72; 233; 32; 8364; 32; 55357; 56832].

(* ================================================================== *)
(** * Known answers of the platform model *)
(* ================================================================== *)

(** FIPS 180-4, the one-block message "abc". *)
Example sha256_abc :
  Hex.encode (SHA256.digest (UTF8.encode (js "abc")))
  = js "ba7816bf8f01cfea414140de5dae2223b00361a396177a9cb410ff61f20015ad".
Proof. vm_compute. reflexivity. Qed.

(** PBKDF2-HMAC-SHA256 of "password" and "salt", 32 bytes, one and two
    iterations. *)
Example pbkdf2_one_iteration :
  Hex.encode (PBKDF2.hmac_sha256 (UTF8.encode (js "password"))
                                 (UTF8.encode (js "salt")) 1 32)
  = js "120fb6cffcf8b32c43e7225256c4f837a86548c92ccc35480805987cb70be17b".
Proof. vm_compute. reflexivity. Qed.

Example pbkdf2_two_iterations :
  Hex.encode (PBKDF2.hmac_sha256 (UTF8.encode (js "password"))
                                 (UTF8.encode (js "salt")) 2 32)
  = js "ae4d0c95af6b46d32d0adff928f06dd02a303f8ef3c251dfd6e2d85a95474c43".
Proof. vm_compute. reflexivity. Qed.

(** FIPS 197, appendix C.3. *)
Example aes256_fips197 :
  AES.encrypt_block
    (be_bytes 32 0x000102030405060708090a0b0c0d0e0f101112131415161718191a1b1c1d1e1f)
    0x00112233445566778899aabbccddeeff
  = 0x8ea2b7ca516745bfeafc49904b496089.
Proof. vm_compute. reflexivity. Qed.

(** The AES-256 test cases of the GCM specification with a zero key and a
    zero IV: no plaintext, and one block of zeros. *)
Example gcm_empty_plaintext :
  be_N (GCM.tag (repeat x00 32) (repeat x00 12) [])
  = 0x530f8afbc74536b9a963b4f1c4cb738b.
Proof. vm_compute. reflexivity. Qed.

Example gcm_zero_block :
  let c := GCM.crypt (repeat x00 32) (repeat x00 12) (repeat x00 16) in
  be_N c = 0xcea7403d4d606b6e074ec5d3baf39d18 /\
  be_N (GCM.tag (repeat x00 32) (repeat x00 12) c)
  = 0xd0d1c8a799996bf0265b98b5d48ab919.
Proof. vm_compute. split; reflexivity. Qed.

(** RFC 4648 test vectors, and what [atob] accepts and refuses. *)
Example base64_vectors :
  Base64.encode (UTF8.encode (js "f")) = js "Zg==" /\
  Base64.encode (UTF8.encode (js "fo")) = js "Zm8=" /\
  Base64.encode (UTF8.encode (js "foobar")) = js "Zm9vYmFy" /\
  Base64.atob (js "Zm9v YmE=") = Normal (js "fooba") /\
  Base64.atob (js "Zg") = Normal (js "f") /\
  Base64.atob (js "Zg=") = Throw InvalidCharacterError /\
  Base64.atob (js "Z") = Throw InvalidCharacterError /\
  Base64.atob (js "Zm9v!") = Throw InvalidCharacterError.
Proof. vm_compute. repeat split. Qed.

(** UTF-8: one, two, three and four bytes; a surrogate on its own; a leading
    byte order mark; a truncated sequence. *)
Example utf8_vectors :
  map Byte.to_N (UTF8.encode [65; 233; 8364; 55357; 56832])
  = [65; 195; 169; 226; 130; 172; 240; 159; 152; 128] /\
  UTF8.decode (UTF8.encode [65; 233; 8364; 55357; 56832])
  = [65; 233; 8364; 55357; 56832] /\
  map Byte.to_N (UTF8.encode [55296]) = [239; 191; 189] /\
  UTF8.decode (UTF8.encode [65279; 65]) = [65] /\
  UTF8.decode (map byte_of_N [65; 226; 130]) = [65; 65533].
Proof. vm_compute. repeat split. Qed.


(* ================================================================== *)
(** * Properties *)
(* ================================================================== *)

(** ** Bytes *)

Lemma to_N_byte_of_N (n : N) : Byte.to_N (byte_of_N n) = n mod 256.
Proof.
  unfold byte_of_N.
  destruct (Byte.of_N (n mod 256)) as [b|] eqn:E.
  - now apply Byte.to_of_N.
  - apply Byte.of_N_None_iff in E.
    pose proof (N.mod_lt n 256). lia.
Qed.

Lemma to_N_lt (b : byte) : Byte.to_N b < 256.
Proof. pose proof (Byte.to_N_bounded b). lia. Qed.

Lemma byte_of_N_to_N (b : byte) : byte_of_N (Byte.to_N b) = b.
Proof.
  unfold byte_of_N.
  rewrite N.mod_small by apply to_N_lt.
  now rewrite Byte.of_to_N.
Qed.

Lemma to_N_inj (a b : byte) : Byte.to_N a = Byte.to_N b -> a = b.
Proof.
  intros H. rewrite <- (byte_of_N_to_N a), <- (byte_of_N_to_N b). now rewrite H.
Qed.

Lemma byte_of_N_small (n : N) : n < 256 -> Byte.to_N (byte_of_N n) = n.
Proof. intros H. rewrite to_N_byte_of_N. now apply N.mod_small. Qed.

(** Checking a boolean property of the numbers below a bound by running it. *)
Lemma check_below (k : nat) (f : N -> bool) :
  forallb f (map N.of_nat (seq 0 k)) = true ->
  forall v, v < N.of_nat k -> f v = true.
Proof.
  intros H v Hv.
  rewrite forallb_forall in H. apply H.
  apply in_map_iff. exists (N.to_nat v). split.
  - apply N2Nat.id.
  - apply in_seq. lia.
Qed.

Lemma lxor_lt_256 (a b : N) : a < 256 -> b < 256 -> N.lxor a b < 256.
Proof.
  intros Ha Hb. apply N.ltb_lt.
  revert b Hb. apply (check_below 256).
  revert a Ha. apply (check_below 256 (fun a =>
    forallb (fun b => N.lxor a b <? 256) (map N.of_nat (seq 0 256)))).
  vm_compute. reflexivity.
Qed.

Lemma bxor_involutive (a b : byte) : bxor (bxor a b) b = a.
Proof.
  unfold bxor.
  rewrite byte_of_N_small by (apply lxor_lt_256; apply to_N_lt).
  rewrite N.lxor_assoc, N.lxor_nilpotent, N.lxor_0_r.
  apply byte_of_N_to_N.
Qed.

Lemma xor_bytes_length (xs ks : bytes) :
  (List.length xs <= List.length ks)%nat ->
  List.length (xor_bytes xs ks) = List.length xs.
Proof.
  revert ks. induction xs as [|x xs IH]; intros [|k ks] H;
    cbn [xor_bytes List.length] in *; try lia.
  now rewrite IH by lia.
Qed.

Lemma xor_bytes_involutive (xs ks : bytes) :
  (List.length xs <= List.length ks)%nat ->
  xor_bytes (xor_bytes xs ks) ks = xs.
Proof.
  revert ks. induction xs as [|x xs IH]; intros [|k ks] H;
    cbn [xor_bytes List.length] in *; try lia; try reflexivity.
  now rewrite bxor_involutive, IH by lia.
Qed.

Lemma be_bytes_length (len : nat) (n : N) : List.length (be_bytes len n) = len.
Proof.
  revert n. induction len as [|l IH]; intros n; simpl.
  - reflexivity.
  - rewrite length_app, IH. simpl. lia.
Qed.

(** ** Comparison of lists *)

Lemma list_eqb_eq {A : Type} (eqb : A -> A -> bool) :
  (forall x y, eqb x y = true <-> x = y) ->
  forall xs ys, list_eqb eqb xs ys = true <-> xs = ys.
Proof.
  intros Heq. induction xs as [|x xs IH]; intros [|y ys]; simpl;
    try (split; [discriminate | discriminate]); try tauto.
  rewrite andb_true_iff, Heq, IH. split.
  - intros [-> ->]. reflexivity.
  - intros E. now inversion E.
Qed.

Lemma strict_eq_true (a b : jsstring) : strict_eq a b = true <-> a = b.
Proof. apply list_eqb_eq. intros x y. apply N.eqb_eq. Qed.

Lemma strict_eq_refl (a : jsstring) : strict_eq a a = true.
Proof. now apply strict_eq_true. Qed.

Lemma strict_eq_false (a b : jsstring) : strict_eq a b = false <-> a <> b.
Proof.
  rewrite <- strict_eq_true. destruct (strict_eq a b); split; congruence.
Qed.

Lemma bytes_eqb_true (a b : bytes) : bytes_eqb a b = true <-> a = b.
Proof.
  apply list_eqb_eq. intros x y. split.
  - apply Byte.byte_dec_bl.
  - apply Byte.byte_dec_lb.
Qed.


(** ** UTF-8 *)

Lemma land_low_bits (a k : N) (n : N) :
  k = N.ones n -> N.land a k = a mod 2 ^ n.
Proof. intros ->. apply N.land_ones. Qed.

Lemma classify_ascii (b : N) : b < 128 -> UTF8.classify b = UTF8.Emit b.
Proof. intros H. unfold UTF8.classify. now decide_tests. Qed.

Lemma classify_lead2 (b : N) :
  194 <= b <= 223 ->
  UTF8.classify b = UTF8.Begin (UTF8.DState (b mod 32) 0 1 128 191).
Proof.
  intros H. unfold UTF8.classify. decide_tests. cbn [andb].
  now rewrite (land_low_bits _ 31 5).
Qed.

Lemma classify_lead3 (b : N) :
  224 <= b <= 239 ->
  UTF8.classify b
  = UTF8.Begin (UTF8.DState (b mod 16) 0 2
                  (if b =? 224 then 160 else 128)
                  (if b =? 237 then 159 else 191)).
Proof.
  intros H. unfold UTF8.classify.
  destruct (N.leb_spec b 127); [lia|].
  destruct (N.leb_spec 194 b); [|lia].
  destruct (N.leb_spec b 223); [lia|].
  destruct (N.leb_spec 224 b); [|lia].
  destruct (N.leb_spec b 239); [|lia].
  cbn [andb]. now rewrite (land_low_bits _ 15 4).
Qed.

Lemma classify_lead4 (b : N) :
  240 <= b <= 244 ->
  UTF8.classify b
  = UTF8.Begin (UTF8.DState (b mod 8) 0 3
                  (if b =? 240 then 144 else 128)
                  (if b =? 244 then 143 else 191)).
Proof.
  intros H. unfold UTF8.classify.
  destruct (N.leb_spec b 127); [lia|].
  destruct (N.leb_spec 194 b); [|lia].
  destruct (N.leb_spec b 223); [lia|].
  destruct (N.leb_spec 224 b); [|lia].
  destruct (N.leb_spec b 239); [lia|].
  destruct (N.leb_spec 240 b); [|lia].
  destruct (N.leb_spec b 244); [|lia].
  cbn [andb]. now rewrite (land_low_bits _ 7 3).
Qed.

(** One step of the decoder on a lead byte. *)
Lemma decode_lead (b : N) (st : UTF8.dstate) (rest : bytes) :
  b < 256 -> UTF8.classify b = UTF8.Begin st ->
  UTF8.decode_loop (byte_of_N b :: rest) UTF8.d_init
  = UTF8.decode_loop rest st.
Proof.
  intros Hb H. cbn [UTF8.decode_loop]. rewrite byte_of_N_small by exact Hb.
  rewrite H. reflexivity.
Qed.

Lemma decode_ascii (b : N) (rest : bytes) :
  b < 128 ->
  UTF8.decode_loop (byte_of_N b :: rest) UTF8.d_init
  = b :: UTF8.decode_loop rest UTF8.d_init.
Proof.
  intros Hb. cbn [UTF8.decode_loop]. rewrite byte_of_N_small by lia.
  rewrite classify_ascii by exact Hb. reflexivity.
Qed.

(** One step on a continuation byte [128 + r] that is within bounds. *)
Lemma decode_continuation (r cp seen needed lower upper : N) (rest : bytes) :
  r < 64 -> needed <> 0 -> lower <= 128 + r <= upper ->
  UTF8.decode_loop (byte_of_N (128 + r) :: rest)
                   (UTF8.DState cp seen needed lower upper)
  = if seen + 1 =? needed
    then (cp * 64 + r) :: UTF8.decode_loop rest UTF8.d_init
    else UTF8.decode_loop rest (UTF8.DState (cp * 64 + r) (seen + 1) needed 128 191).
Proof.
  intros Hr Hn Hb. cbn [UTF8.decode_loop]. rewrite byte_of_N_small by lia.
  cbn [UTF8.d_needed UTF8.d_lower UTF8.d_upper UTF8.d_cp UTF8.d_seen].
  destruct (N.eqb_spec needed 0); [contradiction|].
  destruct (N.ltb_spec (128 + r) lower); [lia|].
  destruct (N.ltb_spec upper (128 + r)); [lia|].
  cbn [orb]. rewrite (land_low_bits _ 63 6) by reflexivity.
  replace ((128 + r) mod 2 ^ 6) with r by lia.
  reflexivity.
Qed.

Lemma decode_scalar (c : N) (rest : bytes) :
  scalar c ->
  UTF8.decode_loop (UTF8.encode_scalar c ++ rest) UTF8.d_init
  = c :: UTF8.decode_loop rest UTF8.d_init.
Proof.
  intros [Hmax Hsur]. unfold UTF8.encode_scalar.
  destruct (N.ltb_spec c 128) as [H1|H1]; [now apply decode_ascii|].
  destruct (N.ltb_spec c 2048) as [H2|H2].
  { cbn [app].
    rewrite (decode_lead (192 + c / 64) _ _ ltac:(lia)
               (classify_lead2 (192 + c / 64) ltac:(lia))).
    rewrite decode_continuation by lia.
    change (0 + 1 =? 1) with true. cbv iota. f_equal. lia. }
  destruct (N.ltb_spec c 65536) as [H3|H3].
  { cbn [app].
    rewrite (decode_lead (224 + c / 4096) _ _ ltac:(lia)
               (classify_lead3 (224 + c / 4096) ltac:(lia))).
    rewrite decode_continuation;
      [| lia | discriminate
       | destruct (N.eqb_spec (224 + c / 4096) 224),
                  (N.eqb_spec (224 + c / 4096) 237); lia].
    change (0 + 1 =? 2) with false. cbv iota.
    rewrite decode_continuation by lia.
    change (0 + 1 + 1 =? 2) with true. cbv iota. f_equal. lia. }
  cbn [app].
  rewrite (decode_lead (240 + c / 262144) _ _ ltac:(lia)
             (classify_lead4 (240 + c / 262144) ltac:(lia))).
  rewrite decode_continuation;
    [| lia | discriminate
     | destruct (N.eqb_spec (240 + c / 262144) 240),
                (N.eqb_spec (240 + c / 262144) 244); lia].
  change (0 + 1 =? 3) with false. cbv iota.
  rewrite decode_continuation by lia.
  change (0 + 1 + 1 =? 3) with false. cbv iota.
  rewrite decode_continuation by lia.
  change (0 + 1 + 1 + 1 =? 3) with true. cbv iota. f_equal. lia.
Qed.

Lemma decode_scalars (cs : list N) :
  Forall scalar cs ->
  UTF8.decode_loop (flat_map UTF8.encode_scalar cs) UTF8.d_init = cs.
Proof.
  induction 1 as [|c cs Hc _ IH]; cbn [flat_map].
  - reflexivity.
  - rewrite decode_scalar by exact Hc. now rewrite IH.
Qed.

(** Induction on a string the way [UTF8.scalar_values] reads it. *)
Lemma units_ind (P : jsstring -> Prop) :
  P [] ->
  (forall u, P [u]) ->
  (forall u v rest, P rest -> P (v :: rest) -> P (u :: v :: rest)) ->
  forall s, P s.
Proof.
  intros H0 H1 H2.
  assert (H : forall s, P s /\ forall u, P (u :: s)).
  { induction s as [|v rest [IHa IHb]].
    - split; [exact H0 | exact H1].
    - split; [apply IHb|]. intros u. apply H2; [exact IHa | apply IHb]. }
  intros s. apply H.
Qed.

Lemma scalar_values_scalar (s : jsstring) :
  no_lone_surrogate s = true -> Forall scalar (UTF8.scalar_values s).
Proof.
  induction s as [| u | u v rest IH1 IH2] using units_ind; intros Hwf.
  - constructor.
  - cbn [UTF8.scalar_values no_lone_surrogate] in *.
    destruct (UTF8.is_high u) eqn:Hh; [discriminate|].
    destruct (UTF8.is_low u) eqn:Hl; [discriminate|].
    cbn [negb andb] in Hwf. rewrite andb_true_r in Hwf. apply N.ltb_lt in Hwf.
    constructor; [|constructor].
    unfold scalar, UTF8.is_high, UTF8.is_low in *. split; [lia|].
    destruct (N.leb_spec 55296 u), (N.leb_spec u 56319),
             (N.leb_spec 56320 u), (N.leb_spec u 57343);
      cbn in Hh, Hl; try discriminate; lia.
  - cbn [UTF8.scalar_values no_lone_surrogate] in *.
    destruct (UTF8.is_high u) eqn:Hh.
    + destruct (UTF8.is_low v) eqn:Hl; [|discriminate].
      cbn [andb] in Hwf. constructor; [|now apply IH1].
      unfold scalar, UTF8.is_high, UTF8.is_low in *.
      destruct (N.leb_spec 55296 u), (N.leb_spec u 56319),
               (N.leb_spec 56320 v), (N.leb_spec v 57343);
        cbn in Hh, Hl; try discriminate; lia.
    + destruct (UTF8.is_low u) eqn:Hl; [discriminate|].
      cbn [negb andb] in Hwf. apply andb_true_iff in Hwf. destruct Hwf as [Hu Hwf].
      apply N.ltb_lt in Hu.
      constructor; [|now apply IH2].
      unfold scalar, UTF8.is_high, UTF8.is_low in *. split; [lia|].
      destruct (N.leb_spec 55296 u), (N.leb_spec u 56319),
               (N.leb_spec 56320 u), (N.leb_spec u 57343);
        cbn in Hh, Hl; try discriminate; lia.
Qed.

Lemma utf16_of_scalar_values (s : jsstring) :
  no_lone_surrogate s = true -> flat_map UTF8.utf16_of (UTF8.scalar_values s) = s.
Proof.
  induction s as [| u | u v rest IH1 IH2] using units_ind; intros Hwf.
  - reflexivity.
  - cbn [UTF8.scalar_values no_lone_surrogate] in *.
    destruct (UTF8.is_high u) eqn:Hh; [discriminate|].
    destruct (UTF8.is_low u) eqn:Hl; [discriminate|].
    cbn [negb andb] in Hwf. rewrite andb_true_r in Hwf.
    cbn [flat_map app]. unfold UTF8.utf16_of. now rewrite Hwf.
  - cbn [UTF8.scalar_values no_lone_surrogate] in *.
    destruct (UTF8.is_high u) eqn:Hh.
    + destruct (UTF8.is_low v) eqn:Hl; [|discriminate].
      cbn [andb] in Hwf. cbn [flat_map]. rewrite (IH1 Hwf).
      unfold UTF8.utf16_of, UTF8.is_high, UTF8.is_low in *.
      destruct (N.leb_spec 55296 u), (N.leb_spec u 56319),
               (N.leb_spec 56320 v), (N.leb_spec v 57343);
        cbn in Hh, Hl; try discriminate.
      destruct (N.ltb_spec (65536 + (u - 55296) * 1024 + (v - 56320)) 65536);
        [lia|].
      cbn [app]. f_equal; [lia|]. f_equal. lia.
    + destruct (UTF8.is_low u) eqn:Hl; [discriminate|].
      cbn [negb andb] in Hwf. apply andb_true_iff in Hwf. destruct Hwf as [Hu Hwf].
      cbn [flat_map]. rewrite (IH2 Hwf).
      unfold UTF8.utf16_of. now rewrite Hu.
Qed.

Lemma strip_bom_scalar_values (s : jsstring) :
  hd 0 s <> 65279 ->
  UTF8.strip_bom (UTF8.scalar_values s) = UTF8.scalar_values s.
Proof.
  intros H. destruct s as [|u rest]; [reflexivity|]. cbn [hd] in H.
  cbn [UTF8.scalar_values].
  unfold UTF8.strip_bom.
  destruct (UTF8.is_high u) eqn:Hh.
  - unfold UTF8.is_high in Hh.
    destruct rest as [|v rest']; [reflexivity|].
    destruct (UTF8.is_low v) eqn:Hl; [|reflexivity].
    unfold UTF8.is_low in Hl.
    destruct (N.leb_spec 55296 u), (N.leb_spec u 56319),
             (N.leb_spec 56320 v), (N.leb_spec v 57343);
      cbn in Hh, Hl; try discriminate.
    destruct (N.eq_dec (65536 + (u - 55296) * 1024 + (v - 56320)) 65279) as [E|E];
      [lia|].
    destruct (65536 + (u - 55296) * 1024 + (v - 56320)) as [|q]; [reflexivity|].
    repeat (destruct q as [q|q|]; try reflexivity); congruence.
  - destruct (UTF8.is_low u); [reflexivity|].
    destruct u as [|q]; [reflexivity|].
    repeat (destruct q as [q|q|]; try reflexivity); congruence.
Qed.

(** [TextDecoder] gives back from its UTF-8 encoding every string that has
    no lone surrogate and does not start with a byte order mark. *)
Lemma utf8_round_trip (s : jsstring) :
  no_lone_surrogate s = true -> hd 0 s <> 65279 ->
  UTF8.decode (UTF8.encode s) = s.
Proof.
  intros Hwf Hbom. unfold UTF8.decode, UTF8.encode.
  rewrite decode_scalars by now apply scalar_values_scalar.
  rewrite strip_bom_scalar_values by exact Hbom.
  now apply utf16_of_scalar_values.
Qed.

(** Strings without lone surrogates that differ have different encodings. *)
Lemma utf8_encode_inj (s t : jsstring) :
  no_lone_surrogate s = true -> no_lone_surrogate t = true ->
  UTF8.encode s = UTF8.encode t -> s = t.
Proof.
  intros Hs Ht E.
  rewrite <- (utf16_of_scalar_values s Hs), <- (utf16_of_scalar_values t Ht).
  f_equal.
  rewrite <- (decode_scalars (UTF8.scalar_values s)) by now apply scalar_values_scalar.
  rewrite <- (decode_scalars (UTF8.scalar_values t)) by now apply scalar_values_scalar.
  unfold UTF8.encode in E. now rewrite E.
Qed.

(** ** Base64 *)

(** Induction on a list three elements at a time. *)
Lemma list_ind3 {A : Type} (P : list A -> Prop) :
  P [] -> (forall a, P [a]) -> (forall a b, P [a; b]) ->
  (forall a b c l, P l -> P (a :: b :: c :: l)) ->
  forall l, P l.
Proof.
  intros H0 H1 H2 H3.
  fix IH 1. intros [|a [|b [|c l]]].
  - exact H0.
  - apply H1.
  - apply H2.
  - apply H3, IH.
Qed.

Lemma encode_split (bs : bytes) :
  Base64.encode bs = map Base64.char_of (sextets bs) ++ padding bs.
Proof.
  induction bs as [| a | a b | a b c l IH] using list_ind3; try reflexivity.
  cbn [Base64.encode sextets map app]. rewrite IH. unfold padding.
  replace (List.length (a :: b :: c :: l) mod 3)%nat with (List.length l mod 3)%nat.
  - reflexivity.
  - cbn [List.length]. lia.
Qed.

Lemma sextets_lt (bs : bytes) : Forall (fun v => v < 64) (sextets bs).
Proof.
  induction bs as [| a | a b | a b c l IH] using list_ind3;
    cbn [sextets]; repeat (apply Forall_cons); try apply Forall_nil;
    try assumption;
    try pose proof (to_N_lt a); try pose proof (to_N_lt b);
    try pose proof (to_N_lt c); lia.
Qed.

Lemma value_of_char_of (v : N) :
  v < 64 -> Base64.value_of (Base64.char_of v) = Some v.
Proof.
  intros H.
  pose proof (check_below 64
    (fun v => match Base64.value_of (Base64.char_of v) with
              | Some w => w =? v
              | None => false
              end) eq_refl v H) as E.
  cbv beta in E.
  destruct (Base64.value_of (Base64.char_of v)); [|discriminate].
  apply N.eqb_eq in E. now subst.
Qed.

Lemma char_of_not_pad (v : N) :
  v < 64 -> (Base64.char_of v =? Base64.pad_char) = false.
Proof.
  intros H.
  apply negb_true_iff.
  apply (check_below 64 (fun v => negb (Base64.char_of v =? Base64.pad_char))
           eq_refl v H).
Qed.

Lemma char_of_not_whitespace (v : N) :
  v < 64 -> Base64.is_ascii_whitespace (Base64.char_of v) = false.
Proof.
  intros H.
  apply negb_true_iff.
  apply (check_below 64
           (fun v => negb (Base64.is_ascii_whitespace (Base64.char_of v)))
           eq_refl v H).
Qed.

Lemma values_of_chars (vs : list N) :
  Forall (fun v => v < 64) vs ->
  Base64.values_of (map Base64.char_of vs) = Some vs.
Proof.
  induction 1 as [|v vs Hv _ IH]; cbn [map Base64.values_of].
  - reflexivity.
  - now rewrite value_of_char_of, IH.
Qed.

Lemma filter_chars (vs : list N) (n : nat) :
  Forall (fun v => v < 64) vs ->
  filter (fun c => negb (Base64.is_ascii_whitespace c))
         (map Base64.char_of vs ++ repeat Base64.pad_char n)
  = map Base64.char_of vs ++ repeat Base64.pad_char n.
Proof.
  induction 1 as [|v vs Hv _ IH]; cbn [map app filter].
  - induction n as [|n IHn]; cbn [repeat filter]; [reflexivity|].
    change (Base64.is_ascii_whitespace Base64.pad_char) with false.
    cbn [negb]. now rewrite IHn.
  - rewrite char_of_not_whitespace by assumption. cbn [negb]. now rewrite IH.
Qed.

Lemma sextets_length (bs : bytes) :
  List.length (sextets bs) =
  (4 * (List.length bs / 3)
   + match List.length bs mod 3 with 0 => 0 | 1 => 2 | _ => 3 end)%nat.
Proof.
  induction bs as [| a | a b | a b c l IH] using list_ind3; try reflexivity.
  cbn [sextets List.length]. rewrite IH.
  replace (S (S (S (List.length l))) / 3)%nat with (S (List.length l / 3))%nat by lia.
  replace (S (S (S (List.length l))) mod 3)%nat with (List.length l mod 3)%nat by lia.
  lia.
Qed.

(** Removing the padding of an encoding leaves its characters. *)
Lemma strip_padding_encoded (vs : list N) (n : nat) :
  Forall (fun v => v < 64) vs ->
  ((List.length vs + n) mod 4 = 0)%nat -> (n <= 2)%nat ->
  Base64.strip_padding (map Base64.char_of vs ++ repeat Base64.pad_char n)
  = map Base64.char_of vs.
Proof.
  intros Hvs Hlen Hn.
  assert (Hcs : Forall (fun c => (c =? Base64.pad_char) = false)
                       (rev (map Base64.char_of vs))).
  { apply Forall_rev, Forall_map.
    eapply Forall_impl; [|exact Hvs]. apply char_of_not_pad. }
  assert (Hrev : rev (rev (map Base64.char_of vs)) = map Base64.char_of vs)
    by apply rev_involutive.
  assert (Hl : List.length (rev (map Base64.char_of vs)) = List.length vs)
    by now rewrite length_rev, length_map.
  unfold Base64.strip_padding.
  rewrite length_app, length_map, repeat_length, Hlen. cbn [Nat.eqb].
  rewrite rev_app_distr, rev_repeat.
  destruct n as [|[|[|n]]]; [| | |lia]; cbn [repeat app].
  - rewrite app_nil_r.
    destruct (rev (map Base64.char_of vs)) as [|x [|y r]]; try reflexivity.
    inversion Hcs as [|? ? Hx _]; subst. now rewrite Hx.
  - destruct (rev (map Base64.char_of vs)) as [|y r].
    + cbn [List.length] in Hl. rewrite <- Hl in Hlen. discriminate.
    + inversion Hcs as [|? ? Hy _]; subst.
      rewrite N.eqb_refl, Hy. exact Hrev.
  - rewrite !N.eqb_refl. exact Hrev.
Qed.

Lemma decode_sextets (bs : bytes) :
  Base64.decode_values (sextets bs) = map Byte.to_N bs.
Proof.
  induction bs as [| a | a b | a b c l IH] using list_ind3.
  - reflexivity.
  - cbn [sextets Base64.decode_values map]. f_equal.
    pose proof (to_N_lt a). lia.
  - cbn [sextets Base64.decode_values map].
    pose proof (to_N_lt a). pose proof (to_N_lt b).
    f_equal; [|f_equal]; lia.
  - cbn [sextets Base64.decode_values map]. rewrite IH.
    pose proof (to_N_lt a). pose proof (to_N_lt b). pose proof (to_N_lt c).
    f_equal; [|f_equal; [|f_equal]]; lia.
Qed.

(** [atob] undoes [Buffer.toString('base64')]. *)
Lemma atob_encode (bs : bytes) :
  Base64.atob (Base64.encode bs) = Normal (map Byte.to_N bs).
Proof.
  pose proof (sextets_lt bs) as Hlt.
  pose proof (sextets_length bs) as Hlen.
  assert (Hpad : ((3 - List.length bs mod 3) mod 3 <= 2)%nat) by lia.
  assert (Hmod : ((List.length (sextets bs)
                   + (3 - List.length bs mod 3) mod 3) mod 4 = 0)%nat).
  { rewrite Hlen. destruct (List.length bs mod 3)%nat as [|[|[|k]]] eqn:E; lia. }
  unfold Base64.atob. rewrite encode_split. unfold padding.
  rewrite filter_chars by assumption.
  rewrite strip_padding_encoded by assumption.
  rewrite length_map.
  replace (List.length (sextets bs) mod 4 =? 1)%nat with false.
  - rewrite values_of_chars by assumption. now rewrite decode_sextets.
  - symmetry. apply Nat.eqb_neq. rewrite Hlen.
    destruct (List.length bs mod 3)%nat as [|[|[|k]]] eqn:E; lia.
Qed.

(** ** Hexadecimal *)

(** On a byte, [b.toString(16).padStart(2, '0')] is the two digits that
    Node's 'hex' encoding writes. *)
Lemma padStart_toString16 (b : byte) :
  Hex.padStart 2 48 (Hex.toString16 (Byte.to_N b))
  = [Hex.digit (Byte.to_N b / 16); Hex.digit (Byte.to_N b mod 16)].
Proof. destruct b; reflexivity. Qed.

Lemma browser_hex_is_node_hex (bs : bytes) :
  List.concat (map (fun b => Hex.padStart 2 48 (Hex.toString16 (Byte.to_N b))) bs)
  = Hex.encode bs.
Proof.
  unfold Hex.encode. rewrite flat_map_concat_map. f_equal.
  apply map_ext. intros b. apply padStart_toString16.
Qed.

Lemma hex_digits_of_byte (b : byte) :
  byte_of_N (hex_value (Hex.digit (Byte.to_N b / 16)) * 16
             + hex_value (Hex.digit (Byte.to_N b mod 16))) = b.
Proof. destruct b; reflexivity. Qed.

Lemma hex_encode_inj (xs ys : bytes) :
  Hex.encode xs = Hex.encode ys -> xs = ys.
Proof.
  revert ys. induction xs as [|x xs IH]; intros [|y ys] H;
    try reflexivity; try discriminate.
  unfold Hex.encode in H. cbn [flat_map app] in H.
  injection H as H1 H2 H3.
  f_equal.
  - rewrite <- (hex_digits_of_byte x), <- (hex_digits_of_byte y).
    now rewrite H1, H2.
  - now apply IH.
Qed.

(** ** Output lengths of the hash layer *)

Lemma digest_length (msg : bytes) : List.length (SHA256.digest msg) = 32%nat.
Proof.
  unfold SHA256.digest. cbv zeta. cbn [flat_map].
  rewrite !length_app, !be_bytes_length. reflexivity.
Qed.

Lemma hmac_length (key msg : bytes) :
  List.length (HMAC.hmac_sha256 key msg) = 32%nat.
Proof. unfold HMAC.hmac_sha256. cbv zeta. apply digest_length. Qed.

Lemma F_length (prf : bytes -> bytes -> bytes) (n : nat) (p s : bytes) (c i : N) :
  (forall k m, List.length (prf k m) = n) ->
  List.length (PBKDF2.F prf p s c i) = n.
Proof.
  intros Hprf. unfold PBKDF2.F. cbv zeta.
  set (step := fun tu : bytes * bytes => _).
  assert (H : forall tu, List.length (fst tu) = n /\ List.length (snd tu) = n ->
                         List.length (fst (step tu)) = n /\ List.length (snd (step tu)) = n).
  { intros [t u] [Ht Hu]. unfold step. cbn [fst snd] in *. split.
    - rewrite xor_bytes_length; rewrite ?Hprf; lia.
    - apply Hprf. }
  apply (N.iter_invariant (c - 1) _ step
           (fun tu => List.length (fst tu) = n /\ List.length (snd tu) = n)).
  - intros tu. apply H.
  - cbn [fst snd]. split; apply Hprf.
Qed.

(** The iteration is never unfolded below: the count of the two programs is
    100000. *)
Opaque PBKDF2.F.

Lemma pbkdf2_32_length (p s : bytes) (c : N) :
  List.length (PBKDF2.hmac_sha256 p s c 32) = 32%nat.
Proof.
  unfold PBKDF2.hmac_sha256, PBKDF2.derive.
  change ((32 + 32 - 1) / 32)%nat with 1%nat.
  cbn [seq flat_map]. rewrite app_nil_r.
  rewrite firstn_all2.
  - apply F_length, hmac_length.
  - rewrite (F_length _ 32); [lia | apply hmac_length].
Qed.

(** ** Counter mode and the tag *)

Lemma keystream_length (key : bytes) (n : nat) (cb : N) :
  List.length (GCM.keystream key n cb) = (16 * n)%nat.
Proof.
  revert cb. induction n as [|n IH]; intros cb; cbn [GCM.keystream].
  - reflexivity.
  - rewrite length_app, be_bytes_length, IH. lia.
Qed.

Lemma gctr_length (key : bytes) (icb : N) (x : bytes) :
  List.length (GCM.gctr key icb x) = List.length x.
Proof.
  unfold GCM.gctr. apply xor_bytes_length.
  rewrite keystream_length. unfold GCM.nblocks. lia.
Qed.

Lemma gctr_involutive (key : bytes) (icb : N) (x : bytes) :
  GCM.gctr key icb (GCM.gctr key icb x) = x.
Proof.
  unfold GCM.gctr at 1. unfold GCM.nblocks. rewrite gctr_length.
  unfold GCM.gctr. apply xor_bytes_involutive.
  rewrite keystream_length. unfold GCM.nblocks. lia.
Qed.

Lemma crypt_involutive (key iv x : bytes) :
  GCM.crypt key iv (GCM.crypt key iv x) = x.
Proof. apply gctr_involutive. Qed.

Lemma crypt_length (key iv x : bytes) :
  List.length (GCM.crypt key iv x) = List.length x.
Proof. apply gctr_length. Qed.

Lemma tag_length (key iv c : bytes) : List.length (GCM.tag key iv c) = 16%nat.
Proof.
  unfold GCM.tag. cbv zeta. rewrite gctr_length. apply be_bytes_length.
Qed.

(** ** What the calls of build.js evaluate to *)

Lemma build_key_eq (code : jsstring) (salt : bytes) :
  Build.key code salt
  = Normal (PBKDF2.hmac_sha256 (UTF8.encode code) salt 100000 32).
Proof. reflexivity. Qed.

Lemma encrypted_and_tag_eq (k iv : bytes) (message : jsstring) :
  List.length k = 32%nat -> iv <> [] ->
  Build.encrypted_and_tag k iv message
  = Normal (GCM.crypt k iv (UTF8.encode message),
            GCM.tag k iv (GCM.crypt k iv (UTF8.encode message))).
Proof.
  intros Hk Hiv.
  unfold Build.encrypted_and_tag, Node.createCipheriv.
  change (String.eqb "aes-256-gcm" "aes-256-gcm") with true.
  rewrite Hk. cbn [negb Nat.eqb].
  destruct iv as [|b iv]; [congruence|].
  cbn [List.length Nat.eqb cbind].
  unfold Node.update, Node.final, Node.getAuthTag.
  cbn [Node.c_fed Node.c_key Node.c_iv app List.length skipn].
  now rewrite app_nil_r.
Qed.

Lemma encryptedWithTag_eq (k iv : bytes) (message : jsstring) :
  List.length k = 32%nat -> iv <> [] ->
  Build.encryptedWithTag k iv message
  = Normal (GCM.crypt k iv (UTF8.encode message)
            ++ GCM.tag k iv (GCM.crypt k iv (UTF8.encode message))).
Proof.
  intros Hk Hiv. unfold Build.encryptedWithTag.
  now rewrite encrypted_and_tag_eq.
Qed.

Lemma prepare_eq (code message : jsstring) (salt iv : bytes) :
  iv <> [] ->
  Build.prepare code message salt iv
  = Normal (Build.Artifacts
              (Hex.encode (SHA256.digest (UTF8.encode code)))
              (N.of_nat (List.length code))
              (Base64.encode salt) (Base64.encode iv)
              (Base64.encode (sealed code message salt iv))).
Proof.
  intros Hiv. unfold Build.prepare, Node.createHash_update_digest_hex.
  change (String.eqb "sha256" "sha256") with true. cbn [cbind].
  rewrite build_key_eq. cbn [cbind].
  rewrite encryptedWithTag_eq; [reflexivity | apply pbkdf2_32_length | exact Hiv].
Qed.

(** ** What the helpers of script.js evaluate to *)

Lemma record_extend (e : event) (p : page) : record e p = extend [e] p.
Proof. reflexivity. Qed.

Lemma extend_extend (l1 l2 : list event) (p : page) :
  extend l2 (extend l1 p) = extend (l1 ++ l2) p.
Proof. unfold extend. cbn. now rewrite app_assoc. Qed.

Lemma extend_nil (p : page) : extend [] p = p.
Proof. destruct p. unfold extend. cbn. now rewrite app_nil_r. Qed.

Lemma sha256_eq (str : jsstring) (p : page) :
  sha256 str p
  = (Normal (Hex.encode (SHA256.digest (UTF8.encode str))),
     extend [SubtleDigest "SHA-256" (UTF8.encode str)] p).
Proof.
  unfold sha256, bind, update, lift, ret, WebCrypto.digest.
  change (String.eqb "SHA-256" "SHA-256") with true. cbv beta iota zeta.
  now rewrite browser_hex_is_node_hex.
Qed.

Lemma deriveKey_eq (password : jsstring) (salt : bytes) (p : page) :
  deriveKey password salt p
  = (Normal (derived_key password salt),
     extend [SubtleImportKey "PBKDF2" (UTF8.encode password);
             SubtleDeriveKey (pbkdf2_params salt)] p).
Proof.
  unfold deriveKey, bind, update, lift. cbv zeta.
  rewrite !record_extend, extend_extend. reflexivity.
Qed.

Lemma base64ToBytes_encode (bs : bytes) (p : page) :
  base64ToBytes (Base64.encode bs) p = (Normal bs, p).
Proof.
  unfold base64ToBytes, bind, lift, ret. rewrite atob_encode.
  rewrite map_map. f_equal. f_equal.
  rewrite <- (map_id bs) at 2. apply map_ext. apply byte_of_N_to_N.
Qed.

(** The decrypt side reads the last sixteen bytes of its input as the tag. *)
Lemma decrypt_appended (iv c t : bytes) (key : WebCrypto.CryptoKey) (len : N) :
  WebCrypto.k_algorithm key = WebCrypto.KeyAesGcm len ->
  WebCrypto.has_usage "decrypt" (WebCrypto.k_usages key) = true ->
  List.length t = 16%nat ->
  WebCrypto.decrypt {| WebCrypto.g_name := "AES-GCM"; WebCrypto.g_iv := iv |}
                    key (c ++ t)
  = if bytes_eqb (GCM.tag (WebCrypto.k_raw key) iv c) t
    then Normal (GCM.crypt (WebCrypto.k_raw key) iv c)
    else Throw OperationError.
Proof.
  intros Halg Huse Ht. unfold WebCrypto.decrypt.
  cbn [WebCrypto.g_name WebCrypto.g_iv].
  change (String.eqb "AES-GCM" "AES-GCM") with true. cbn [negb].
  rewrite Halg, Huse. cbn [negb].
  unfold WebCrypto.tag_bytes. rewrite length_app, Ht.
  replace (List.length c + 16 <? 16)%nat with false
    by (symmetry; apply Nat.ltb_ge; lia).
  replace (List.length c + 16 - 16)%nat with (List.length c) by lia.
  rewrite firstn_app, Nat.sub_diag, firstn_all, firstn_O, app_nil_r.
  rewrite skipn_app, Nat.sub_diag, skipn_all, skipn_O.
  reflexivity.
Qed.

(** [decrypt_attempt] on constants that are the Base64 encodings of a salt,
    an IV and some data: the outcome is that of [crypto.subtle.decrypt]. *)
Lemma decrypt_attempt_encoded (h : jsstring) (n : N) (salt iv data : bytes)
    (candidate : jsstring) (p : page) :
  decrypt_attempt
    (Constants h n (Base64.encode salt) (Base64.encode iv) (Base64.encode data))
    candidate p
  = (match WebCrypto.decrypt (aes_gcm iv) (derived_key candidate salt) data with
     | Normal d => Normal (Some (UTF8.decode d))
     | Throw e => Throw e
     end,
     extend [SubtleImportKey "PBKDF2" (UTF8.encode candidate);
             SubtleDeriveKey (pbkdf2_params salt);
             SubtleDecrypt iv data] p).
Proof.
  unfold decrypt_attempt.
  cbn [SALT IV ENCRYPTED_MESSAGE].
  unfold bind at 1. rewrite base64ToBytes_encode.
  unfold bind at 1. rewrite base64ToBytes_encode.
  unfold bind at 1. rewrite base64ToBytes_encode.
  unfold bind at 1. rewrite deriveKey_eq.
  unfold bind, update, lift, ret.
  rewrite record_extend, extend_extend. cbn [app].
  fold (aes_gcm iv).
  destruct (WebCrypto.decrypt _ _ _); reflexivity.
Qed.

Section Prepared.

Variables (code message : jsstring) (salt iv : bytes).

(** The decrypt side opens what build.js sealed. *)
Lemma decrypt_sealed (candidate : jsstring) :
UTF8.encode candidate = UTF8.encode code ->
WebCrypto.decrypt (aes_gcm iv) (derived_key candidate salt)
                  (sealed code message salt iv)
= Normal (UTF8.encode message).
Proof.
intros Henc. unfold sealed, aes_gcm. cbv zeta.
rewrite (decrypt_appended _ _ _ _ 256);
  [| reflexivity | reflexivity | apply tag_length].
unfold derived_key. cbn [WebCrypto.k_raw]. rewrite Henc.
replace (bytes_eqb _ _) with true by (symmetry; now apply bytes_eqb_true).
now rewrite crypt_involutive.
Qed.

(** A candidate whose UTF-8 encoding is that of [code] derives the key the
  message was encrypted with. *)
Lemma decrypt_attempt_prepared (candidate : jsstring) (p : page) :
UTF8.encode candidate = UTF8.encode code ->
decrypt_attempt (prepared code message salt iv) candidate p
= (Normal (Some (UTF8.decode (UTF8.encode message))),
   extend (decrypt_events code message salt iv) p).
Proof.
intros Henc. unfold prepared. rewrite decrypt_attempt_encoded.
rewrite decrypt_sealed by exact Henc.
unfold decrypt_events. now rewrite Henc.
Qed.

Lemma decryptMessage_prepared (candidate : jsstring) (p : page) :
UTF8.encode candidate = UTF8.encode code ->
decryptMessage (prepared code message salt iv) candidate p
= (Normal (Some (UTF8.decode (UTF8.encode message))),
   extend (decrypt_events code message salt iv) p).
Proof.
intros Henc.
unfold decryptMessage, try_catch. now rewrite decrypt_attempt_prepared.
Qed.

End Prepared.

(** ** Computations that only add to the trace *)

Lemma pure_ret {A : Type} (a : A) : pure (ret a).
Proof. exists (Normal a), []. intros p. unfold ret. now rewrite extend_nil. Qed.

Lemma pure_lift {A : Type} (c : completion A) : pure (lift c).
Proof. exists c, []. intros p. unfold lift. now rewrite extend_nil. Qed.

Lemma pure_record (e : event) : pure (update (record e)).
Proof. exists (Normal tt), [e]. intros p. reflexivity. Qed.

Lemma pure_bind {A B : Type} (m : M A) (k : A -> M B) :
  pure m -> (forall a, pure (k a)) -> pure (bind m k).
Proof.
  intros (r & evs & Hm) Hk. destruct r as [a|e].
  - destruct (Hk a) as (r' & evs' & Hka).
    exists r', (evs ++ evs'). intros p.
    unfold bind. now rewrite Hm, Hka, extend_extend.
  - exists (Throw e), evs. intros p. unfold bind. now rewrite Hm.
Qed.

Lemma pure_base64ToBytes (b64 : jsstring) : pure (base64ToBytes b64).
Proof.
  unfold base64ToBytes. apply pure_bind; [apply pure_lift|].
  intros a. apply pure_ret.
Qed.

Lemma pure_deriveKey (password : jsstring) (salt : bytes) :
  pure (deriveKey password salt).
Proof. eexists _, _. intros p. apply deriveKey_eq. Qed.

Lemma pure_decrypt_attempt (C : constants) (code : jsstring) :
  pure (decrypt_attempt C code).
Proof.
  unfold decrypt_attempt.
  repeat first
    [ apply pure_ret | apply pure_lift | apply pure_record
    | apply pure_base64ToBytes | apply pure_deriveKey
    | apply pure_bind; [|intros ?] ].
Qed.

(** [decryptMessage] returns on every input, with the plaintext or [null]. *)
Lemma decryptMessage_returns (C : constants) (code : jsstring) :
  exists (m : option jsstring) (evs : list event),
    forall p, decryptMessage C code p = (Normal m, extend evs p).
Proof.
  destruct (pure_decrypt_attempt C code) as (r & evs & H).
  destruct r as [m|e].
  - exists m, evs. intros p. unfold decryptMessage, try_catch. now rewrite H.
  - exists None, evs. intros p. unfold decryptMessage, try_catch. now rewrite H.
Qed.

(** ** The segments of [verify] *)

Section Segments.

Variable C : constants.

Lemma verify_call_busy (p : page) :
  isVerifying p = true -> verify_call C p = (Normal None, p).
Proof.
  intros H. cbv beta iota delta [verify_call bind read getCode]. now rewrite H.
Qed.

Lemma verify_call_wrong_length (p : page) :
  N.of_nat (List.length (List.concat (boxes p))) <> CODE_LENGTH C ->
  verify_call C p = (Normal None, p).
Proof.
  intros H. cbv beta iota delta [verify_call bind read getCode].
  destruct (isVerifying p); [reflexivity|].
  apply N.eqb_neq in H. now rewrite H.
Qed.

Lemma verify_call_starts (p : page) :
  isVerifying p = false ->
  N.of_nat (List.length (List.concat (boxes p))) = CODE_LENGTH C ->
  verify_call C p
  = (Normal (Some (AwaitDelay (List.concat (boxes p)))), started p).
Proof.
  intros Hidle Hlen. cbv beta iota delta [verify_call bind read getCode].
  rewrite Hidle. apply N.eqb_eq in Hlen. rewrite Hlen. reflexivity.
Qed.

Lemma resume_delay (code : jsstring) (p : page) :
  resume C (AwaitDelay code) p = (Normal (Some (AwaitSha256 code)), p).
Proof. reflexivity. Qed.

Lemma resume_sha256 (code : jsstring) (p : page) :
  resume C (AwaitSha256 code) p
  = if strict_eq (Hex.encode (SHA256.digest (UTF8.encode code))) (CODE_HASH C)
    then (Normal (Some (AwaitDecryptMessage code)), hashed code p)
    else (Normal None, rejected "INVALID SIGNAL" (hashed code p)).
Proof.
  cbn [resume]. unfold bind at 1. rewrite sha256_eq.
  destruct (strict_eq _ _); reflexivity.
Qed.

Lemma resume_decryptMessage (code : jsstring) (p p' : page)
    (m : option jsstring) :
  decryptMessage C code p = (Normal m, p') ->
  resume C (AwaitDecryptMessage code) p
  = (Normal None,
     match m with
     | Some (c :: m') => set_revealed (c :: m') p'
     | _ => rejected "DECRYPTION FAILURE" p'
     end).
Proof.
  intros H. cbn [resume]. unfold bind at 1. rewrite H.
  destruct m as [[|c m']|]; reflexivity.
Qed.

(** A call of [verify()] on a page where no call is in flight and the boxes
    hold a code of the right length. *)
Lemma verify_attempt (p p' : page) (m : option jsstring) :
  isVerifying p = false ->
  N.of_nat (List.length (List.concat (boxes p))) = CODE_LENGTH C ->
  let code := List.concat (boxes p) in
  decryptMessage C code (hashed code (started p)) = (Normal m, p') ->
  verify C p
  = (Normal tt,
     if strict_eq (Hex.encode (SHA256.digest (UTF8.encode code))) (CODE_HASH C)
     then match m with
          | Some (c :: m') => set_revealed (c :: m') p'
          | _ => rejected "DECRYPTION FAILURE" p'
          end
     else rejected "INVALID SIGNAL" (hashed code (started p))).
Proof.
  intros Hidle Hlen code Hdec.
  unfold verify. unfold bind at 1. rewrite verify_call_starts by assumption.
  fold code. cbn [drive].
  unfold bind at 1. rewrite resume_delay.
  unfold bind at 1. rewrite resume_sha256.
  destruct (strict_eq _ _).
  - unfold bind at 1. rewrite (resume_decryptMessage _ _ _ _ Hdec).
    reflexivity.
  - reflexivity.
Qed.

Lemma verify_no_attempt (p : page) :
  isVerifying p = true \/
  N.of_nat (List.length (List.concat (boxes p))) <> CODE_LENGTH C ->
  verify C p = (Normal tt, p).
Proof.
  intros H. unfold verify. unfold bind at 1.
  destruct H as [H|H].
  - now rewrite verify_call_busy.
  - now rewrite verify_call_wrong_length.
Qed.

End Segments.

(** ** build.js followed by script.js *)

Lemma iv_of_not_nil (i : Build.inputs) : iv_of i <> [].
Proof. discriminate. Qed.

Lemma falsy_false (s : jsstring) : s <> [] -> Build.falsy (Some s) = false.
Proof. destruct s; [congruence | reflexivity]. Qed.

(** With both secrets present, build.js derives the artifacts. *)
Lemma build_artifacts (i : Build.inputs) (code message : jsstring) :
  Build.SECRET_CODE (Build.env i) = Some code ->
  Build.SECRET_MESSAGE (Build.env i) = Some message ->
  code <> [] -> message <> [] ->
  exists a, snd (Build.build i) = Some a /\
            constants_of a = prepared code message (salt_of i) (iv_of i).
Proof.
  intros Hc Hm Hc0 Hm0.
  eexists. unfold Build.build. rewrite Hc, Hm.
  rewrite !falsy_false by assumption. cbn [orb].
  rewrite prepare_eq by apply iv_of_not_nil.
  cbn [snd]. split; reflexivity.
Qed.

Lemma constants_of_inj (a b : Build.artifacts) :
  constants_of a = constants_of b -> a = b.
Proof. destruct a, b. unfold constants_of. cbn. congruence. Qed.

Section Verify_prepared.

Variables (code message : jsstring) (salt iv : bytes).
(** What [verify] does with a candidate that encodes as the code does: it
    reveals what [TextDecoder] makes of the encoded message, unless that is
    the empty string. *)
Lemma verify_prepared (p : page) :
  isVerifying p = false ->
  List.length (List.concat (boxes p)) = List.length code ->
  UTF8.encode (List.concat (boxes p)) = UTF8.encode code ->
  verify (prepared code message salt iv) p
  = (Normal tt,
     let p' := extend (decrypt_events code message salt iv)
                 (hashed (List.concat (boxes p)) (started p)) in
     match UTF8.decode (UTF8.encode message) with
     | c :: m => set_revealed (c :: m) p'
     | [] => rejected "DECRYPTION FAILURE" p'
     end).
Proof.
  intros Hidle Hlen Henc.
  rewrite (verify_attempt (prepared code message salt iv) p
             (extend (decrypt_events code message salt iv)
                (hashed (List.concat (boxes p)) (started p)))
             (Some (UTF8.decode (UTF8.encode message))) Hidle).
  - rewrite Henc. cbn [CODE_HASH prepared].
    rewrite strict_eq_refl. cbv zeta.
    destruct (UTF8.decode (UTF8.encode message)); reflexivity.
  - cbn [CODE_LENGTH prepared]. now rewrite Hlen.
  - apply decryptMessage_prepared. exact Henc.
Qed.

(** What [verify] does with a candidate whose hash differs. *)
Lemma verify_prepared_mismatch (p : page) :
  isVerifying p = false ->
  List.length (List.concat (boxes p)) = List.length code ->
  SHA256.digest (UTF8.encode (List.concat (boxes p)))
    <> SHA256.digest (UTF8.encode code) ->
  verify (prepared code message salt iv) p
  = (Normal tt,
     rejected "INVALID SIGNAL" (hashed (List.concat (boxes p)) (started p))).
Proof.
  intros Hidle Hlen Hneq.
  destruct (decryptMessage_returns (prepared code message salt iv)
              (List.concat (boxes p))) as (m & evs & Hd).
  rewrite (verify_attempt (prepared code message salt iv) p
             (extend evs (hashed (List.concat (boxes p)) (started p))) m Hidle).
  - cbn [CODE_HASH prepared].
    replace (strict_eq _ _) with false; [reflexivity|].
    symmetry. apply strict_eq_false. intros E. apply Hneq.
    now apply hex_encode_inj.
  - cbn [CODE_LENGTH prepared]. now rewrite Hlen.
  - apply Hd.
Qed.

End Verify_prepared.

Lemma state_of_revealed (m : jsstring) (p : page) :
  state_of (set_revealed m p) = Accepted m.
Proof. reflexivity. Qed.

Lemma state_of_rejected_hash (p : page) :
  revealed p = None -> state_of (rejected "INVALID SIGNAL" p) = RejectedHash.
Proof. intros H. unfold state_of. cbn. now rewrite H. Qed.

Lemma state_of_rejected_decrypt (p : page) :
  revealed p = None ->
  state_of (rejected "DECRYPTION FAILURE" p) = RejectedDecrypt.
Proof. intros H. unfold state_of. cbn. now rewrite H. Qed.

(** ** A sample build and page, used to instantiate the theorems *)

Lemma concat_typed (code : jsstring) : List.concat (boxes (typed code)) = code.
Proof.
  unfold typed, initial. cbn [boxes].
  induction code as [|c code IH]; cbn [map List.concat app]; [reflexivity|].
  now rewrite IH.
Qed.

(** ** The round trip

    By [utf8_round_trip] the condition on the message below holds for every
    message without lone surrogates that does not start with U+FEFF. *)

(** C1, as amended.  For every non-empty code and every non-empty message
    that [TextDecoder] gives back unchanged from its UTF-8 encoding, running
    build.js and then [verify] with the same code typed in ends in
    [Accepted] with exactly that message. *)
Theorem roundtrip_accepts (i : Build.inputs) (code message : jsstring) (p : page) :
  Build.SECRET_CODE (Build.env i) = Some code ->
  Build.SECRET_MESSAGE (Build.env i) = Some message ->
  code <> [] -> message <> [] ->
  UTF8.decode (UTF8.encode message) = message ->
  isVerifying p = false ->
  List.concat (boxes p) = code ->
  exists a,
    snd (Build.build i) = Some a /\
    fst (verify (constants_of a) p) = Normal tt /\
    state_of (snd (verify (constants_of a) p)) = Accepted message.
Proof.
  intros Hc Hm Hc0 Hm0 Hround Hidle Hboxes.
  destruct (build_artifacts i code message Hc Hm Hc0 Hm0) as (a & Ha & HC).
  exists a. split; [exact Ha|]. rewrite HC.
  rewrite verify_prepared;
    [| exact Hidle | now rewrite Hboxes | now rewrite Hboxes].
  cbv zeta. rewrite Hround.
  destruct message as [|c m]; [congruence|].
  split; reflexivity.
Qed.

Lemma roundtrip_accepts_witness :
  exists a,
    snd (Build.build (sample_inputs (js "ABC123") treasure)) = Some a /\
    fst (verify (constants_of a) (typed (js "ABC123"))) = Normal tt /\
    state_of (snd (verify (constants_of a) (typed (js "ABC123"))))
    = Accepted treasure.
Proof.
  apply (roundtrip_accepts (sample_inputs (js "ABC123") treasure)
           (js "ABC123") treasure (typed (js "ABC123")));
    try reflexivity; discriminate.
Defined.

(** C1 as stated fails: a message that starts with U+FEFF is accepted
    without that character, because [new TextDecoder()] drops a leading
    byte order mark. *)
Lemma roundtrip_drops_byte_order_mark :
  exists a,
    snd (Build.build (sample_inputs (js "ABC123") marked_message)) = Some a /\
    state_of (snd (verify (constants_of a) (typed (js "ABC123"))))
    = Accepted (js "HI") /\
    Accepted (js "HI") <> Accepted marked_message.
Proof.
  destruct (build_artifacts (sample_inputs (js "ABC123") marked_message)
              (js "ABC123") marked_message eq_refl eq_refl)
    as (a & Ha & HC); [discriminate | discriminate |].
  exists a. split; [exact Ha|]. rewrite HC. split; [|discriminate].
  rewrite verify_prepared;
    [| reflexivity | reflexivity | reflexivity].
  cbv zeta.
  change (UTF8.decode (UTF8.encode marked_message)) with (js "HI").
  reflexivity.
Qed.

(** ** The contract shared by the two programs *)

(** C2.  For every code and salt, [pbkdf2Sync] in build.js and [deriveKey] in
    script.js compute the same key; build.js outputs the ciphertext followed
    by the sixteen bytes of the tag; and [crypto.subtle.decrypt] reads its
    input as just that, so that it returns the encoded message. *)
Theorem key_and_layout_agree
    (code message : jsstring) (salt iv : bytes) (p : page) :
  iv <> [] ->
  exists (k : bytes) (ck : WebCrypto.CryptoKey) (encrypted authTag : bytes),
    Build.key code salt = Normal k /\
    fst (deriveKey code salt p) = Normal ck /\
    WebCrypto.k_raw ck = k /\
    Build.encrypted_and_tag k iv message = Normal (encrypted, authTag) /\
    Build.encryptedWithTag k iv message = Normal (encrypted ++ authTag) /\
    List.length authTag = 16%nat /\
    (forall c t, List.length t = 16%nat ->
       WebCrypto.decrypt (aes_gcm iv) ck (c ++ t)
       = if bytes_eqb (GCM.tag k iv c) t
         then Normal (GCM.crypt k iv c) else Throw OperationError) /\
    WebCrypto.decrypt (aes_gcm iv) ck (encrypted ++ authTag)
    = Normal (UTF8.encode message).
Proof.
  intros Hiv.
  exists (PBKDF2.hmac_sha256 (UTF8.encode code) salt 100000 32),
         (derived_key code salt),
         (GCM.crypt (PBKDF2.hmac_sha256 (UTF8.encode code) salt 100000 32) iv
                    (UTF8.encode message)),
         (GCM.tag (PBKDF2.hmac_sha256 (UTF8.encode code) salt 100000 32) iv
            (GCM.crypt (PBKDF2.hmac_sha256 (UTF8.encode code) salt 100000 32) iv
                       (UTF8.encode message))).
  split; [apply build_key_eq|].
  split; [now rewrite deriveKey_eq|].
  split; [reflexivity|].
  split; [apply encrypted_and_tag_eq; [apply pbkdf2_32_length | exact Hiv]|].
  split; [apply encryptedWithTag_eq; [apply pbkdf2_32_length | exact Hiv]|].
  split; [apply tag_length|].
  split.
  - intros c t Ht. unfold aes_gcm.
    rewrite (decrypt_appended iv c t (derived_key code salt) 256);
      [reflexivity | reflexivity | reflexivity | exact Ht].
  - now apply (decrypt_sealed code message salt iv code).
Qed.

Lemma key_and_layout_agree_witness :
  exists (k : bytes) (ck : WebCrypto.CryptoKey) (encrypted authTag : bytes),
    Build.key (js "ABC123") sample_salt = Normal k /\
    fst (deriveKey (js "ABC123") sample_salt (typed (js "ABC123"))) = Normal ck /\
    WebCrypto.k_raw ck = k /\
    Build.encrypted_and_tag k sample_iv treasure = Normal (encrypted, authTag) /\
    Build.encryptedWithTag k sample_iv treasure = Normal (encrypted ++ authTag) /\
    List.length authTag = 16%nat /\
    (forall c t, List.length t = 16%nat ->
       WebCrypto.decrypt (aes_gcm sample_iv) ck (c ++ t)
       = if bytes_eqb (GCM.tag k sample_iv c) t
         then Normal (GCM.crypt k sample_iv c) else Throw OperationError) /\
    WebCrypto.decrypt (aes_gcm sample_iv) ck (encrypted ++ authTag)
    = Normal (UTF8.encode treasure).
Proof.
  apply (key_and_layout_agree (js "ABC123") treasure sample_salt sample_iv
           (typed (js "ABC123"))).
  discriminate.
Defined.

(** ** A wrong code of the right length

    By [utf8_encode_inj] the encodings of two codes that differ are
    different as soon as neither has a lone surrogate. *)

(** C3, as amended.  A candidate of the code's length whose UTF-8 encoding
    differs from that of the code is rejected at the hash check, unless the
    two encodings are a SHA-256 collision: [verify] ends in [RejectedHash],
    nothing is revealed and no decryption is attempted. *)
Theorem wrong_code_rejected_by_hash
    (i : Build.inputs) (code message candidate : jsstring) (p : page) :
  Build.SECRET_CODE (Build.env i) = Some code ->
  Build.SECRET_MESSAGE (Build.env i) = Some message ->
  code <> [] -> message <> [] ->
  isVerifying p = false -> revealed p = None ->
  List.concat (boxes p) = candidate ->
  List.length candidate = List.length code ->
  UTF8.encode candidate <> UTF8.encode code ->
  ~ sha256_collision (UTF8.encode candidate) (UTF8.encode code) ->
  exists a,
    snd (Build.build i) = Some a /\
    state_of (snd (verify (constants_of a) p)) = RejectedHash /\
    revealed (snd (verify (constants_of a) p)) = None /\
    trace (snd (verify (constants_of a) p))
    = trace p ++ [SetTimeout 800; SubtleDigest "SHA-256" (UTF8.encode candidate)].
Proof.
  intros Hc Hm Hc0 Hm0 Hidle Hrev Hboxes Hlen Henc Hcol.
  destruct (build_artifacts i code message Hc Hm Hc0 Hm0) as (a & Ha & HC).
  exists a. split; [exact Ha|]. rewrite HC.
  rewrite verify_prepared_mismatch;
    [| exact Hidle | now rewrite Hboxes | rewrite Hboxes ].
  - cbn [snd]. rewrite Hboxes. repeat split.
    + apply state_of_rejected_hash. exact Hrev.
    + exact Hrev.
    + cbn. now rewrite <- app_assoc.
  - intros E. apply Hcol. split; assumption.
Qed.

(** The case of the specification: the code is "ABC123", the candidate
    "abc123". *)
Lemma wrong_code_rejected_by_hash_witness :
  exists a,
    snd (Build.build (sample_inputs (js "ABC123") treasure)) = Some a /\
    state_of (snd (verify (constants_of a) (typed (js "abc123")))) = RejectedHash /\
    revealed (snd (verify (constants_of a) (typed (js "abc123")))) = None /\
    trace (snd (verify (constants_of a) (typed (js "abc123"))))
    = trace (typed (js "abc123"))
      ++ [SetTimeout 800; SubtleDigest "SHA-256" (UTF8.encode (js "abc123"))].
Proof.
  apply (wrong_code_rejected_by_hash (sample_inputs (js "ABC123") treasure)
           (js "ABC123") treasure (js "abc123") (typed (js "abc123"))
           eq_refl eq_refl).
  - discriminate.
  - discriminate.
  - reflexivity.
  - reflexivity.
  - reflexivity.
  - reflexivity.
  - intros E. vm_compute in E. discriminate E.
  - intros [_ E]. vm_compute in E. discriminate E.
Defined.

(** C3 as stated fails: the code U+FFFD and the candidate that is the lone
    surrogate U+D800 differ and have the same length, and no SHA-256
    collision is involved, since [TextEncoder] encodes both as EF BF BD; the
    candidate is accepted. *)
Lemma lone_surrogate_is_accepted :
  [55296] <> [65533] /\
  List.length [55296] = List.length [65533] /\
  ~ sha256_collision (UTF8.encode [55296]) (UTF8.encode [65533]) /\
  exists a,
    snd (Build.build (sample_inputs [65533] treasure)) = Some a /\
    state_of (snd (verify (constants_of a) (typed [55296]))) = Accepted treasure.
Proof.
  split; [discriminate|]. split; [reflexivity|]. split.
  - intros [H _]. apply H. reflexivity.
  - destruct (build_artifacts (sample_inputs [65533] treasure) [65533] treasure
                eq_refl eq_refl) as (a & Ha & HC); [discriminate | discriminate |].
    exists a. split; [exact Ha|]. rewrite HC.
    rewrite verify_prepared; [| reflexivity | reflexivity | reflexivity].
    cbv zeta.
    change (UTF8.decode (UTF8.encode treasure)) with treasure.
    reflexivity.
Qed.

(** ** Flipping one bit *)

Lemma check_bytes (f : byte -> bool) :
  forallb f (map byte_of_N (map N.of_nat (seq 0 256))) = true ->
  forall b, f b = true.
Proof.
  intros H b. rewrite forallb_forall in H. apply H.
  apply in_map_iff. exists (Byte.to_N b). split; [apply byte_of_N_to_N|].
  apply in_map_iff. exists (N.to_nat (Byte.to_N b)). split.
  - apply N2Nat.id.
  - apply in_seq. pose proof (to_N_lt b). lia.
Qed.

Lemma flip_changes (b : byte) (i : nat) : (i < 8)%nat -> flip b i <> b.
Proof.
  intros Hi E.
  pose proof (check_bytes
    (fun b => forallb (fun i => negb (Byte.eqb (flip b i) b)) (seq 0 8))
    eq_refl b) as H.
  cbv beta in H. rewrite forallb_forall in H.
  specialize (H i). rewrite E in H.
  assert (Hin : In i (seq 0 8)) by (apply in_seq; lia).
  apply H in Hin. apply negb_true_iff in Hin.
  assert (Byte.eqb b b = true) by (apply Byte.byte_dec_lb; reflexivity).
  congruence.
Qed.

Lemma flip_bit_changes (i : nat) (bs : bytes) :
  (i < 8 * List.length bs)%nat -> flip_bit i bs <> bs.
Proof.
  revert i. induction bs as [|b rest IH]; intros i Hi; cbn [List.length] in Hi.
  - lia.
  - cbn [flip_bit]. destruct (i <? 8)%nat eqn:E.
    + apply Nat.ltb_lt in E. intros H. injection H as H.
      now apply (flip_changes b i).
    + apply Nat.ltb_ge in E. intros H. injection H as H.
      apply (IH (i - 8)%nat); [lia | exact H].
Qed.

Lemma flip_bit_length (i : nat) (bs : bytes) :
  List.length (flip_bit i bs) = List.length bs.
Proof.
  revert i. induction bs as [|b rest IH]; intros i; cbn [flip_bit].
  - reflexivity.
  - destruct (i <? 8)%nat; cbn [List.length]; now rewrite ?IH.
Qed.



(** ** Big-endian numbers *)

Lemma be_N_app (l : bytes) (b : byte) :
  be_N (l ++ [b]) = be_N l * 256 + Byte.to_N b.
Proof. unfold be_N. now rewrite fold_left_app. Qed.

Lemma be_N_lt (l : bytes) : be_N l < 256 ^ N.of_nat (List.length l).
Proof.
  induction l as [|b l IH] using rev_ind.
  - cbn. lia.
  - rewrite be_N_app, length_app. cbn [List.length].
    replace (N.of_nat (List.length l + 1)) with (N.succ (N.of_nat (List.length l)))
      by lia.
    rewrite N.pow_succ_r'. pose proof (to_N_lt b). lia.
Qed.

Lemma be_bytes_be_N (l : bytes) : be_bytes (List.length l) (be_N l) = l.
Proof.
  induction l as [|b l IH] using rev_ind.
  - reflexivity.
  - rewrite be_N_app, length_app. cbn [List.length].
    rewrite Nat.add_1_r. cbn [be_bytes].
    pose proof (to_N_lt b).
    replace ((be_N l * 256 + Byte.to_N b) / 256) with (be_N l) by lia.
    rewrite IH. f_equal. f_equal.
    apply to_N_inj. rewrite to_N_byte_of_N. lia.
Qed.

Lemma be_N_inj (l1 l2 : bytes) :
  List.length l1 = List.length l2 -> be_N l1 = be_N l2 -> l1 = l2.
Proof.
  intros Hlen H. rewrite <- (be_bytes_be_N l1), <- (be_bytes_be_N l2).
  now rewrite Hlen, H.
Qed.

Lemma be_N_be_bytes (n : nat) (x : N) :
  x < 256 ^ N.of_nat n -> be_N (be_bytes n x) = x.
Proof.
  revert x. induction n as [|n IH]; intros x Hx.
  - cbn in *. lia.
  - cbn [be_bytes]. rewrite be_N_app, to_N_byte_of_N.
    replace (N.of_nat (S n)) with (N.succ (N.of_nat n)) in Hx by lia.
    rewrite N.pow_succ_r' in Hx.
    rewrite IH; [lia|].
    apply N.Div0.div_lt_upper_bound. lia.
Qed.

Lemma be_bytes_inj (n : nat) (x y : N) :
  x < 256 ^ N.of_nat n -> y < 256 ^ N.of_nat n ->
  be_bytes n x = be_bytes n y -> x = y.
Proof.
  intros Hx Hy H. rewrite <- (be_N_be_bytes n x Hx), <- (be_N_be_bytes n y Hy).
  now rewrite H.
Qed.

Lemma xor_bytes_cancel (a b ks : bytes) :
  (List.length a <= List.length ks)%nat ->
  (List.length b <= List.length ks)%nat ->
  xor_bytes a ks = xor_bytes b ks -> a = b.
Proof.
  intros Ha Hb H.
  rewrite <- (xor_bytes_involutive a ks Ha), <- (xor_bytes_involutive b ks Hb).
  now rewrite H.
Qed.

(** ** The field of GHASH *)

Lemma lxor_lt_pow2 (a b n : N) : a < 2 ^ n -> b < 2 ^ n -> N.lxor a b < 2 ^ n.
Proof.
  intros Ha Hb.
  destruct (N.eq_dec (N.lxor a b) 0) as [E|E].
  - rewrite E. apply N.neq_0_lt_0. apply N.pow_nonzero. lia.
  - assert (Hn : 0 < n).
    { destruct (N.eq_dec n 0) as [->|]; [|lia].
      change (2 ^ 0) with 1 in *.
      assert (a = 0) by lia. assert (b = 0) by lia. subst. now cbn in E. }
    apply N.log2_lt_pow2; [lia|].
    eapply N.le_lt_trans; [apply N.log2_lxor|].
    apply N.max_lub_lt.
    + destruct (N.eq_dec a 0) as [->|Ha0]; [exact Hn|].
      apply N.log2_lt_pow2; lia.
    + destruct (N.eq_dec b 0) as [->|Hb0]; [exact Hn|].
      apply N.log2_lt_pow2; lia.
Qed.

Lemma mul_loop_lt (n : nat) (x z v : N) :
  z < block_bound -> v < block_bound -> GCM.mul_loop n x z v < block_bound.
Proof.
  revert z v. induction n as [|n IH]; intros z v Hz Hv; cbn [GCM.mul_loop].
  - exact Hz.
  - apply IH.
    + destruct (N.testbit x (N.of_nat n)); [|exact Hz].
      now apply lxor_lt_pow2.
    + assert (Hs : N.shiftr v 1 < block_bound).
      { rewrite N.shiftr_div_pow2. change (2 ^ 1) with 2.
        unfold block_bound in *. lia. }
      destruct (N.testbit v 0); [|exact Hs].
      apply lxor_lt_pow2; [exact Hs|]. vm_compute. reflexivity.
Qed.

Lemma mul_lt (x y : N) : y < block_bound -> GCM.mul x y < block_bound.
Proof.
  intros Hy. unfold GCM.mul. apply (mul_loop_lt 128); [|exact Hy].
  vm_compute. reflexivity.
Qed.

Lemma lxor_swap (a b c d : N) :
  N.lxor (N.lxor a c) (N.lxor b d) = N.lxor (N.lxor a b) (N.lxor c d).
Proof.
  rewrite !N.lxor_assoc. f_equal.
  rewrite <- !N.lxor_assoc. f_equal. apply N.lxor_comm.
Qed.

(** Multiplication distributes over the addition of the field, which is
    bitwise xor. *)
Lemma mul_loop_linear (n : nat) (a b za zb v : N) :
  GCM.mul_loop n (N.lxor a b) (N.lxor za zb) v
  = N.lxor (GCM.mul_loop n a za v) (GCM.mul_loop n b zb v).
Proof.
  revert za zb v. induction n as [|n IH]; intros za zb v; cbn [GCM.mul_loop].
  - reflexivity.
  - rewrite N.lxor_spec.
    destruct (N.testbit a (N.of_nat n)), (N.testbit b (N.of_nat n));
      cbn [xorb]; rewrite <- IH; f_equal.
    + rewrite lxor_swap, N.lxor_nilpotent, N.lxor_0_r. reflexivity.
    + rewrite <- (N.lxor_0_r zb) at 2. rewrite lxor_swap.
      now rewrite N.lxor_0_r.
    + rewrite <- (N.lxor_0_r za) at 2. rewrite lxor_swap.
      now rewrite N.lxor_0_l.
Qed.

Lemma mul_linear (a b h : N) :
  GCM.mul (N.lxor a b) h = N.lxor (GCM.mul a h) (GCM.mul b h).
Proof.
  unfold GCM.mul. rewrite <- (mul_loop_linear 128).
  now rewrite N.lxor_0_l.
Qed.

Section Linear_fold.

Variable f : N -> N.
Hypothesis f_linear : forall a b, f (N.lxor a b) = N.lxor (f a) (f b).
Hypothesis f_bound : forall x, x < block_bound -> f x < block_bound.
Hypothesis f_nonzero : forall x, x <> 0 -> x < block_bound -> f x <> 0.

Lemma iter_nonzero (n : nat) (d : N) :
d <> 0 -> d < block_bound -> Nat.iter n f d <> 0.
Proof.
revert d. induction n as [|n IH]; intros d Hd0 Hd.
- exact Hd0.
- rewrite Nat.iter_succ_r. apply IH; [now apply f_nonzero | now apply f_bound].
Qed.

(** A change of the running value of the fold is carried to the end. *)
Lemma fold_shift (a d : N) (post : list N) :
fold_left (fun y x => f (N.lxor y x)) post (N.lxor a d)
= N.lxor (fold_left (fun y x => f (N.lxor y x)) post a)
         (Nat.iter (List.length post) f d).
Proof.
revert a d. induction post as [|x post IH]; intros a d.
- reflexivity.
- change (fold_left (fun y x => f (N.lxor y x)) post (f (N.lxor (N.lxor a d) x))
          = N.lxor (fold_left (fun y x => f (N.lxor y x)) post (f (N.lxor a x)))
                   (Nat.iter (S (List.length post)) f d)).
  rewrite Nat.iter_succ_r.
  replace (N.lxor (N.lxor a d) x) with (N.lxor (N.lxor a x) d).
  + rewrite f_linear. apply IH.
  + rewrite !N.lxor_assoc. f_equal. apply N.lxor_comm.
Qed.

Lemma fold_one_block (x x' : N) (pre post : list N) :
x < block_bound -> x' < block_bound -> x <> x' ->
fold_left (fun y x => f (N.lxor y x)) (pre ++ x' :: post) 0
<> fold_left (fun y x => f (N.lxor y x)) (pre ++ x :: post) 0.
Proof.
intros Hx Hx' Hne.
rewrite !fold_left_app.
set (y := fold_left _ pre 0).
change (fold_left (fun y x => f (N.lxor y x)) post (f (N.lxor y x'))
        <> fold_left (fun y x => f (N.lxor y x)) post (f (N.lxor y x))).
replace (N.lxor y x') with (N.lxor (N.lxor y x) (N.lxor x x')).
- rewrite f_linear, fold_shift.
  intros E.
  apply (iter_nonzero (List.length post) (f (N.lxor x x'))).
  + apply f_nonzero.
    * intros E0. apply N.lxor_eq in E0. contradiction.
    * now apply lxor_lt_pow2.
  + apply f_bound. now apply lxor_lt_pow2.
  + set (g := fold_left _ post _) in E.
    set (m := Nat.iter _ _ _) in *.
    assert (H : N.lxor g (N.lxor g m) = N.lxor g g) by now rewrite E.
    rewrite <- N.lxor_assoc, N.lxor_nilpotent, N.lxor_0_l in H. exact H.
- rewrite N.lxor_assoc. f_equal.
  rewrite <- N.lxor_assoc, N.lxor_nilpotent. apply N.lxor_0_l.
Qed.

End Linear_fold.

(** GHASH tells apart two inputs that differ in one block, when the hash
    subkey is not a zero divisor. *)
Lemma ghash_one_block (h x x' : N) (pre post : list N) :
  no_zero_divisor h -> h < block_bound ->
  x < block_bound -> x' < block_bound -> x <> x' ->
  GCM.ghash h (pre ++ x' :: post) <> GCM.ghash h (pre ++ x :: post).
Proof.
  intros Hnz Hh Hx Hx' Hne.
  exact (fold_one_block (fun y => GCM.mul y h)
           (fun a b => mul_linear a b h)
           (fun x _ => mul_lt x h Hh)
           Hnz x x' pre post Hx Hx' Hne).
Qed.

(** ** The blocks of a byte string with one bit flipped *)

Lemma rounds_length (n : nat) (ks st : list N) :
  (List.length (AES.rounds n ks st) <= 16)%nat.
Proof.
  revert ks st. induction n as [|n IH]; intros ks st; cbn [AES.rounds].
  - unfold AES.add_round_key, AES.shift_rows.
    rewrite length_map, length_combine, length_map, length_seq. lia.
  - apply IH.
Qed.

Lemma pow_256_16 : 256 ^ 16 = block_bound.
Proof. reflexivity. Qed.

Lemma be_N_block (l : bytes) : (List.length l <= 16)%nat -> be_N l < block_bound.
Proof.
  intros Hl. apply N.lt_le_trans with (256 ^ N.of_nat (List.length l)).
  - apply be_N_lt.
  - rewrite <- pow_256_16. apply N.pow_le_mono_r; lia.
Qed.

Lemma encrypt_block_lt (key : bytes) (block : N) :
  AES.encrypt_block key block < block_bound.
Proof.
  unfold AES.encrypt_block. cbv zeta. apply be_N_block.
  rewrite length_map. apply rounds_length.
Qed.

Lemma hash_subkey_lt (key : bytes) : GCM.hash_subkey key < block_bound.
Proof. unfold GCM.hash_subkey. exact (encrypt_block_lt key 0). Qed.

Lemma firstn_flip_bit_lt (n i : nat) (bs : bytes) :
  (i < 8 * n)%nat -> firstn n (flip_bit i bs) = flip_bit i (firstn n bs).
Proof.
  revert n i. induction bs as [|b rest IH]; intros n i Hi.
  - destruct n; reflexivity.
  - destruct n as [|n]; [lia|].
    cbn [flip_bit firstn]. destruct (i <? 8)%nat eqn:E.
    + reflexivity.
    + apply Nat.ltb_ge in E. cbn [firstn]. rewrite IH by lia. reflexivity.
Qed.

Lemma skipn_flip_bit_lt (n i : nat) (bs : bytes) :
  (i < 8 * n)%nat -> skipn n (flip_bit i bs) = skipn n bs.
Proof.
  revert n i. induction bs as [|b rest IH]; intros n i Hi.
  - destruct n; reflexivity.
  - destruct n as [|n]; [lia|].
    cbn [flip_bit]. destruct (i <? 8)%nat eqn:E.
    + reflexivity.
    + apply Nat.ltb_ge in E. cbn [skipn]. apply IH. lia.
Qed.

Lemma firstn_flip_bit_ge (n i : nat) (bs : bytes) :
  (8 * n <= i)%nat -> firstn n (flip_bit i bs) = firstn n bs.
Proof.
  revert n i. induction bs as [|b rest IH]; intros n i Hi.
  - destruct n; reflexivity.
  - destruct n as [|n]; [reflexivity|].
    cbn [flip_bit]. replace (i <? 8)%nat with false
      by (symmetry; apply Nat.ltb_ge; lia).
    cbn [firstn]. rewrite IH by lia. reflexivity.
Qed.

Lemma skipn_flip_bit_ge (n i : nat) (bs : bytes) :
  (8 * n <= i)%nat ->
  skipn n (flip_bit i bs) = flip_bit (i - 8 * n) (skipn n bs).
Proof.
  revert n i. induction bs as [|b rest IH]; intros n i Hi.
  - destruct n; reflexivity.
  - destruct n as [|n].
    + cbn [skipn]. now rewrite Nat.mul_0_r, Nat.sub_0_r.
    + cbn [flip_bit]. replace (i <? 8)%nat with false
        by (symmetry; apply Nat.ltb_ge; lia).
      cbn [skipn]. rewrite IH by lia.
      replace (i - 8 - 8 * n)%nat with (i - 8 * S n)%nat by lia.
      reflexivity.
Qed.

Lemma padded_lt (b : bytes) : (List.length b <= 16)%nat -> padded b < block_bound.
Proof.
  intros Hb. unfold padded. apply be_N_block.
  rewrite length_app, repeat_length. lia.
Qed.

Lemma padded_flip (i : nat) (b : bytes) :
  (i < 8 * List.length b)%nat -> padded (flip_bit i b) <> padded b.
Proof.
  intros Hi E. unfold padded in E. rewrite flip_bit_length in E.
  apply be_N_inj in E.
  - apply app_inv_tail in E. now apply (flip_bit_changes i b).
  - rewrite !length_app, flip_bit_length. reflexivity.
Qed.

Lemma blocks_of_succ (n : nat) (bs : bytes) :
  GCM.blocks_of (S n) bs
  = padded (firstn 16 bs) :: GCM.blocks_of n (skipn 16 bs).
Proof. reflexivity. Qed.

Lemma blocks_of_flip (n i : nat) (bs : bytes) :
  (i < 8 * List.length bs)%nat -> (List.length bs <= 16 * n)%nat ->
  exists pre post x x',
    GCM.blocks_of n (flip_bit i bs) = pre ++ x' :: post /\
    GCM.blocks_of n bs = pre ++ x :: post /\
    x <> x' /\ x < block_bound /\ x' < block_bound.
Proof.
  revert i bs. induction n as [|n IH]; intros i bs Hi Hn; [lia|].
  rewrite !blocks_of_succ.
  destruct (Nat.lt_ge_cases i 128) as [Hlt|Hge].
  - rewrite firstn_flip_bit_lt, skipn_flip_bit_lt by lia.
    exists [], (GCM.blocks_of n (skipn 16 bs)),
      (padded (firstn 16 bs)), (padded (flip_bit i (firstn 16 bs))).
    split; [reflexivity|]. split; [reflexivity|]. split; [|split].
    + intros E. symmetry in E. revert E. apply padded_flip.
      rewrite length_firstn. lia.
    + apply padded_lt. rewrite length_firstn. lia.
    + apply padded_lt. rewrite flip_bit_length, length_firstn. lia.
  - rewrite firstn_flip_bit_ge, skipn_flip_bit_ge by lia.
    change (8 * 16)%nat with 128%nat.
    destruct (IH (i - 128)%nat (skipn 16 bs))
      as (pre & post & x & x' & E1 & E2 & Hne & Hx & Hx').
    + rewrite length_skipn. lia.
    + rewrite length_skipn. lia.
    + exists (padded (firstn 16 bs) :: pre), post, x, x'.
      rewrite E1, E2. split; [reflexivity|]. split; [reflexivity|].
      split; [exact Hne|]. split; assumption.
Qed.

Lemma nblocks_covers (bs : bytes) : (List.length bs <= 16 * GCM.nblocks bs)%nat.
Proof. unfold GCM.nblocks. lia. Qed.

Lemma ghash_lt (h : N) (xs : list N) (x : N) :
  h < block_bound -> GCM.ghash h (xs ++ [x]) < block_bound.
Proof.
  intros Hh. unfold GCM.ghash. rewrite fold_left_app.
  set (y := fold_left _ xs 0).
  change (GCM.mul (N.lxor y x) h < block_bound). now apply mul_lt.
Qed.

Lemma gctr_cancel (key : bytes) (icb : N) (a b : bytes) :
  List.length a = List.length b ->
  GCM.gctr key icb a = GCM.gctr key icb b -> a = b.
Proof.
  intros Hlen. unfold GCM.gctr, GCM.nblocks. rewrite Hlen.
  apply xor_bytes_cancel; rewrite keystream_length; lia.
Qed.

(** A flipped bit of the ciphertext changes the tag, when the hash subkey
    is not a zero divisor. *)
Lemma tag_detects_flip (key iv c : bytes) (i : nat) :
  no_zero_divisor (GCM.hash_subkey key) ->
  (i < 8 * List.length c)%nat ->
  GCM.tag key iv (flip_bit i c) <> GCM.tag key iv c.
Proof.
  intros Hnz Hi E. unfold GCM.tag in E. cbv zeta in E.
  pose proof (hash_subkey_lt key) as Hh.
  apply gctr_cancel in E; [|now rewrite !be_bytes_length].
  apply be_bytes_inj in E;
    [| change (256 ^ N.of_nat 16) with block_bound; now apply ghash_lt
     | change (256 ^ N.of_nat 16) with block_bound; now apply ghash_lt].
  revert E. rewrite flip_bit_length. unfold GCM.blocks.
  replace (GCM.nblocks (flip_bit i c)) with (GCM.nblocks c)
    by (unfold GCM.nblocks; now rewrite flip_bit_length).
  destruct (blocks_of_flip (GCM.nblocks c) i c Hi (nblocks_covers c))
    as (pre & post & x & x' & E1 & E2 & Hne & Hx & Hx').
  rewrite E1, E2, <- !app_assoc, <- !app_comm_cons.
  now apply ghash_one_block.
Qed.

(** ** A hash subkey with an inverse is not a zero divisor *)

Lemma lxor_high_bit (n lo : N) : lo < 2 ^ n -> N.lxor lo (2 ^ n) = lo + 2 ^ n.
Proof.
  intros Hlo. symmetry. apply N.add_nocarry_lxor.
  apply N.bits_inj. intros m. rewrite N.land_spec, N.bits_0, N.pow2_bits_eqb.
  destruct (N.eqb_spec n m) as [->|_]; [|apply andb_false_r].
  rewrite <- (N.mod_small lo (2 ^ m)) by exact Hlo.
  rewrite N.mod_pow2_bits_high by lia. reflexivity.
Qed.

Section Linear_identity.

Variable g : N -> N.
Hypothesis g_linear : forall a b, g (N.lxor a b) = N.lxor (g a) (g b).

Lemma linear_zero : g 0 = 0.
Proof.
pose proof (g_linear 0 0) as H. rewrite N.lxor_nilpotent in H.
rewrite H. apply N.lxor_nilpotent.
Qed.

(** A linear map that fixes the first [n] powers of two fixes every number
  below [2 ^ n]. *)
Lemma linear_identity (n : nat) :
(forall i, (i < n)%nat -> g (2 ^ N.of_nat i) = 2 ^ N.of_nat i) ->
forall x, x < 2 ^ N.of_nat n -> g x = x.
Proof.
induction n as [|n IH]; intros Hfix x Hx.
- change (2 ^ N.of_nat 0) with 1 in Hx.
  replace x with 0 by lia. apply linear_zero.
- rewrite Nat2N.inj_succ, N.pow_succ_r' in Hx.
  destruct (N.lt_ge_cases x (2 ^ N.of_nat n)) as [Hlo|Hhi].
  + apply IH; [|exact Hlo]. intros i Hi. apply Hfix. lia.
  + replace x with (N.lxor (x - 2 ^ N.of_nat n) (2 ^ N.of_nat n)).
    * rewrite g_linear, (Hfix n) by lia. f_equal.
      apply IH; [|lia]. intros i Hi. apply Hfix. lia.
    * rewrite lxor_high_bit by lia. lia.
Qed.

End Linear_identity.

Lemma fixes_powers_spec (g : N -> N) (n i : nat) :
  fixes_powers g n = true -> (i < n)%nat ->
  g (2 ^ N.of_nat i) = 2 ^ N.of_nat i.
Proof.
  unfold fixes_powers. intros H Hi. rewrite forallb_forall in H.
  apply N.eqb_eq. apply (H i). apply in_seq. lia.
Qed.

Lemma mul_mul_linear (h h' a b : N) :
  GCM.mul (GCM.mul (N.lxor a b) h) h'
  = N.lxor (GCM.mul (GCM.mul a h) h') (GCM.mul (GCM.mul b h) h').
Proof. rewrite !mul_linear. reflexivity. Qed.

Lemma mul_zero (h : N) : GCM.mul 0 h = 0.
Proof.
  exact (linear_zero (fun y => GCM.mul y h) (fun a b => mul_linear a b h)).
Qed.

Lemma inverse_cancels (h h' x : N) :
  inverse_of h h' = true -> x < block_bound ->
  GCM.mul (GCM.mul x h) h' = x.
Proof.
  unfold inverse_of. intros Hinv Hx.
  exact (linear_identity (fun y => GCM.mul (GCM.mul y h) h')
           (mul_mul_linear h h') 128
           (fun i Hi =>
              fixes_powers_spec (fun y => GCM.mul (GCM.mul y h) h') 128 i Hinv Hi)
           x Hx).
Qed.

Lemma inverse_no_zero_divisor (h h' : N) :
  inverse_of h h' = true -> no_zero_divisor h.
Proof.
  intros Hinv x Hx0 Hx E. apply Hx0.
  rewrite <- (inverse_cancels h h' x Hinv Hx), E. apply mul_zero.
Qed.

(** The hash subkey of the test cases of the GCM specification (the
    all-zero AES-256 key) has an inverse, so that with this key every flip
    of a bit of a ciphertext changes the tag. *)
Lemma zero_key_subkey_inverse :
  inverse_of (GCM.hash_subkey (repeat x00 32))
             (mul_inverse (GCM.hash_subkey (repeat x00 32))) = true.
Proof. vm_compute. reflexivity. Qed.

Lemma zero_key_detects_flips (iv c : bytes) (i : nat) :
  (i < 8 * List.length c)%nat ->
  GCM.tag (repeat x00 32) iv (flip_bit i c) <> GCM.tag (repeat x00 32) iv c.
Proof.
  apply tag_detects_flip.
  exact (inverse_no_zero_divisor _ _ zero_key_subkey_inverse).
Qed.

(** ** Decryption of a tampered payload *)


Lemma fst_decrypt_attempt_any_page (C : constants) (code : jsstring) (p q : page) :
  fst (decrypt_attempt C code p) = fst (decrypt_attempt C code q).
Proof.
  destruct (pure_decrypt_attempt C code) as (r & evs & H).
  now rewrite !H.
Qed.

(** When the hash matches and the [try] block throws, [verify] shows
    "DECRYPTION FAILURE" and gives the page back for another attempt. *)
Lemma verify_decrypt_throws (C : constants) (p : page) (e : exn) :
  isVerifying p = false ->
  N.of_nat (List.length (List.concat (boxes p))) = CODE_LENGTH C ->
  Hex.encode (SHA256.digest (UTF8.encode (List.concat (boxes p)))) = CODE_HASH C ->
  fst (decrypt_attempt C (List.concat (boxes p)) p) = Throw e ->
  exists evs,
    verify C p
    = (Normal tt,
       rejected "DECRYPTION FAILURE"
         (extend evs (hashed (List.concat (boxes p)) (started p)))).
Proof.
  intros Hidle Hlen Hhash Hthrow.
  destruct (pure_decrypt_attempt C (List.concat (boxes p))) as (r & evs & H).
  rewrite H in Hthrow. cbn [fst] in Hthrow. subst r.
  exists evs.
  rewrite (verify_attempt C p
             (extend evs (hashed (List.concat (boxes p)) (started p))) None
             Hidle Hlen).
  - rewrite Hhash, strict_eq_refl. reflexivity.
  - unfold decryptMessage, try_catch. now rewrite H.
Qed.






(** ** The order of the checks, and the calls that are refused or fail *)

(** C5.  In every attempt (a call of [verify] with no other call in flight
    and a code of the right length in the boxes) the first cryptographic
    call is the SHA-256 digest of the candidate; whatever key derivation and
    decryption there is comes after it in the trace; and when the hash is
    not [CODE_HASH] there is none: the attempt ends in [RejectedHash]. *)
Theorem hash_check_precedes_derivation (C : constants) (p : page) :
  isVerifying p = false -> revealed p = None ->
  N.of_nat (List.length (List.concat (boxes p))) = CODE_LENGTH C ->
  exists later : list event,
    trace (snd (verify C p))
    = trace p ++ SetTimeout 800
        :: SubtleDigest "SHA-256" (UTF8.encode (List.concat (boxes p)))
        :: later /\
    (Hex.encode (SHA256.digest (UTF8.encode (List.concat (boxes p))))
       <> CODE_HASH C ->
     later = [] /\ state_of (snd (verify C p)) = RejectedHash).
Proof.
  intros Hidle Hrev Hlen.
  destruct (decryptMessage_returns C (List.concat (boxes p))) as (m & evs & Hd).
  rewrite (verify_attempt C p
             (extend evs (hashed (List.concat (boxes p)) (started p))) m
             Hidle Hlen (Hd _)).
  cbn [snd].
  destruct (strict_eq _ _) eqn:E.
  - exists evs. split.
    + destruct m as [[|c m']|]; cbn; now rewrite <- !app_assoc.
    + intros Hne. apply strict_eq_true in E. contradiction.
  - exists []. split.
    + cbn. now rewrite <- !app_assoc.
    + intros _. split; [reflexivity|].
      apply state_of_rejected_hash. exact Hrev.
Qed.

Lemma hash_check_precedes_derivation_witness :
  exists later : list event,
    trace (snd (verify other_hash (typed (js "ABC123"))))
    = trace (typed (js "ABC123")) ++ SetTimeout 800
        :: SubtleDigest "SHA-256"
             (UTF8.encode (List.concat (boxes (typed (js "ABC123")))))
        :: later /\
    (Hex.encode (SHA256.digest
                   (UTF8.encode (List.concat (boxes (typed (js "ABC123"))))))
       <> CODE_HASH other_hash ->
     later = [] /\
     state_of (snd (verify other_hash (typed (js "ABC123")))) = RejectedHash).
Proof.
  apply (hash_check_precedes_derivation other_hash (typed (js "ABC123")));
    reflexivity.
Defined.

(** C6.  When the hash check passes and anything in the [try] block of
    [decryptMessage] throws, whatever the exception, [verify] itself returns
    normally and ends in [RejectedDecrypt]; nothing is revealed. *)
Theorem decrypt_failure_is_rejected (C : constants) (p : page) (e : exn) :
  isVerifying p = false -> revealed p = None ->
  N.of_nat (List.length (List.concat (boxes p))) = CODE_LENGTH C ->
  Hex.encode (SHA256.digest (UTF8.encode (List.concat (boxes p)))) = CODE_HASH C ->
  fst (decrypt_attempt C (List.concat (boxes p)) p) = Throw e ->
  fst (verify C p) = Normal tt /\
  state_of (snd (verify C p)) = RejectedDecrypt /\
  revealed (snd (verify C p)) = None /\
  isVerifying (snd (verify C p)) = false.
Proof.
  intros Hidle Hrev Hlen Hhash Hthrow.
  destruct (verify_decrypt_throws C p e Hidle Hlen Hhash Hthrow) as (evs & Hv).
  rewrite Hv. cbn [fst snd]. split; [reflexivity|]. split; [|split].
  - apply state_of_rejected_decrypt. exact Hrev.
  - exact Hrev.
  - reflexivity.
Qed.

Lemma decrypt_failure_is_rejected_witness :
  fst (verify bad_salt (typed (js "ABC123"))) = Normal tt /\
  state_of (snd (verify bad_salt (typed (js "ABC123")))) = RejectedDecrypt /\
  revealed (snd (verify bad_salt (typed (js "ABC123")))) = None /\
  isVerifying (snd (verify bad_salt (typed (js "ABC123")))) = false.
Proof.
  apply (decrypt_failure_is_rejected bad_salt (typed (js "ABC123"))
           InvalidCharacterError); reflexivity.
Defined.

(** C7.  A call of [verify] with a code in the boxes whose length is not
    [CODE_LENGTH] returns at once and leaves the page as it was: same state,
    same trace (no hash, no key derivation), no error shown. *)
Theorem wrong_length_is_ignored (C : constants) (p : page) :
  N.of_nat (List.length (List.concat (boxes p))) <> CODE_LENGTH C ->
  verify C p = (Normal tt, p) /\
  verify_call C p = (Normal None, p) /\
  forall ts, step C (System p ts) CallVerify = System p ts.
Proof.
  intros H. split; [|split].
  - apply verify_no_attempt. now right.
  - now apply verify_call_wrong_length.
  - intros ts. unfold step. cbn [pg pending].
    rewrite verify_call_wrong_length by exact H.
    cbn [settle option_list]. now rewrite app_nil_r.
Qed.

Lemma wrong_length_is_ignored_witness :
  verify other_hash (typed (js "ABC")) = (Normal tt, typed (js "ABC")) /\
  verify_call other_hash (typed (js "ABC")) = (Normal None, typed (js "ABC")) /\
  forall ts, step other_hash (System (typed (js "ABC")) ts) CallVerify
             = System (typed (js "ABC")) ts.
Proof.
  apply (wrong_length_is_ignored other_hash (typed (js "ABC"))).
  discriminate.
Defined.

(** C9.  With [SECRET_CODE] or [SECRET_MESSAGE] missing or empty, build.js
    prints the error and exits with status 1, and that is all it does: no
    random bytes drawn, nothing derived, no directory made, no file written
    or copied. *)
Theorem missing_secret_aborts_build (i : Build.inputs) :
  Build.SECRET_CODE (Build.env i) = None \/
  Build.SECRET_CODE (Build.env i) = Some [] \/
  Build.SECRET_MESSAGE (Build.env i) = None \/
  Build.SECRET_MESSAGE (Build.env i) = Some [] ->
  Build.build i
  = ([Build.ConsoleError "Missing environment variables"; Build.Exit 1], None).
Proof.
  intros H.
  assert (Hf : Build.falsy (Build.SECRET_CODE (Build.env i))
               || Build.falsy (Build.SECRET_MESSAGE (Build.env i)) = true).
  { destruct H as [H|[H|[H|H]]]; rewrite H; cbn [Build.falsy orb];
      try reflexivity; apply orb_true_r. }
  unfold Build.build. rewrite Hf. reflexivity.
Qed.

Lemma missing_secret_aborts_build_witness :
  Build.build no_message
  = ([Build.ConsoleError "Missing environment variables"; Build.Exit 1], None).
Proof.
  apply (missing_secret_aborts_build no_message). right. right. left. reflexivity.
Defined.

(** C10.  [decryptMessage] returns on every code and every value of the
    constants: a string or [null], never an exception; and it leaves the page
    as it was but for the calls it adds to the trace. *)
Theorem decryptMessage_never_throws (C : constants) (code : jsstring) (p : page) :
  exists (m : option jsstring) (evs : list event),
    decryptMessage C code p = (Normal m, extend evs p).
Proof.
  destruct (decryptMessage_returns C code) as (m & evs & H).
  exists m, evs. apply H.
Qed.

(** ** The page as a system: one call in flight at most *)

Section Single_flight.

Variable C : constants.

Lemma well_formed_boot (values : list jsstring) : well_formed (boot values).
Proof.
  unfold well_formed, boot, initial. cbn. repeat split; try lia; congruence.
Qed.

(** The three ways a resumed call can leave the page. *)
Lemma resume_cases (t : task) (p : page) :
  (exists t' p', resume C t p = (Normal (Some t'), p') /\
                 isVerifying p' = isVerifying p /\ revealed p' = revealed p) \/
  (exists p', resume C t p = (Normal None, p') /\
              isVerifying p' = false /\ revealed p' = revealed p) \/
  (exists m p', resume C t p = (Normal None, p') /\
                isVerifying p' = isVerifying p /\ revealed p' = Some m).
Proof.
  destruct t as [code|code|code].
  - left. exists (AwaitSha256 code), p. now rewrite resume_delay.
  - rewrite resume_sha256. destruct (strict_eq _ _).
    + left. eexists _, _. repeat split.
    + right. left. eexists. repeat split.
  - destruct (decryptMessage_returns C code) as (m & evs & Hd).
    rewrite (resume_decryptMessage C code p _ m (Hd p)).
    destruct m as [[|c m']|].
    + right. left. eexists. repeat split.
    + right. right. eexists _, _. repeat split.
    + right. left. eexists. repeat split.
Qed.

Lemma verify_call_cases (p : page) :
  verify_call C p = (Normal None, p) \/
  (isVerifying p = false /\
   verify_call C p
   = (Normal (Some (AwaitDelay (List.concat (boxes p)))), started p)).
Proof.
  destruct (isVerifying p) eqn:Hbusy.
  - left. now apply verify_call_busy.
  - destruct (N.eq_dec (N.of_nat (List.length (List.concat (boxes p))))
                       (CODE_LENGTH C)) as [E|E].
    + right. split; [reflexivity|]. now apply verify_call_starts.
    + left. now apply verify_call_wrong_length.
Qed.

Lemma well_formed_step (s : system) (i : input) :
  well_formed s -> well_formed (step C s i).
Proof.
  intros (H1 & H2 & H3). destruct s as [p ts]. cbn [pg pending] in *.
  destruct i as [|n|values|]; cbn [step pg pending].
  - destruct (verify_call_cases p) as [E|[Hidle E]]; rewrite E;
      cbn [settle option_list].
    + rewrite app_nil_r. exact (conj H1 (conj H2 H3)).
    + rewrite (H1 Hidle). cbn [app].
      unfold well_formed. cbn [pg pending].
      split; [discriminate|]. split; [cbn; lia|].
      intros Hr. exfalso. cbn in Hr. apply H3 in Hr. destruct Hr. congruence.
  - destruct (nth_error ts n) as [t|] eqn:En;
      [|exact (conj H1 (conj H2 H3))].
    assert (Hts : ts = [t] /\ n = 0%nat).
    { destruct ts as [|t0 [|t1 ts]]; cbn in H2; try lia.
      - destruct n; discriminate.
      - destruct n as [|n]; cbn in En; [split; congruence|].
        destruct n; discriminate. }
    destruct Hts as [-> ->]. cbn [remove_nth].
    assert (Hbusy : isVerifying p = true).
    { destruct (isVerifying p); [reflexivity|]. now specialize (H1 eq_refl). }
    assert (Hnone : revealed p = None).
    { destruct (revealed p) eqn:E; [|reflexivity].
      destruct H3 as [_ H3]; [discriminate | discriminate]. }
    destruct (resume_cases t p)
      as [(t' & p' & E & Hv & Hr)|[(p' & E & Hv & Hr)|(m & p' & E & Hv & Hr)]];
      rewrite E; cbn [settle option_list app];
      unfold well_formed; cbn [pg pending].
    + split; [congruence|]. split; [cbn; lia|]. congruence.
    + split; [reflexivity|]. split; [cbn; lia|]. congruence.
    + split; [reflexivity|]. split; [cbn; lia|].
      intros _. split; [congruence | reflexivity].
  - exact (conj H1 (conj H2 H3)).
  - exact (conj H1 (conj H2 H3)).
Qed.

Lemma well_formed_run (s : system) (evs : list input) :
  well_formed s -> well_formed (run C s evs).
Proof.
  revert s. induction evs as [|i evs IH]; intros s H; cbn [run fold_left].
  - exact H.
  - apply IH. now apply well_formed_step.
Qed.

(** Once a message is revealed, no input changes the flag, the message or
    the trace, and no call is started. *)
Lemma accepted_step (s : system) (i : input) (m : jsstring) :
  well_formed s -> revealed (pg s) = Some m ->
  revealed (pg (step C s i)) = Some m /\
  isVerifying (pg (step C s i)) = true /\
  pending (step C s i) = [] /\
  trace (pg (step C s i)) = trace (pg s).
Proof.
  intros (H1 & H2 & H3) Hm. destruct s as [p ts]. cbn [pg pending] in *.
  destruct H3 as [Hbusy ->]; [congruence|].
  destruct i as [|n|values|]; cbn [step pg pending].
  - rewrite verify_call_busy by exact Hbusy. cbn. repeat split; assumption.
  - destruct n; cbn; repeat split; assumption.
  - cbn. repeat split; assumption.
  - cbn. repeat split; assumption.
Qed.

Lemma accepted_run (s : system) (evs : list input) (m : jsstring) :
  well_formed s -> revealed (pg s) = Some m ->
  revealed (pg (run C s evs)) = Some m /\
  isVerifying (pg (run C s evs)) = true /\
  pending (run C s evs) = [] /\
  trace (pg (run C s evs)) = trace (pg s).
Proof.
  revert s. induction evs as [|i evs IH]; intros s Hwf Hm; cbn [run fold_left].
  - destruct Hwf as (_ & _ & H3). destruct H3 as [Hbusy Hp]; [congruence|].
    repeat split; assumption.
  - destruct (accepted_step s i m Hwf Hm) as (Hr & _ & _ & Ht).
    destruct (IH (step C s i) (well_formed_step s i Hwf) Hr) as (A & B & D & E).
    repeat split; try assumption. now rewrite <- Ht.
Qed.

(** The system, left alone after a call of [verify()], does what [verify]
    run to its end does. *)
Lemma run_uninterrupted (p : page) :
  run C (System p []) [CallVerify; Wake 0; Wake 0; Wake 0]
  = System (snd (verify C p)) [].
Proof.
  cbn [run fold_left].
  destruct (verify_call_cases p) as [E|[Hidle E]].
  - unfold verify. unfold bind at 1. unfold step at 4. cbn [pg pending].
    rewrite E. reflexivity.
  - assert (Hlen : N.of_nat (List.length (List.concat (boxes p))) = CODE_LENGTH C).
    { destruct (N.eq_dec (N.of_nat (List.length (List.concat (boxes p))))
                         (CODE_LENGTH C)) as [H|H]; [exact H|].
      rewrite verify_call_wrong_length in E by exact H. discriminate E. }
    destruct (decryptMessage_returns C (List.concat (boxes p)))
      as (m & evs & Hd).
    rewrite (verify_attempt C p _ m Hidle Hlen (Hd _)). cbn [snd].
    unfold step at 4. cbn [pg pending]. rewrite E.
    cbn [settle option_list app].
    unfold step at 3. cbn [pg pending nth_error remove_nth].
    rewrite resume_delay. cbn [settle option_list app].
    unfold step at 2. cbn [pg pending nth_error remove_nth].
    rewrite resume_sha256.
    destruct (strict_eq _ _); cbn [settle option_list app].
    + unfold step. cbn [pg pending nth_error remove_nth].
      rewrite (resume_decryptMessage C _ _ _ m (Hd _)). reflexivity.
    + reflexivity.
Qed.

End Single_flight.

(** C8.  In every state the page reaches there is at most one call of
    [verify] in flight; while one is in flight ([isVerifying] set), a further
    call changes nothing; and once a message is revealed it stays revealed
    whatever happens next: no later call starts an attempt, the flag stays
    set and the trace grows no more. *)
Theorem accepted_is_terminal
    (C : constants) (values : list jsstring) (before after : list input) :
  let s := run C (boot values) before in
  (List.length (pending s) <= 1)%nat /\
  (isVerifying (pg s) = true ->
   step C s CallVerify = s /\ verify C (pg s) = (Normal tt, pg s)) /\
  (forall m, revealed (pg s) = Some m ->
     revealed (pg (run C s after)) = Some m /\
     isVerifying (pg (run C s after)) = true /\
     pending (run C s after) = [] /\
     trace (pg (run C s after)) = trace (pg s)).
Proof.
  intros s.
  assert (Hwf : well_formed s) by apply well_formed_run, well_formed_boot.
  split; [apply Hwf|]. split.
  - intros Hbusy. split.
    + destruct s as [p ts]. cbn [pg] in Hbusy. cbn [step pg pending].
      rewrite verify_call_busy by exact Hbusy.
      cbn [settle option_list]. now rewrite app_nil_r.
    + apply verify_no_attempt. now left.
  - intros m Hm. now apply accepted_run.
Qed.

Lemma sample_accepts :
  revealed (pg (run sample_page (boot (boxes (typed (js "ABC123"))))
                    [CallVerify; Wake 0; Wake 0; Wake 0])) = Some treasure.
Proof.
  change (boot (boxes (typed (js "ABC123"))))
    with (System (typed (js "ABC123")) []).
  rewrite run_uninterrupted. cbn [pg]. unfold sample_page.
  rewrite verify_prepared; [| reflexivity | reflexivity | reflexivity].
  cbv zeta. change (UTF8.decode (UTF8.encode treasure)) with treasure.
  reflexivity.
Qed.

Lemma accepted_is_terminal_witness :
  let s := run sample_page (boot (boxes (typed (js "ABC123"))))
               [CallVerify; Wake 0; Wake 0; Wake 0] in
  let s' := run sample_page s
                [CallVerify; Edit [js "x"]; Wake 0; ClearError; CallVerify] in
  revealed (pg s) = Some treasure /\
  revealed (pg s') = Some treasure /\
  isVerifying (pg s') = true /\
  pending s' = [] /\
  trace (pg s') = trace (pg s).
Proof.
  split; [exact sample_accepts|].
  apply (accepted_is_terminal sample_page (boxes (typed (js "ABC123")))
           [CallVerify; Wake 0; Wake 0; Wake 0]
           [CallVerify; Edit [js "x"]; Wake 0; ClearError; CallVerify]).
  exact sample_accepts.
Defined.

(** ** [trim] *)

Lemma trimStart_spaces (a s : jsstring) :
  spaces a -> Str.trimStart (a ++ s) = Str.trimStart s.
Proof.
  unfold spaces. induction a as [|c a IH]; intros H; [reflexivity|].
  cbn [forallb] in H. apply andb_true_iff in H as [Hc Ha].
  cbn [app Str.trimStart]. rewrite Hc. now apply IH.
Qed.

Lemma trimStart_all_spaces (a : jsstring) : spaces a -> Str.trimStart a = [].
Proof.
  intros H. rewrite <- (app_nil_r a). now rewrite trimStart_spaces.
Qed.

Lemma trimStart_app_cons (u v : jsstring) (c : N) :
  Str.is_space c = false ->
  Str.trimStart (u ++ c :: v) = Str.trimStart u ++ c :: v.
Proof.
  intros Hc. induction u as [|x u IH]; cbn [app Str.trimStart].
  - now rewrite Hc.
  - destruct (Str.is_space x); [exact IH | reflexivity].
Qed.





Lemma trimEnd_spaces (s b : jsstring) :
  spaces b -> Str.trimEnd (s ++ b) = Str.trimEnd s.
Proof.
  intros H. unfold Str.trimEnd. rewrite rev_app_distr.
  rewrite trimStart_spaces; [reflexivity|].
  unfold spaces in *. rewrite forallb_forall in *.
  intros x Hx. apply H. now apply in_rev.
Qed.


Lemma trimEnd_cons_app (u v : jsstring) (c : N) :
  Str.is_space c = false ->
  Str.trimEnd (u ++ c :: v) = u ++ c :: Str.trimEnd v.
Proof.
  intros Hc. unfold Str.trimEnd.
  rewrite rev_app_distr. cbn [rev]. rewrite <- app_assoc. cbn [app].
  rewrite trimStart_app_cons by exact Hc.
  rewrite rev_app_distr. cbn [rev]. rewrite rev_involutive, <- app_assoc.
  reflexivity.
Qed.


Lemma trim_padded (a s b : jsstring) :
  spaces a -> spaces b -> Str.trim (a ++ s ++ b) = Str.trim s.
Proof.
  intros Ha Hb. unfold Str.trim. rewrite trimStart_spaces by exact Ha.
  destruct (Str.trimStart s) as [|c t] eqn:E.
  - assert (Hs : spaces s).
    { clear -E. unfold spaces. induction s as [|x s IH]; [reflexivity|].
      cbn [Str.trimStart] in E. cbn [forallb].
      destruct (Str.is_space x); [now apply IH | discriminate]. }
    rewrite trimStart_all_spaces; [reflexivity|].
    unfold spaces in *. rewrite forallb_app. now rewrite Hs, Hb.
  - assert (Hc : Str.is_space c = false /\
                 exists a', s = a' ++ c :: t /\ spaces a').
    { clear -E. induction s as [|x s IH]; [discriminate|].
      cbn [Str.trimStart] in E. destruct (Str.is_space x) eqn:Ex.
      - destruct (IH E) as (Hc & a' & -> & Ha'). split; [exact Hc|].
        exists (x :: a'). split; [reflexivity|].
        unfold spaces. cbn [forallb]. now rewrite Ex.
      - injection E as -> ->. split; [exact Ex|]. exists []. now split. }
    destruct Hc as (Hc & a' & -> & Ha').
    rewrite <- app_assoc. cbn [app].
    rewrite trimStart_spaces by exact Ha'.
    cbn [Str.trimStart]. rewrite Hc.
    change (c :: t ++ b) with ([] ++ c :: (t ++ b)).
    change (c :: t) with ([] ++ c :: t).
    rewrite !trimEnd_cons_app by exact Hc.
    now rewrite trimEnd_spaces.
Qed.




(** ** The [.env] file: lines *)






(** ** The [.env] file: the loop *)

Lemma set_other (e : Dotenv.environment) (key value k : jsstring) :
  k <> key -> Dotenv.set e key value k = e k.
Proof.
  intros H. destruct key as [|c key]; [reflexivity|].
  cbn [Dotenv.set]. apply strict_eq_false in H. now rewrite H.
Qed.


Lemma load_line_keeps (e : Dotenv.environment) (line k v : jsstring) :
  e k = Some v -> v <> [] -> Dotenv.load_line e line k = Some v.
Proof.
  intros Hk Hv. unfold Dotenv.load_line.
  destruct (Dotenv.parse_line line) as [[key value]|]; [|exact Hk].
  destruct (Dotenv.unset e key) eqn:U; [|exact Hk].
  rewrite set_other; [exact Hk|]. intros ->.
  unfold Dotenv.unset in U. rewrite Hk in U. destruct v; congruence.
Qed.

Lemma fold_load_line_keeps (lines : list jsstring) (e : Dotenv.environment)
    (k v : jsstring) :
  e k = Some v -> v <> [] -> fold_left Dotenv.load_line lines e k = Some v.
Proof.
  revert e. induction lines as [|l lines IH]; intros e Hk Hv; [exact Hk|].
  cbn [fold_left]. apply IH; [|exact Hv]. now apply load_line_keeps.
Qed.




Lemma split_app (sep : N) (s rest : jsstring) :
  ~ In sep s ->
  Str.split sep (s ++ sep :: rest) = s :: Str.split sep rest.
Proof.
  induction s as [|c s IH]; intros H; cbn [app Str.split].
  - now rewrite N.eqb_refl.
  - destruct (N.eqb_spec c sep) as [->|_]; [exfalso; apply H; now left|].
    rewrite IH; [reflexivity|]. intros Hin. apply H. now right.
Qed.

Lemma parse_line_carriage_return (line : jsstring) :
  Dotenv.parse_line (line ++ [13]) = Dotenv.parse_line line.
Proof.
  unfold Dotenv.parse_line.
  replace (Str.trim (line ++ [13])) with (Str.trim line); [reflexivity|].
  symmetry. exact (trim_padded [] line [13] eq_refl eq_refl).
Qed.

Lemma load_line_carriage_return (e : Dotenv.environment) (line : jsstring) :
  Dotenv.load_line e (line ++ [13]) = Dotenv.load_line e line.
Proof. unfold Dotenv.load_line. now rewrite parse_line_carriage_return. Qed.

(** X1.  The environment wins over the [.env] file: a variable that has a
    non-empty value when the script starts still has it after the file, if
    there is one, has been loaded, whatever the file holds. *)
Theorem environment_wins (dotenv : option jsstring) (e : Dotenv.environment)
    (k v : jsstring) :
  e k = Some v -> v <> [] -> Dotenv.merged dotenv e k = Some v.
Proof.
  intros Hk Hv. destruct dotenv as [content|]; [|exact Hk].
  now apply fold_load_line_keeps.
Qed.

Lemma environment_wins_witness :
  Dotenv.merged (Some (js "SECRET_CODE=XYZ789")) sample_environment
                (js "SECRET_CODE")
  = Some (js "ABC123").
Proof.
  apply (environment_wins (Some (js "SECRET_CODE=XYZ789")) sample_environment
           (js "SECRET_CODE") (js "ABC123")).
  - reflexivity.
  - discriminate.
Defined.





Lemma fold_load_line_carriage_returns (lines : list jsstring) :
  Forall (fun l => ~ In 10 l) lines ->
  forall e,
    fold_left Dotenv.load_line (Str.split 10 (unlines [13; 10] lines)) e
    = fold_left Dotenv.load_line (Str.split 10 (unlines [10] lines)) e.
Proof.
  induction lines as [|l rest IH]; intros H e; [reflexivity|].
  destruct rest as [|l' rest']; [reflexivity|].
  inversion H as [|? ? Hl Hrest]; subst.
  change (unlines [13; 10] (l :: l' :: rest'))
    with (l ++ [13; 10] ++ unlines [13; 10] (l' :: rest')).
  change (unlines [10] (l :: l' :: rest'))
    with (l ++ [10] ++ unlines [10] (l' :: rest')).
  replace (l ++ [13; 10] ++ unlines [13; 10] (l' :: rest'))
    with ((l ++ [13]) ++ 10 :: unlines [13; 10] (l' :: rest'))
    by (rewrite <- app_assoc; reflexivity).
  cbn [app]. rewrite !split_app.
  - cbn [fold_left]. rewrite load_line_carriage_return. now apply IH.
  - exact Hl.
  - intros Hin. apply in_app_or in Hin as [Hin|[Hin|[]]];
      [now apply Hl | discriminate Hin].
Qed.

(** X4.  Line ends do not matter: a file whose lines end in CR LF is
    loaded exactly as the same lines ending in LF. *)
Theorem carriage_returns_are_ignored (lines : list jsstring)
    (e : Dotenv.environment) :
  Forall (fun l => ~ In 10 l) lines ->
  Dotenv.load (unlines [13; 10] lines) e = Dotenv.load (unlines [10] lines) e.
Proof.
  intros H. unfold Dotenv.load. now apply fold_load_line_carriage_returns.
Qed.

Lemma carriage_returns_are_ignored_witness :
  Dotenv.load (unlines [13; 10] [js "SECRET_CODE=ABC123"; js "SECRET_MESSAGE=hi"])
              sample_environment
  = Dotenv.load (unlines [10] [js "SECRET_CODE=ABC123"; js "SECRET_MESSAGE=hi"])
                sample_environment.
Proof.
  apply (carriage_returns_are_ignored
           [js "SECRET_CODE=ABC123"; js "SECRET_MESSAGE=hi"] sample_environment).
  repeat constructor; intros H; vm_compute in H; intuition discriminate.
Defined.

(** ** From the [.env] file to the page *)







(** ** The two hash functions *)

(** X6.  The hash of the browser is the hash of the build: on every
    string, [sha256] of script.js resolves to the very string that
    [createHash('sha256').update(str).digest('hex')] returns in build.js. *)
Theorem browser_hash_is_build_hash (str : jsstring) (p : page) :
  fst (sha256 str p) = Node.createHash_update_digest_hex "sha256" str.
Proof. rewrite sha256_eq. reflexivity. Qed.

(** ** The shape of the artifacts *)

Lemma digit_lower_hex (d : N) : d < 16 -> lower_hex (Hex.digit d) = true.
Proof.
  intros H. unfold lower_hex, Hex.digit.
  rewrite orb_true_iff, !andb_true_iff, !N.leb_le.
  destruct (N.ltb_spec d 10); lia.
Qed.

Lemma to_N_below (b : byte) : Byte.to_N b < 256.
Proof. destruct b; vm_compute; reflexivity. Qed.

Lemma hex_encode_lower (bs : bytes) : Forall (fun c => lower_hex c = true) (Hex.encode bs).
Proof.
  induction bs as [|b bs IH]; [constructor|].
  unfold Hex.encode. cbn [flat_map app]. pose proof (to_N_below b).
  constructor; [apply digit_lower_hex; lia|].
  constructor; [apply digit_lower_hex; lia | exact IH].
Qed.

Lemma hex_encode_length (bs : bytes) :
  List.length (Hex.encode bs) = (2 * List.length bs)%nat.
Proof.
  induction bs as [|b bs IH]; [reflexivity|].
  unfold Hex.encode in *. cbn [flat_map app List.length]. rewrite IH. lia.
Qed.

Lemma sealed_length (code message : jsstring) (salt iv : bytes) :
  List.length (sealed code message salt iv)
  = (List.length (UTF8.encode message) + 16)%nat.
Proof.
  unfold sealed. cbv zeta. now rewrite length_app, crypt_length, tag_length.
Qed.

(** X7.  What a successful build injects has the shape the page expects:
    the hash is 64 lower-case hexadecimal digits, the length is the number
    of code units of the code, and [base64ToBytes] reads from the three
    Base64 constants a salt of 16 bytes, an IV of 12 bytes and the
    ciphertext with its tag, 16 bytes longer than the UTF-8 encoding of the
    message. *)
Theorem artifacts_have_their_shape (i : Build.inputs) (code message : jsstring) :
  Build.SECRET_CODE (Build.env i) = Some code ->
  Build.SECRET_MESSAGE (Build.env i) = Some message ->
  code <> [] -> message <> [] ->
  exists a salt iv data,
    snd (Build.build i) = Some a /\
    List.length (Build.codeHash a) = 64%nat /\
    Forall (fun c => lower_hex c = true) (Build.codeHash a) /\
    Build.codeLength a = N.of_nat (List.length code) /\
    (forall p, base64ToBytes (Build.saltB64 a) p = (Normal salt, p)) /\
    List.length salt = 16%nat /\
    (forall p, base64ToBytes (Build.ivB64 a) p = (Normal iv, p)) /\
    List.length iv = 12%nat /\
    (forall p, base64ToBytes (Build.encryptedB64 a) p = (Normal data, p)) /\
    List.length data = (List.length (UTF8.encode message) + 16)%nat.
Proof.
  intros Hc Hm Hc0 Hm0.
  destruct (build_artifacts i code message Hc Hm Hc0 Hm0) as (a & Ha & HC).
  exists a, (salt_of i), (iv_of i), (sealed code message (salt_of i) (iv_of i)).
  pose proof (f_equal CODE_HASH HC) as Hh.
  pose proof (f_equal CODE_LENGTH HC) as Hn.
  pose proof (f_equal SALT HC) as Hs.
  pose proof (f_equal IV HC) as Hv.
  pose proof (f_equal ENCRYPTED_MESSAGE HC) as Hd.
  cbn [constants_of prepared CODE_HASH CODE_LENGTH SALT IV ENCRYPTED_MESSAGE]
    in Hh, Hn, Hs, Hv, Hd.
  rewrite Hh, Hn, Hs, Hv, Hd.
  split; [exact Ha|].
  split; [now rewrite hex_encode_length, digest_length|].
  split; [apply hex_encode_lower|].
  split; [reflexivity|].
  split; [intros p; apply base64ToBytes_encode|].
  split; [reflexivity|].
  split; [intros p; apply base64ToBytes_encode|].
  split; [reflexivity|].
  split; [intros p; apply base64ToBytes_encode|].
  apply sealed_length.
Qed.

Lemma artifacts_have_their_shape_witness :
  exists a salt iv data,
    snd (Build.build (sample_inputs (js "ABC123") treasure)) = Some a /\
    List.length (Build.codeHash a) = 64%nat /\
    Forall (fun c => lower_hex c = true) (Build.codeHash a) /\
    Build.codeLength a = N.of_nat (List.length (js "ABC123")) /\
    (forall p, base64ToBytes (Build.saltB64 a) p = (Normal salt, p)) /\
    List.length salt = 16%nat /\
    (forall p, base64ToBytes (Build.ivB64 a) p = (Normal iv, p)) /\
    List.length iv = 12%nat /\
    (forall p, base64ToBytes (Build.encryptedB64 a) p = (Normal data, p)) /\
    List.length data = (List.length (UTF8.encode treasure) + 16)%nat.
Proof.
  apply (artifacts_have_their_shape (sample_inputs (js "ABC123") treasure)
           (js "ABC123") treasure eq_refl eq_refl).
  - discriminate.
  - discriminate.
Defined.

Lemma map_to_N_inj (a b : bytes) :
  map Byte.to_N a = map Byte.to_N b -> a = b.
Proof.
  revert b. induction a as [|x a IH]; intros [|y b] H; try discriminate;
    [reflexivity|].
  cbn [map] in H. injection H as Hx Hab.
  f_equal; [now apply to_N_inj | now apply IH].
Qed.

Lemma base64_encode_inj (a b : bytes) :
  Base64.encode a = Base64.encode b -> a = b.
Proof.
  intros H. apply map_to_N_inj.
  pose proof (atob_encode a) as Ha. rewrite H, atob_encode in Ha.
  now injection Ha.
Qed.

(** X8.  Of what the build injects, the hash and the length depend on
    the secrets alone, and the salt and the IV on the random draw alone:
    two runs with the same secrets inject the same [CODE_HASH] and the
    same [CODE_LENGTH], and the same [SALT] (the same [IV]) exactly when
    they drew the same sixteen (twelve) bytes for it. *)
Theorem hash_ignores_the_random_draw (i i' : Build.inputs)
    (code message : jsstring) :
  Build.env i = Build.env i' ->
  Build.SECRET_CODE (Build.env i) = Some code ->
  Build.SECRET_MESSAGE (Build.env i) = Some message ->
  code <> [] -> message <> [] ->
  exists a a',
    snd (Build.build i) = Some a /\ snd (Build.build i') = Some a' /\
    Build.codeHash a = Build.codeHash a' /\
    Build.codeLength a = Build.codeLength a' /\
    (Build.saltB64 a = Build.saltB64 a' <->
     Build.randomBytes (Build.entropy i) 0 16
     = Build.randomBytes (Build.entropy i') 0 16) /\
    (Build.ivB64 a = Build.ivB64 a' <->
     Build.randomBytes (Build.entropy i) 16 12
     = Build.randomBytes (Build.entropy i') 16 12).
Proof.
  intros Henv Hc Hm Hc0 Hm0.
  destruct (build_artifacts i code message Hc Hm Hc0 Hm0) as (a & Ha & HC).
  rewrite Henv in Hc, Hm.
  destruct (build_artifacts i' code message Hc Hm Hc0 Hm0) as (a' & Ha' & HC').
  exists a, a'. split; [exact Ha|]. split; [exact Ha'|].
  pose proof (f_equal CODE_HASH HC) as Hh.
  pose proof (f_equal CODE_LENGTH HC) as Hn.
  pose proof (f_equal SALT HC) as Hs.
  pose proof (f_equal IV HC) as Hv.
  pose proof (f_equal CODE_HASH HC') as Hh'.
  pose proof (f_equal CODE_LENGTH HC') as Hn'.
  pose proof (f_equal SALT HC') as Hs'.
  pose proof (f_equal IV HC') as Hv'.
  cbn [constants_of prepared CODE_HASH CODE_LENGTH SALT IV]
    in Hh, Hn, Hs, Hv, Hh', Hn', Hs', Hv'.
  rewrite Hh, Hn, Hs, Hv, Hh', Hn', Hs', Hv'.
  split; [reflexivity|]. split; [reflexivity|].
  unfold salt_of, iv_of.
  split; (split; [apply base64_encode_inj | now intros ->]).
Qed.

Lemma hash_ignores_the_random_draw_witness :
  exists a a',
    snd (Build.build (sample_inputs (js "ABC123") treasure)) = Some a /\
    snd (Build.build other_draw) = Some a' /\
    Build.codeHash a = Build.codeHash a' /\
    Build.codeLength a = Build.codeLength a' /\
    (Build.saltB64 a = Build.saltB64 a' <->
     Build.randomBytes
       (Build.entropy (sample_inputs (js "ABC123") treasure)) 0 16
     = Build.randomBytes (Build.entropy other_draw) 0 16) /\
    (Build.ivB64 a = Build.ivB64 a' <->
     Build.randomBytes
       (Build.entropy (sample_inputs (js "ABC123") treasure)) 16 12
     = Build.randomBytes (Build.entropy other_draw) 16 12).
Proof.
  apply (hash_ignores_the_random_draw
           (sample_inputs (js "ABC123") treasure) other_draw
           (js "ABC123") treasure eq_refl eq_refl eq_refl).
  - discriminate.
  - discriminate.
Defined.

(** ** The strings that are injected *)

Lemma base64_encode_chars (bs : bytes) :
  Forall (fun c => base64_char c = true) (Base64.encode bs).
Proof.
  rewrite encode_split. apply Forall_app. split.
  - pose proof (sextets_lt bs) as H. induction H as [|v vs Hv _ IH];
      [constructor|]. cbn [map]. constructor; [|exact IH].
    unfold base64_char. now rewrite value_of_char_of.
  - unfold padding. apply Forall_forall. intros c Hc.
    apply repeat_spec in Hc. now subst c.
Qed.

Lemma decimal_digits_digits (fuel : nat) (n : N) (acc : jsstring) :
  Forall (fun c => decimal_digit c = true) acc ->
  Forall (fun c => decimal_digit c = true) (Build.decimal_digits fuel n acc).
Proof.
  revert n acc. induction fuel as [|f IH]; intros n acc Hacc; [exact Hacc|].
  cbn [Build.decimal_digits]. destruct (N.ltb_spec n 10) as [Hn|Hn].
  - constructor; [|exact Hacc]. unfold decimal_digit.
    rewrite andb_true_iff, !N.leb_le. lia.
  - apply IH. constructor; [|exact Hacc]. unfold decimal_digit.
    rewrite andb_true_iff, !N.leb_le.
    pose proof (N.mod_upper_bound n 10). lia.
Qed.

Lemma toString_digits (n : N) :
  Forall (fun c => decimal_digit c = true) (Build.toString n).
Proof. unfold Build.toString. apply decimal_digits_digits. constructor. Qed.

Lemma not_in_of_forall (P : N -> bool) (c : N) (s : jsstring) :
  P c = false -> Forall (fun x => P x = true) s -> ~ In c s.
Proof.
  intros Hc Hs Hin. rewrite Forall_forall in Hs. apply Hs in Hin. congruence.
Qed.

Lemma no_dollar_suffix (prefix : string) (n : N) :
  ~ In 36 (js prefix) -> ~ In 36 (js prefix ++ Build.toString n).
Proof.
  intros Hp Hin. apply in_app_or in Hin as [Hin|Hin]; [now apply Hp|].
  revert Hin. apply (not_in_of_forall decimal_digit); [reflexivity|].
  apply toString_digits.
Qed.

(** X9.  No string that the build hands to [replace] as a replacement
    holds a dollar sign, the one character [String.prototype.replace]
    gives a meaning to in a replacement: whatever the secrets and the
    random draw, the text put into index.html is the value itself. *)
Theorem replacements_hold_no_dollar (i : Build.inputs) (code message : jsstring) :
  Build.SECRET_CODE (Build.env i) = Some code ->
  Build.SECRET_MESSAGE (Build.env i) = Some message ->
  code <> [] -> message <> [] ->
  exists a,
    snd (Build.build i) = Some a /\
    Forall (fun r => ~ In 36 r) (replacements a (Build.now i)).
Proof.
  intros Hc Hm Hc0 Hm0.
  destruct (build_artifacts i code message Hc Hm Hc0 Hm0) as (a & Ha & HC).
  exists a. split; [exact Ha|].
  pose proof (f_equal CODE_HASH HC) as Hh.
  pose proof (f_equal SALT HC) as Hs.
  pose proof (f_equal IV HC) as Hv.
  pose proof (f_equal ENCRYPTED_MESSAGE HC) as Hd.
  cbn [constants_of prepared CODE_HASH SALT IV ENCRYPTED_MESSAGE]
    in Hh, Hs, Hv, Hd.
  unfold replacements. rewrite Hh, Hs, Hv, Hd.
  repeat apply Forall_cons; try apply Forall_nil.
  - apply (not_in_of_forall lower_hex); [reflexivity | apply hex_encode_lower].
  - apply (not_in_of_forall base64_char); [reflexivity | apply base64_encode_chars].
  - apply (not_in_of_forall decimal_digit); [reflexivity | apply toString_digits].
  - apply (not_in_of_forall base64_char); [reflexivity | apply base64_encode_chars].
  - apply (not_in_of_forall base64_char); [reflexivity | apply base64_encode_chars].
  - apply no_dollar_suffix. intros H. vm_compute in H. intuition discriminate.
  - apply no_dollar_suffix. intros H. vm_compute in H. intuition discriminate.
  - apply no_dollar_suffix. intros H. vm_compute in H. intuition discriminate.
Qed.

Lemma replacements_hold_no_dollar_witness :
  exists a,
    snd (Build.build (sample_inputs (js "ABC123") treasure)) = Some a /\
    Forall (fun r => ~ In 36 r)
           (replacements a (Build.now (sample_inputs (js "ABC123") treasure))).
Proof.
  apply (replacements_hold_no_dollar (sample_inputs (js "ABC123") treasure)
           (js "ABC123") treasure eq_refl eq_refl).
  - discriminate.
  - discriminate.
Defined.

(** ** [replace] and the template *)

Lemma replace_absent (pat rep s : jsstring) :
  occurs pat s = false -> Build.replace pat rep s = s.
Proof.
  induction s as [|c s IH]; cbn [occurs Build.replace]; intros H;
    apply orb_false_iff in H as [H1 H2]; rewrite H1; [reflexivity|].
  now rewrite IH.
Qed.

Lemma starts_with_self (pat s : jsstring) :
  Build.starts_with pat (pat ++ s) = true.
Proof.
  induction pat as [|c pat IH]; [now destruct s|].
  cbn [app Build.starts_with]. now rewrite N.eqb_refl.
Qed.

Lemma starts_with_prefix (pat u v : jsstring) :
  (List.length pat <= List.length u)%nat ->
  Build.starts_with pat (u ++ v) = Build.starts_with pat u.
Proof.
  revert u. induction pat as [|c pat IH]; intros u H.
  - now destruct u, v.
  - destruct u as [|x u]; cbn [List.length] in H; [lia|].
    cbn [app Build.starts_with]. rewrite IH by lia. reflexivity.
Qed.

Lemma skipn_length_app {A : Type} (u v : list A) :
  skipn (List.length u) (u ++ v) = v.
Proof. induction u as [|x u IH]; [reflexivity | exact IH]. Qed.

Lemma replace_unfold (pat rep s : jsstring) :
  Build.replace pat rep s
  = if Build.starts_with pat s then rep ++ skipn (List.length pat) s
    else match s with
         | [] => []
         | c :: s' => c :: Build.replace pat rep s'
         end.
Proof. destruct s; reflexivity. Qed.

(** X11.  [replace] changes the first occurrence of the pattern and
    nothing else: what stands before it and all that follows it, further
    occurrences included, is kept as it is. *)
Theorem only_first_occurrence_is_replaced (pat rep a b : jsstring) :
  pat <> [] -> occurs pat (a ++ removelast pat) = false ->
  Build.replace pat rep (a ++ pat ++ b) = a ++ rep ++ b.
Proof.
  intros Hpat. induction a as [|x a IH]; intros H.
  - cbn [app]. rewrite replace_unfold, starts_with_self.
    now rewrite skipn_length_app.
  - cbn [app occurs] in H. apply orb_false_iff in H as [H1 H2].
    cbn [app Build.replace].
    replace (Build.starts_with pat (x :: a ++ pat ++ b)) with false.
    + now rewrite IH.
    + symmetry.
      assert (E : x :: a ++ pat ++ b
                  = (x :: a ++ removelast pat) ++ [last pat 0] ++ b).
      { rewrite (app_removelast_last 0 Hpat) at 1.
        cbn [app]. now rewrite <- !app_assoc. }
      rewrite E, starts_with_prefix; [exact H1|].
      cbn [List.length]. rewrite length_app.
      assert (List.length pat = S (List.length (removelast pat))).
      { rewrite (app_removelast_last 0 Hpat) at 1.
        rewrite length_app. cbn. lia. }
      lia.
Qed.

Lemma only_first_occurrence_is_replaced_witness :
  Build.replace (js "__IV__") (js "AAAA")
                (js "iv = '" ++ js "__IV__" ++ js "'; again = '__IV__';")
  = js "iv = '" ++ js "AAAA" ++ js "'; again = '__IV__';".
Proof.
  apply (only_first_occurrence_is_replaced (js "__IV__") (js "AAAA")
           (js "iv = '") (js "'; again = '__IV__';")).
  - discriminate.
  - reflexivity.
Defined.

Lemma inject_absent (html : jsstring) (a : Build.artifacts) (timestamp : N) :
  Forall (fun pat => occurs pat html = false) placeholders ->
  Build.inject html a timestamp = html.
Proof.
  intros H. unfold placeholders in H. cbn [map] in H.
  repeat match type of H with
         | Forall _ (_ :: _) =>
             let H1 := fresh "H" in
             apply Forall_cons_iff in H as [H1 H]
         end.
  unfold Build.inject. cbv zeta.
  rewrite (replace_absent (js "__CODE_HASH__")) by assumption.
  rewrite (replace_absent (js "__ENCRYPTED_MESSAGE__")) by assumption.
  rewrite (replace_absent (js "__CODE_LENGTH__")) by assumption.
  rewrite (replace_absent (js "__IV__")) by assumption.
  rewrite (replace_absent (js "__SALT__")) by assumption.
  rewrite (replace_absent (js "style.css")) by assumption.
  rewrite (replace_absent (js "script.js")) by assumption.
  now apply replace_absent.
Qed.

Lemma build_succeeds (i : Build.inputs) (code message : jsstring) :
  Build.SECRET_CODE (Build.env i) = Some code ->
  Build.SECRET_MESSAGE (Build.env i) = Some message ->
  code <> [] -> message <> [] ->
  exists a,
    Build.build i
    = ([Build.ConsoleLog "Code length"; Build.ConsoleLog "Code hash";
        Build.RandomBytes 16; Build.RandomBytes 12;
        Build.ConsoleLog "Encrypted message"]
       ++ (if Build.dist_exists i then [] else [Build.MkDir "dist"])
       ++ [Build.WriteFile "dist/index.html"
             (Build.inject (Build.index_html i) a (Build.now i));
           Build.ConsoleLog "dist/index.html written";
           Build.CopyFile "style.css" "dist/style.css";
           Build.ConsoleLog "dist/style.css copied";
           Build.CopyFile "script.js" "dist/script.js";
           Build.ConsoleLog "dist/script.js copied"]
       ++ Build.copy_assets i
       ++ [Build.ConsoleLog "Build complete"],
       Some a).
Proof.
  intros Hc Hm Hc0 Hm0.
  eexists. unfold Build.build. rewrite Hc, Hm.
  rewrite !falsy_false by assumption. cbn [orb].
  rewrite prepare_eq by apply iv_of_not_nil.
  reflexivity.
Qed.

(** X10.  The build does not look whether index.html holds the
    placeholders: with a template in which none of the eight strings
    occurs, it still derives the artifacts, writes the template unchanged
    to dist/index.html and ends with its message of success. *)
Theorem template_without_placeholders (i : Build.inputs)
    (code message : jsstring) :
  Build.SECRET_CODE (Build.env i) = Some code ->
  Build.SECRET_MESSAGE (Build.env i) = Some message ->
  code <> [] -> message <> [] ->
  Forall (fun pat => occurs pat (Build.index_html i) = false) placeholders ->
  exists a,
    snd (Build.build i) = Some a /\
    In (Build.WriteFile "dist/index.html" (Build.index_html i))
       (fst (Build.build i)) /\
    last (fst (Build.build i)) (Build.Exit 1) = Build.ConsoleLog "Build complete".
Proof.
  intros Hc Hm Hc0 Hm0 Habsent.
  destruct (build_succeeds i code message Hc Hm Hc0 Hm0) as (a & Ha).
  exists a. rewrite Ha. cbn [fst snd].
  rewrite inject_absent by exact Habsent.
  split; [reflexivity|]. split.
  - apply in_or_app. right. apply in_or_app. right. now left.
  - rewrite !app_assoc. apply last_last.
Qed.

Lemma template_without_placeholders_witness :
  exists a,
    snd (Build.build plain_template) = Some a /\
    In (Build.WriteFile "dist/index.html" (Build.index_html plain_template))
       (fst (Build.build plain_template)) /\
    last (fst (Build.build plain_template)) (Build.Exit 1)
    = Build.ConsoleLog "Build complete".
Proof.
  apply (template_without_placeholders plain_template (js "ABC123") treasure
           eq_refl eq_refl).
  - discriminate.
  - discriminate.
  - vm_compute. repeat constructor.
Defined.

(** ** The numeral of the length *)

Lemma fold_decimal (s : jsstring) (v : N) :
  fold_left (fun v c => v * 10 + (c - 48)) s v
  = v * 10 ^ N.of_nat (List.length s) + decimal_value s.
Proof.
  unfold decimal_value. revert v. induction s as [|c s IH]; intros v.
  - cbn. lia.
  - cbn [fold_left List.length]. rewrite IH, (IH (0 * 10 + (c - 48))).
    rewrite Nat2N.inj_succ, N.pow_succ_r'. lia.
Qed.

Lemma decimal_digits_value (fuel : nat) (n : N) (acc : jsstring) :
  n < 2 ^ N.of_nat fuel ->
  decimal_value (Build.decimal_digits fuel n acc)
  = n * 10 ^ N.of_nat (List.length acc) + decimal_value acc.
Proof.
  revert n acc. induction fuel as [|f IH]; intros n acc Hn.
  - cbn in Hn. replace n with 0 by lia. cbn [Build.decimal_digits]. lia.
  - cbn [Build.decimal_digits]. destruct (N.ltb_spec n 10) as [H10|H10].
    + unfold decimal_value at 1. cbn [fold_left]. rewrite fold_decimal.
      replace (0 * 10 + (48 + n - 48)) with n by lia. reflexivity.
    + rewrite Nat2N.inj_succ, N.pow_succ_r' in Hn.
      rewrite IH.
      * cbn [List.length]. rewrite Nat2N.inj_succ, N.pow_succ_r'.
        unfold decimal_value at 1. cbn [fold_left]. rewrite fold_decimal.
        replace (0 * 10 + (48 + n mod 10 - 48)) with (n mod 10) by lia.
        fold (decimal_value acc).
        pose proof (N.div_mod n 10 ltac:(lia)) as Hdm. nia.
      * pose proof (N.div_mod n 10 ltac:(lia)) as Hdm.
        pose proof (N.mod_upper_bound n 10 ltac:(lia)). nia.
Qed.

Lemma size_nat_gt (n : N) : n < 2 ^ N.of_nat (N.size_nat n).
Proof.
  destruct n as [|p]; [reflexivity|]. cbn [N.size_nat].
  induction p as [p IH|p IH|]; cbn [Pos.size_nat];
    rewrite ?Nat2N.inj_succ, ?N.pow_succ_r'; lia.
Qed.

(** X12.  [CODE_LENGTH] is written as the decimal numeral of the number
    of code units of the code: digits only, whose value is that number. *)
Theorem code_length_numeral (code : jsstring) :
  let numeral := Build.toString (N.of_nat (List.length code)) in
  Forall (fun c => decimal_digit c = true) numeral /\
  decimal_value numeral = N.of_nat (List.length code).
Proof.
  cbv zeta. split; [apply toString_digits|].
  unfold Build.toString. rewrite decimal_digits_value.
  - cbn. lia.
  - rewrite Nat2N.inj_succ, N.pow_succ_r'.
    pose proof (size_nat_gt (N.of_nat (List.length code))). lia.
Qed.

(** ** Constants that are not what the build injects *)

Lemma strip_padding_keeps (c : N) (s : jsstring) :
  c <> Base64.pad_char -> In c s -> In c (Base64.strip_padding s).
Proof.
  intros Hc Hin. unfold Base64.strip_padding.
  destruct (List.length s mod 4 =? 0)%nat; [|exact Hin].
  destruct (rev s) as [|x [|y r]] eqn:E; [exact Hin | exact Hin |].
  assert (Hrev : In c (x :: y :: r)) by (rewrite <- E; now apply in_rev in Hin).
  destruct (N.eqb_spec x Base64.pad_char) as [Hx|Hx]; [|exact Hin].
  destruct Hrev as [<-|Hrev]; [congruence|].
  destruct (N.eqb_spec y Base64.pad_char) as [Hy|Hy].
  - destruct Hrev as [<-|Hrev]; [congruence|]. now apply in_rev in Hrev.
  - apply in_rev. now rewrite rev_involutive.
Qed.

Lemma values_of_foreign (c : N) (s : jsstring) :
  Base64.value_of c = None -> In c s -> Base64.values_of s = None.
Proof.
  intros Hc. induction s as [|x s IH]; intros Hin; [easy|].
  cbn [Base64.values_of]. destruct Hin as [->|Hin].
  - now rewrite Hc.
  - rewrite (IH Hin). now destruct (Base64.value_of x).
Qed.

Lemma atob_foreign (c : N) (data : jsstring) :
  foreign c -> In c data -> Base64.atob data = Throw InvalidCharacterError.
Proof.
  intros (Hv & Hp & Hw) Hin. unfold Base64.atob. cbv zeta.
  destruct (_ =? 1)%nat; [reflexivity|].
  rewrite (values_of_foreign c); [reflexivity | exact Hv |].
  apply strip_padding_keeps; [exact Hp|].
  apply filter_In. split; [exact Hin|]. now rewrite Hw.
Qed.

Lemma base64ToBytes_cases (b64 : jsstring) :
  (exists bs, forall p, base64ToBytes b64 p = (Normal bs, p)) \/
  (exists e, forall p, base64ToBytes b64 p = (Throw e, p)).
Proof.
  unfold base64ToBytes, bind, lift, ret.
  destruct (Base64.atob b64) as [binary|e].
  - left. now exists (map byte_of_N binary).
  - right. now exists e.
Qed.

Lemma base64ToBytes_foreign (c : N) (b64 : jsstring) (p : page) :
  foreign c -> In c b64 ->
  base64ToBytes b64 p = (Throw InvalidCharacterError, p).
Proof.
  intros Hc Hin. unfold base64ToBytes, bind, lift.
  now rewrite (atob_foreign c b64 Hc Hin).
Qed.

(** X13.  A constant spoilt by a character that is not Base64 is found
    out before any cryptography: if [SALT], [IV] or [ENCRYPTED_MESSAGE]
    holds such a character, [decryptMessage] returns [null] and the page
    is as it was, no key imported or derived and no decryption asked
    for. *)
Theorem spoilt_constant_yields_null (C : constants) (code : jsstring)
    (p : page) (c : N) :
  foreign c ->
  In c (SALT C) \/ In c (IV C) \/ In c (ENCRYPTED_MESSAGE C) ->
  decryptMessage C code p = (Normal None, p).
Proof.
  intros Hc Hin. unfold decryptMessage, try_catch, decrypt_attempt.
  unfold bind at 1.
  destruct (base64ToBytes_cases (SALT C)) as [[salt Hs]|[e Hs]];
    rewrite Hs; [|reflexivity].
  unfold bind at 1.
  destruct (base64ToBytes_cases (IV C)) as [[iv Hv]|[e Hv]];
    rewrite Hv; [|reflexivity].
  unfold bind at 1.
  destruct (base64ToBytes_cases (ENCRYPTED_MESSAGE C)) as [[data Hd]|[e Hd]];
    rewrite Hd; [|reflexivity].
  exfalso. destruct Hin as [Hin|[Hin|Hin]].
  - specialize (Hs p). now rewrite (base64ToBytes_foreign c _ p Hc Hin) in Hs.
  - specialize (Hv p). now rewrite (base64ToBytes_foreign c _ p Hc Hin) in Hv.
  - specialize (Hd p). now rewrite (base64ToBytes_foreign c _ p Hc Hin) in Hd.
Qed.

Lemma spoilt_constant_yields_null_witness :
  decryptMessage placeholder_left (js "ABC123") (typed (js "ABC123"))
  = (Normal None, typed (js "ABC123")).
Proof.
  apply (spoilt_constant_yields_null placeholder_left (js "ABC123")
           (typed (js "ABC123")) 95).
  - repeat split. discriminate.
  - right. left. now left.
Defined.

Lemma decrypt_short (iv data : bytes) (key : WebCrypto.CryptoKey) (len : N) :
  WebCrypto.k_algorithm key = WebCrypto.KeyAesGcm len ->
  WebCrypto.has_usage "decrypt" (WebCrypto.k_usages key) = true ->
  (List.length data < 16)%nat ->
  WebCrypto.decrypt (aes_gcm iv) key data = Throw OperationError.
Proof.
  intros Hk Hu Hlen. unfold WebCrypto.decrypt, aes_gcm.
  cbn [WebCrypto.g_name WebCrypto.g_iv].
  change (String.eqb "AES-GCM" "AES-GCM") with true. cbn [negb].
  rewrite Hk, Hu. cbn [negb]. unfold WebCrypto.tag_bytes.
  apply Nat.ltb_lt in Hlen. now rewrite Hlen.
Qed.

(** X15.  A ciphertext too short to hold a tag is refused: when
    [ENCRYPTED_MESSAGE] decodes to fewer than 16 bytes, [decryptMessage]
    returns [null], after the key has been derived and the decryption
    asked for. *)
Theorem short_ciphertext_yields_null (h : jsstring) (n : N)
    (salt iv data : bytes) (code : jsstring) (p : page) :
  (List.length data < 16)%nat ->
  decryptMessage
    (Constants h n (Base64.encode salt) (Base64.encode iv) (Base64.encode data))
    code p
  = (Normal None,
     extend [SubtleImportKey "PBKDF2" (UTF8.encode code);
             SubtleDeriveKey (pbkdf2_params salt);
             SubtleDecrypt iv data] p).
Proof.
  intros Hlen. unfold decryptMessage, try_catch.
  rewrite decrypt_attempt_encoded.
  rewrite (decrypt_short iv data (derived_key code salt) 256 eq_refl eq_refl Hlen).
  reflexivity.
Qed.

Lemma short_ciphertext_yields_null_witness :
  decryptMessage
    (Constants (js "00") 6 (Base64.encode sample_salt) (Base64.encode sample_iv)
               (Base64.encode [x01; x02; x03]))
    (js "ABC123") (typed (js "ABC123"))
  = (Normal None,
     extend [SubtleImportKey "PBKDF2" (UTF8.encode (js "ABC123"));
             SubtleDeriveKey (pbkdf2_params sample_salt);
             SubtleDecrypt sample_iv [x01; x02; x03]] (typed (js "ABC123"))).
Proof.
  apply (short_ciphertext_yields_null (js "00") 6 sample_salt sample_iv
           [x01; x02; x03] (js "ABC123") (typed (js "ABC123"))).
  cbn. lia.
Defined.

(** ** A plaintext that decodes to nothing *)

(** X14.  [if (message)] takes the empty string for a failure: when the
    message of the build decodes to the empty string (a byte order mark
    alone does), [verify] with the right code authenticates and decrypts
    it, and then ends in [RejectedDecrypt], with nothing revealed. *)
Theorem empty_plaintext_is_a_failure
    (i : Build.inputs) (code message : jsstring) (p : page) :
  Build.SECRET_CODE (Build.env i) = Some code ->
  Build.SECRET_MESSAGE (Build.env i) = Some message ->
  code <> [] -> message <> [] ->
  UTF8.decode (UTF8.encode message) = [] ->
  isVerifying p = false -> revealed p = None ->
  List.concat (boxes p) = code ->
  exists a,
    snd (Build.build i) = Some a /\
    state_of (snd (verify (constants_of a) p)) = RejectedDecrypt /\
    revealed (snd (verify (constants_of a) p)) = None /\
    In (SubtleDecrypt (iv_of i) (sealed code message (salt_of i) (iv_of i)))
       (trace (snd (verify (constants_of a) p))).
Proof.
  intros Hc Hm Hc0 Hm0 Hempty Hidle Hrev Hboxes.
  destruct (build_artifacts i code message Hc Hm Hc0 Hm0) as (a & Ha & HC).
  exists a. split; [exact Ha|]. rewrite HC.
  rewrite verify_prepared;
    [| exact Hidle | now rewrite Hboxes | now rewrite Hboxes].
  cbv zeta. rewrite Hempty. cbn [snd]. split; [|split].
  - apply state_of_rejected_decrypt. exact Hrev.
  - exact Hrev.
  - cbn [rejected set_isVerifying add_shake set_status trace extend].
    apply in_or_app. right. unfold decrypt_events. right. right. now left.
Qed.

Lemma empty_plaintext_is_a_failure_witness :
  exists a,
    snd (Build.build (sample_inputs (js "ABC123") [65279])) = Some a /\
    state_of (snd (verify (constants_of a) (typed (js "ABC123"))))
    = RejectedDecrypt /\
    revealed (snd (verify (constants_of a) (typed (js "ABC123")))) = None /\
    In (SubtleDecrypt (iv_of (sample_inputs (js "ABC123") [65279]))
          (sealed (js "ABC123") [65279]
                  (salt_of (sample_inputs (js "ABC123") [65279]))
                  (iv_of (sample_inputs (js "ABC123") [65279]))))
       (trace (snd (verify (constants_of a) (typed (js "ABC123"))))).
Proof.
  apply (empty_plaintext_is_a_failure (sample_inputs (js "ABC123") [65279])
           (js "ABC123") [65279] (typed (js "ABC123")) eq_refl eq_refl).
  - discriminate.
  - discriminate.
  - reflexivity.
  - reflexivity.
  - reflexivity.
  - reflexivity.
Defined.

(** ** Trying again *)

(** X17.  A rejection locks nothing: after [verify] has rejected a wrong
    code of the right length, the flag [isVerifying] is down again, and a
    second call, once the boxes hold the right code, ends in [Accepted]
    with the message. *)
Theorem rejection_allows_retry
    (i : Build.inputs) (code message candidate : jsstring) (p : page) :
  Build.SECRET_CODE (Build.env i) = Some code ->
  Build.SECRET_MESSAGE (Build.env i) = Some message ->
  code <> [] -> message <> [] ->
  UTF8.decode (UTF8.encode message) = message ->
  isVerifying p = false -> revealed p = None ->
  List.concat (boxes p) = candidate ->
  List.length candidate = List.length code ->
  SHA256.digest (UTF8.encode candidate) <> SHA256.digest (UTF8.encode code) ->
  exists a,
    snd (Build.build i) = Some a /\
    let rejected_page := snd (verify (constants_of a) p) in
    state_of rejected_page = RejectedHash /\
    isVerifying rejected_page = false /\
    state_of (snd (verify (constants_of a)
                     (set_boxes (map (fun c => [c]) code) rejected_page)))
    = Accepted message.
Proof.
  intros Hc Hm Hc0 Hm0 Hround Hidle Hrev Hboxes Hlen Hneq.
  destruct (build_artifacts i code message Hc Hm Hc0 Hm0) as (a & Ha & HC).
  exists a. split; [exact Ha|]. rewrite HC. cbv zeta.
  rewrite verify_prepared_mismatch;
    [| exact Hidle | now rewrite Hboxes | now rewrite Hboxes].
  cbn [snd]. split; [|split].
  - apply state_of_rejected_hash. exact Hrev.
  - reflexivity.
  - assert (Hcode : List.concat (map (fun c : N => [c]) code) = code).
    { clear. induction code as [|c code IH]; [reflexivity|].
      cbn [map List.concat app]. now rewrite IH. }
    rewrite verify_prepared; cbn [set_boxes boxes isVerifying rejected
      set_isVerifying]; rewrite ?Hcode; try reflexivity.
    cbv zeta. rewrite Hround.
    destruct message as [|c m]; [congruence|]. reflexivity.
Qed.

Lemma rejection_allows_retry_witness :
  exists a,
    snd (Build.build (sample_inputs (js "ABC123") treasure)) = Some a /\
    let rejected_page := snd (verify (constants_of a) (typed (js "abc123"))) in
    state_of rejected_page = RejectedHash /\
    isVerifying rejected_page = false /\
    state_of (snd (verify (constants_of a)
                     (set_boxes (map (fun c => [c]) (js "ABC123")) rejected_page)))
    = Accepted treasure.
Proof.
  apply (rejection_allows_retry (sample_inputs (js "ABC123") treasure)
           (js "ABC123") treasure (js "abc123") (typed (js "abc123"))
           eq_refl eq_refl).
  - discriminate.
  - discriminate.
  - reflexivity.
  - reflexivity.
  - reflexivity.
  - reflexivity.
  - reflexivity.
  - intros E. vm_compute in E. discriminate E.
Defined.

(** ** Edits while a call is in flight *)

Lemma alike_refl (p : page) : alike p p.
Proof. now repeat split. Qed.

Lemma alike_trans (p q r : page) : alike p q -> alike q r -> alike p r.
Proof.
  intros (A1 & A2 & A3 & A4) (B1 & B2 & B3 & B4).
  repeat split; congruence.
Qed.

Lemma alike_extend (evs : list event) (p q : page) :
  alike p q -> alike (extend evs p) (extend evs q).
Proof.
  intros (A1 & A2 & A3 & A4). unfold alike, extend. cbn.
  repeat split; congruence.
Qed.

Lemma alike_rejected (msg : string) (p q : page) :
  alike p q -> alike (rejected msg p) (rejected msg q).
Proof.
  intros (A1 & A2 & A3 & A4). unfold alike, rejected. cbn.
  repeat split; congruence.
Qed.

Lemma alike_set_revealed (m : jsstring) (p q : page) :
  alike p q -> alike (set_revealed m p) (set_revealed m q).
Proof.
  intros (A1 & A2 & A3 & A4). unfold alike, set_revealed. cbn.
  repeat split; congruence.
Qed.

Section In_flight.

Variable C : constants.

Lemma resume_alike (t : task) (p q : page) :
alike p q ->
fst (resume C t p) = fst (resume C t q) /\
alike (snd (resume C t p)) (snd (resume C t q)).
Proof.
intros H. destruct t as [code|code|code].
- rewrite !resume_delay. now split.
- rewrite !resume_sha256. destruct (strict_eq _ _); cbn [fst snd].
  + split; [reflexivity|]. now apply alike_extend.
  + split; [reflexivity|]. now apply alike_rejected, alike_extend.
- destruct (decryptMessage_returns C code) as (m & evs & Hd).
  rewrite (resume_decryptMessage C code p _ m (Hd p)).
  rewrite (resume_decryptMessage C code q _ m (Hd q)).
  cbn [fst snd]. split; [reflexivity|].
  destruct m as [[|c m']|].
  + now apply alike_rejected, alike_extend.
  + now apply alike_set_revealed, alike_extend.
  + now apply alike_rejected, alike_extend.
Qed.

Lemma wake_alike (s t : system) (n : nat) :
alike_systems s t ->
alike_systems (step C s (Wake n)) (step C t (Wake n)).
Proof.
intros [Hp Ha]. destruct s as [p ps], t as [q qs]. cbn [pg pending] in *.
subst qs. cbn [step pg pending].
destruct (nth_error ps n) as [t|]; [|now split].
destruct (resume_alike t p q Ha) as [Hf Hs].
destruct (resume C t p) as [r1 p1], (resume C t q) as [r2 q1].
cbn [fst snd] in Hf, Hs. subst r2.
destruct r1 as [next|e]; cbn [settle]; now split.
Qed.

Lemma quiet_step_alike (s : system) (i : input) :
quiet i = true -> alike_systems (step C s i) s.
Proof.
destruct i; try discriminate; intros _; cbn [step]; split;
  cbn [pg pending]; try reflexivity; now repeat split.
Qed.

Lemma quiet_run_alike (evs : list input) (s t : system) :
forallb quiet evs = true -> alike_systems s t ->
alike_systems (run C s evs) t.
Proof.
revert s. induction evs as [|i evs IH]; intros s H Hst; [exact Hst|].
cbn [forallb] in H. apply andb_true_iff in H as [Hi Hevs].
cbn [run fold_left]. apply IH; [exact Hevs|].
destruct (quiet_step_alike s i Hi) as [Hp Ha]. destruct Hst as [Hp' Ha'].
split; [congruence|]. now apply (alike_trans _ (pg s)).
Qed.

Lemma run_app (s : system) (a b : list input) :
run C s (a ++ b) = run C (run C s a) b.
Proof. unfold run. apply fold_left_app. Qed.

End In_flight.

(** X16.  What a call of [verify()] ends in is settled when it is made:
    however the boxes are edited and the status line cleared while the
    call waits (for the delay, for the hash, for the decryption), the flag,
    the message revealed, the number of shakes and the trace of platform
    calls end as they do when nothing comes in between.  The code that is
    hashed and decrypted is the one the boxes held at the call. *)
Theorem edits_do_not_change_the_outcome (C : constants) (p : page)
    (e1 e2 e3 : list input) :
  forallb quiet e1 = true -> forallb quiet e2 = true ->
  forallb quiet e3 = true ->
  let s := run C (System p [])
             (CallVerify :: e1 ++ Wake 0 :: e2 ++ Wake 0 :: e3 ++ [Wake 0]) in
  let q := snd (verify C p) in
  pending s = [] /\
  isVerifying (pg s) = isVerifying q /\ revealed (pg s) = revealed q /\
  shakes (pg s) = shakes q /\ trace (pg s) = trace q.
Proof.
  intros H1 H2 H3 s q.
  assert (H : alike_systems s (System q [])).
  { subst s q. rewrite <- (run_uninterrupted C p).
    change (CallVerify :: e1 ++ Wake 0 :: e2 ++ Wake 0 :: e3 ++ [Wake 0])
      with ([CallVerify] ++ e1 ++ [Wake 0] ++ e2 ++ [Wake 0] ++ e3 ++ [Wake 0]).
    change [CallVerify; Wake 0; Wake 0; Wake 0]
      with ([CallVerify] ++ [Wake 0] ++ [Wake 0] ++ [Wake 0]).
    rewrite !run_app.
    set (s0 := run C (System p []) [CallVerify]).
    apply wake_alike. apply quiet_run_alike; [exact H3|].
    apply wake_alike. apply quiet_run_alike; [exact H2|].
    apply wake_alike. apply quiet_run_alike; [exact H1|].
    split; [reflexivity | apply alike_refl]. }
  destruct H as [Hp Ha]. split; [exact Hp | exact Ha].
Qed.

Lemma edits_do_not_change_the_outcome_witness :
  let C := placeholder_left in
  let p := typed (js "ABC123") in
  let s := run C (System p [])
             (CallVerify :: [Edit []] ++ Wake 0 :: [ClearError] ++ Wake 0
                :: [Edit [js "X"]] ++ [Wake 0]) in
  let q := snd (verify C p) in
  pending s = [] /\
  isVerifying (pg s) = isVerifying q /\ revealed (pg s) = revealed q /\
  shakes (pg s) = shakes q /\ trace (pg s) = trace q.
Proof.
  apply (edits_do_not_change_the_outcome placeholder_left (typed (js "ABC123"))
           [Edit []] [ClearError] [Edit [js "X"]]); reflexivity.
Defined.

(** ** The handlers as inputs of the page *)

Section Handlers_refine.

Variable C : constants.

Lemma checkAutoVerify_cases (s : system) :
Handlers.checkAutoVerify C s = s \/
Handlers.checkAutoVerify C s = step C s CallVerify.
Proof.
unfold Handlers.checkAutoVerify. destruct (_ =? _); [now right | now left].
Qed.

(** Every event the handlers answer acts on the page and on the suspended
  calls as some inputs of the system of the page do, one after the
  other. *)
Lemma handlers_refine (u : Handlers.ui) (e : Handlers.event) :
exists ins, Handlers.sys (Handlers.step C u e) = run C (Handlers.sys u) ins.
Proof.
destruct u as [[p ps] f k]. destruct e as [i value|i key|i text| |n];
  cbn [Handlers.step Handlers.sys pg pending].
- destruct (nth_error (boxes p) i); [|now exists []].
  unfold Handlers.on_input.
  cbn [Handlers.sys Handlers.set_sys pg pending Handlers.focus Handlers.cleared].
  set (p1 := set_boxes _ p).
  destruct (nth_error (boxes p1) i) as [val|];
    [|now exists [Edit (boxes p1)]].
  destruct (List.length val =? 1)%nat.
  + destruct (i <? _)%nat.
    * now exists [Edit (boxes p1); ClearError].
    * cbn [Handlers.sys Handlers.set_sys].
      destruct (checkAutoVerify_cases (System p1 ps)) as [E|E]; rewrite E.
      -- now exists [Edit (boxes p1); ClearError].
      -- now exists [Edit (boxes p1); CallVerify; ClearError].
  + now exists [Edit (boxes p1); ClearError].
- unfold Handlers.on_keydown.
  cbn [Handlers.sys pg pending].
  destruct (nth_error (boxes p) i) as [value|]; [|now exists []].
  destruct (_ && _ && _); [|now exists []].
  now exists [Edit (Handlers.set_nth (i - 1) [] (boxes p)); ClearError].
- unfold Handlers.on_paste. cbn [Handlers.sys pg pending].
  destruct (nth_error (boxes p) i); [|now exists []].
  cbv zeta. cbn [Handlers.sys Handlers.set_sys].
  set (p1 := set_boxes _ p).
  destruct (checkAutoVerify_cases (System p1 ps)) as [E|E]; rewrite E.
  + now exists [Edit (boxes p1)].
  + now exists [Edit (boxes p1); CallVerify].
- unfold Handlers.shake_timeout.
  cbn [Handlers.sys Handlers.cleared pg pending].
  destruct (_ <? _)%nat; [|now exists []].
  now exists [Edit (map (fun _ => []) (boxes p))].
- now exists [Wake n].
Qed.

Lemma handlers_run_refine (evs : list Handlers.event) (u : Handlers.ui) :
exists ins,
  Handlers.sys (Handlers.run C u evs) = run C (Handlers.sys u) ins.
Proof.
revert u. induction evs as [|e evs IH]; intros u; [now exists []|].
cbn [Handlers.run fold_left].
destruct (handlers_refine u e) as (ins1 & H1).
destruct (IH (Handlers.step C u e)) as (ins2 & H2).
exists (ins1 ++ ins2). unfold Handlers.run in H2.
now rewrite H2, H1, run_app.
Qed.

End Handlers_refine.

(** X21.  Through the handlers of the boxes as well, one call of
    [verify] at most is in flight: whatever is typed, pasted or deleted,
    and whenever the awaited values and the delayed callbacks arrive, the
    page never has two suspended calls, has none while [isVerifying] is
    down, and once a message is revealed it stays revealed, no call is
    started and the trace grows no more. *)
Theorem handlers_keep_one_call_in_flight (C : constants)
    (evs more : list Handlers.event) :
  let u := Handlers.run C (Handlers.init C) evs in
  (List.length (pending (Handlers.sys u)) <= 1)%nat /\
  (isVerifying (pg (Handlers.sys u)) = false -> pending (Handlers.sys u) = []) /\
  (forall m, revealed (pg (Handlers.sys u)) = Some m ->
     let u' := Handlers.run C u more in
     revealed (pg (Handlers.sys u')) = Some m /\
     pending (Handlers.sys u') = [] /\
     trace (pg (Handlers.sys u')) = trace (pg (Handlers.sys u))).
Proof.
  intros u.
  destruct (handlers_run_refine C evs (Handlers.init C)) as (ins & H).
  assert (Hwf : well_formed (Handlers.sys u)).
  { subst u. rewrite H. apply well_formed_run.
    unfold Handlers.init. cbn [Handlers.sys]. apply well_formed_boot. }
  split; [apply Hwf|]. split; [apply Hwf|].
  intros m Hm u'.
  destruct (handlers_run_refine C more u) as (ins' & H').
  subst u'. rewrite H'.
  destruct (accepted_run C (Handlers.sys u) ins' m Hwf Hm) as (A & _ & B & D).
  now repeat split.
Qed.

(** ** The boxes *)

Lemma set_nth_length {A : Type} (i : nat) (v : A) (l : list A) :
  List.length (Handlers.set_nth i v l) = List.length l.
Proof.
  revert i. induction l as [|x l IH]; intros i; [now destruct i|].
  destruct i; cbn [Handlers.set_nth List.length]; [reflexivity|].
  now rewrite IH.
Qed.

Lemma set_nth_outside {A : Type} (i : nat) (v : A) (l : list A) :
  nth_error l i = None -> Handlers.set_nth i v l = l.
Proof.
  revert i. induction l as [|x l IH]; intros i E; [now destruct i|].
  destruct i; [discriminate|]. cbn [Handlers.set_nth]. f_equal.
  now apply IH.
Qed.

Lemma set_nth_Forall {A : Type} (P : A -> Prop) (i : nat) (v : A) (l : list A) :
  P v -> Forall P l -> Forall P (Handlers.set_nth i v l).
Proof.
  intros Hv. revert i. induction l as [|x l IH]; intros i H;
    [destruct i; constructor|].
  inversion H as [|? ? Hx Hl]; subst.
  destruct i; cbn [Handlers.set_nth]; constructor; auto.
Qed.

Lemma fill_length (i : nat) (pasted : jsstring) (bs : list jsstring) :
  List.length (Handlers.fill i pasted bs) = List.length bs.
Proof.
  revert i bs. induction pasted as [|c rest IH]; intros i bs; [reflexivity|].
  cbn [Handlers.fill]. destruct (i <? _)%nat; [|reflexivity].
  now rewrite IH, set_nth_length.
Qed.

Lemma fill_Forall (P : jsstring -> Prop) (i : nat) (pasted : jsstring)
    (bs : list jsstring) :
  (forall c, P [c]) -> Forall P bs -> Forall P (Handlers.fill i pasted bs).
Proof.
  intros Hc. revert i bs.
  induction pasted as [|c rest IH]; intros i bs H; [exact H|].
  cbn [Handlers.fill]. destruct (i <? _)%nat; [|exact H].
  apply IH. now apply set_nth_Forall.
Qed.

Section Boxes_kept.

Variable C : constants.

Lemma verify_call_boxes (p : page) : boxes (snd (verify_call C p)) = boxes p.
Proof.
destruct (verify_call_cases C p) as [E|[_ E]]; now rewrite E.
Qed.

Lemma resume_boxes (t : task) (p : page) :
boxes (snd (resume C t p)) = boxes p.
Proof.
destruct t as [code|code|code].
- now rewrite resume_delay.
- rewrite resume_sha256. now destruct (strict_eq _ _).
- destruct (decryptMessage_returns C code) as (m & evs & Hd).
  rewrite (resume_decryptMessage C code p _ m (Hd p)).
  now destruct m as [[|c m']|].
Qed.

Lemma settle_boxes (r : completion (option task) * page) (others : list task) :
boxes (pg (settle r others)) = boxes (snd r).
Proof. destruct r as [[next|e] p]; reflexivity. Qed.

Lemma system_step_boxes (s : system) (i : input) :
boxes (pg (step C s i))
= match i with
  | Edit values => values
  | _ => boxes (pg s)
  end.
Proof.
destruct s as [p ps]. destruct i as [|n|values|]; cbn [step pg pending].
- now rewrite settle_boxes, verify_call_boxes.
- destruct (nth_error ps n) as [t|]; [|reflexivity].
  now rewrite settle_boxes, resume_boxes.
- reflexivity.
- reflexivity.
Qed.

Lemma checkAutoVerify_boxes (s : system) :
boxes (pg (Handlers.checkAutoVerify C s)) = boxes (pg s).
Proof.
destruct (checkAutoVerify_cases C s) as [E|E]; rewrite E; [reflexivity|].
apply (system_step_boxes s CallVerify).
Qed.

(** The boxes after an event. *)
Lemma handlers_step_boxes (u : Handlers.ui) (e : Handlers.event) :
let bs := boxes (pg (Handlers.sys u)) in
boxes (pg (Handlers.sys (Handlers.step C u e)))
= match e with
  | Handlers.Input i value =>
      Handlers.set_nth i value bs
  | Handlers.Keydown i key =>
      match nth_error bs i with
      | Some [] =>
          if String.eqb key "Backspace" && (0 <? i)%nat
          then Handlers.set_nth (i - 1) [] bs else bs
      | _ => bs
      end
  | Handlers.Paste i text =>
      match nth_error bs i with
      | Some _ => Handlers.fill i (Str.trim text) bs
      | None => bs
      end
  | Handlers.ShakeTimeout =>
      if (Handlers.cleared u <? shakes (pg (Handlers.sys u)))%nat
      then map (fun _ => []) bs else bs
  | Handlers.Resume n => bs
  end.
Proof.
destruct u as [[p ps] f k]. cbv zeta.
destruct e as [i value|i key|i text| |n];
  cbn [Handlers.step Handlers.sys pg pending Handlers.cleared].
- destruct (nth_error (boxes p) i) eqn:E.
  + unfold Handlers.on_input.
    cbn [Handlers.sys Handlers.set_sys pg pending Handlers.focus
         Handlers.cleared set_boxes boxes].
    destruct (nth_error (Handlers.set_nth i value (boxes p)) i);
      [|reflexivity].
    destruct (_ =? 1)%nat; [destruct (_ <? _)%nat|]; try reflexivity.
    cbn [Handlers.sys Handlers.set_sys Handlers.with_clearError pg pending].
    unfold clearError, update. cbn [snd set_status boxes].
    now rewrite checkAutoVerify_boxes.
  + cbn [pg Handlers.sys]. symmetry. now apply set_nth_outside.
- unfold Handlers.on_keydown. cbn [Handlers.sys pg pending].
  destruct (nth_error (boxes p) i) as [[|c value]|]; cbn [andb];
    try reflexivity.
  + rewrite andb_true_r. destruct (_ && _); reflexivity.
  + rewrite andb_false_r. reflexivity.
- unfold Handlers.on_paste. cbn [Handlers.sys pg pending].
  destruct (nth_error (boxes p) i); [|reflexivity].
  cbv zeta. cbn [Handlers.sys Handlers.set_sys].
  now rewrite checkAutoVerify_boxes.
- unfold Handlers.shake_timeout.
  cbn [Handlers.sys Handlers.cleared pg pending].
  destruct (_ <? _)%nat; reflexivity.
- apply (system_step_boxes (System p ps) (Wake n)).
Qed.

End Boxes_kept.

Lemma concat_short (bs : list jsstring) :
  Forall (fun b => (List.length b <= 1)%nat) bs ->
  (List.length (List.concat bs) <= List.length bs)%nat /\
  (List.length (List.concat bs) = List.length bs <->
   Forall (fun b => b <> []) bs).
Proof.
  induction 1 as [|b bs Hb _ [IH1 IH2]]; [now split|].
  cbn [List.concat List.length]. rewrite length_app.
  split; [lia|]. split.
  - intros E. constructor.
    + intros ->. cbn in E. lia.
    + apply IH2. lia.
  - intros H. inversion H as [|? ? Hne Hbs]; subst.
    apply IH2 in Hbs. destruct b as [|c b]; [congruence|].
    cbn [List.length] in *. lia.
Qed.

(** X20.  The handlers keep the boxes as [createBoxes] made them: as
    long as the user leaves at most one code unit in a box, there are
    always [CODE_LENGTH] boxes with at most one code unit each, so that the
    code has the length [checkAutoVerify] and [verify] ask for exactly
    when no box is empty. *)
Theorem boxes_hold_one_character_each (C : constants)
    (evs : list Handlers.event) :
  forallb within_maxLength evs = true ->
  let bs := boxes (pg (Handlers.sys (Handlers.run C (Handlers.init C) evs))) in
  List.length bs = N.to_nat (CODE_LENGTH C) /\
  Forall (fun b => (List.length b <= 1)%nat) bs /\
  (N.of_nat (List.length (List.concat bs)) = CODE_LENGTH C <->
   Forall (fun b => b <> []) bs).
Proof.
  intros Hevs bs.
  assert (H : List.length bs = N.to_nat (CODE_LENGTH C) /\
              Forall (fun b => (List.length b <= 1)%nat) bs).
  { subst bs. revert Hevs.
    assert (H0 : List.length (boxes (pg (Handlers.sys (Handlers.init C))))
                 = N.to_nat (CODE_LENGTH C) /\
                 Forall (fun b => (List.length b <= 1)%nat)
                        (boxes (pg (Handlers.sys (Handlers.init C))))).
    { unfold Handlers.init, Handlers.createBoxes, boot, initial.
      cbn [Handlers.sys pg boxes]. split; [apply repeat_length|].
      apply Forall_forall. intros b Hb. apply repeat_spec in Hb. subst b.
      cbn. lia. }
    revert H0. generalize (Handlers.init C).
    induction evs as [|e evs IH]; intros u H0 Hevs; [exact H0|].
    cbn [forallb] in Hevs. apply andb_true_iff in Hevs as [He Hevs].
    cbn [Handlers.run fold_left]. apply IH; [|exact Hevs].
    destruct H0 as [Hlen Hshort].
    rewrite (handlers_step_boxes C u e).
    destruct e as [i value|i key|i text| |n].
    - rewrite set_nth_length. split; [exact Hlen|].
      apply set_nth_Forall; [|exact Hshort].
      cbn [within_maxLength] in He. now apply Nat.leb_le in He.
    - destruct (nth_error _ i) as [[|c v]|]; try now split.
      destruct (_ && _); [|now split].
      rewrite set_nth_length. split; [exact Hlen|].
      apply set_nth_Forall; [cbn; lia | exact Hshort].
    - destruct (nth_error _ i); [|now split].
      rewrite fill_length. split; [exact Hlen|].
      apply fill_Forall; [intros c; cbn; lia | exact Hshort].
    - destruct (_ <? _)%nat; [|now split].
      rewrite length_map. split; [exact Hlen|].
      apply Forall_forall. intros b Hb. apply in_map_iff in Hb as (x & <- & _).
      cbn. lia.
    - now split. }
  destruct H as [Hlen Hshort]. split; [exact Hlen|]. split; [exact Hshort|].
  destruct (concat_short bs Hshort) as [_ Hiff]. rewrite <- Hiff. lia.
Qed.

Lemma boxes_hold_one_character_each_witness :
  let C := placeholder_left in
  let evs := [Handlers.Input 0 (js "A"); Handlers.Paste 1 (js " BC123 ");
              Handlers.Keydown 3 "Backspace"; Handlers.Resume 0] in
  let bs := boxes (pg (Handlers.sys (Handlers.run C (Handlers.init C) evs))) in
  List.length bs = N.to_nat (CODE_LENGTH C) /\
  Forall (fun b => (List.length b <= 1)%nat) bs /\
  (N.of_nat (List.length (List.concat bs)) = CODE_LENGTH C <->
   Forall (fun b => b <> []) bs).
Proof.
  apply (boxes_hold_one_character_each placeholder_left
           [Handlers.Input 0 (js "A"); Handlers.Paste 1 (js " BC123 ");
            Handlers.Keydown 3 "Backspace"; Handlers.Resume 0]).
  reflexivity.
Defined.

(** ** Pasting and typing *)

Lemma set_nth_app {A : Type} (pre : list A) (x v : A) (post : list A) :
  Handlers.set_nth (List.length pre) v (pre ++ x :: post) = pre ++ v :: post.
Proof.
  induction pre as [|y pre IH]; [reflexivity|].
  cbn [List.length app Handlers.set_nth]. now rewrite IH.
Qed.





(** X19.  Typing the last character starts the attempt and wipes its
    status line: the [input] handler of the last box calls [verify], which
    sets the flag and writes DECRYPTING..., and then [clearError], which
    empties the status again while the call is in flight. *)
Theorem typing_the_last_character_clears_the_status (C : constants)
    (u : Handlers.ui) (filled : list jsstring) (old : jsstring) (c : N) :
  boxes (pg (Handlers.sys u)) = filled ++ [old] ->
  isVerifying (pg (Handlers.sys u)) = false ->
  N.of_nat (List.length (List.concat filled) + 1) = CODE_LENGTH C ->
  let u' := Handlers.step C u (Handlers.Input (List.length filled) [c]) in
  isVerifying (pg (Handlers.sys u')) = true /\
  pending (Handlers.sys u')
  = pending (Handlers.sys u) ++ [AwaitDelay (List.concat filled ++ [c])] /\
  statusText (pg (Handlers.sys u')) = ""%string /\
  trace (pg (Handlers.sys u')) = trace (pg (Handlers.sys u)) ++ [SetTimeout 800].
Proof.
  intros Hboxes Hidle Hlen. destruct u as [[p ps] f k].
  cbn [Handlers.sys pg pending] in *. cbv zeta.
  cbn [Handlers.step Handlers.sys pg pending]. rewrite Hboxes.
  assert (Hnth : forall (x : jsstring),
            nth_error (filled ++ [x]) (List.length filled) = Some x).
  { intros x. rewrite nth_error_app2 by lia. now rewrite Nat.sub_diag. }
  rewrite Hnth, set_nth_app.
  unfold Handlers.on_input.
  cbn [Handlers.sys Handlers.set_sys pg pending Handlers.focus Handlers.cleared].
  unfold jsstring in *.
  set (p1 := set_boxes (filled ++ [[c]]) p).
  change (boxes p1) with (filled ++ [[c]]).
  rewrite (Hnth [c]). cbn [List.length Nat.eqb].
  replace (List.length filled <? List.length (filled ++ [[c]]) - 1)%nat
    with false
    by (symmetry; apply Nat.ltb_ge; rewrite length_app; cbn; lia).
  cbn [Handlers.sys Handlers.set_sys Handlers.focus Handlers.cleared].
  assert (Hcode : List.concat (boxes p1) = List.concat filled ++ [c]).
  { subst p1. cbn [boxes set_boxes]. rewrite concat_app. cbn. reflexivity. }
  unfold Handlers.checkAutoVerify. cbn [pg pending].
  replace (_ =? _) with true
    by (symmetry; apply N.eqb_eq; rewrite Hcode, length_app; exact Hlen).
  rewrite verify_call_starts;
    [| exact Hidle | rewrite Hcode, length_app; exact Hlen].
  rewrite Hcode. cbn. repeat split; reflexivity.
Qed.

Lemma typing_the_last_character_clears_the_status_witness :
  let C := placeholder_left in
  let u := Handlers.run C (Handlers.init C) [Handlers.Paste 0 (js "ABC12")] in
  let u' := Handlers.step C u (Handlers.Input 5 [51]) in
  isVerifying (pg (Handlers.sys u')) = true /\
  pending (Handlers.sys u')
  = pending (Handlers.sys u) ++ [AwaitDelay (js "ABC12" ++ [51])] /\
  statusText (pg (Handlers.sys u')) = ""%string /\
  trace (pg (Handlers.sys u')) = trace (pg (Handlers.sys u)) ++ [SetTimeout 800].
Proof.
  apply (typing_the_last_character_clears_the_status placeholder_left
           (Handlers.run placeholder_left (Handlers.init placeholder_left)
              [Handlers.Paste 0 (js "ABC12")])
           [js "A"; js "B"; js "C"; js "1"; js "2"] [] 51);
    reflexivity.
Defined.

(** ** The reveal sequence *)

Lemma firstn_charAt (i : nat) (text : jsstring) :
  (i < List.length text)%nat ->
  firstn i text ++ Reveal.charAt i text = firstn (S i) text.
Proof.
  revert i. induction text as [|c text IH]; intros i H; cbn [List.length] in H;
    [lia|].
  destruct i as [|i]; [reflexivity|].
  unfold Reveal.charAt in *. cbn [firstn nth_error app]. f_equal.
  apply IH. lia.
Qed.

Lemma type_from (fuel : nat) (text : jsstring) (speed : N) (i : nat)
    (cls : string) (b : bool) (fs : list (option Reveal.element * N)) :
  (List.length text - i < fuel)%nat -> (i < List.length text)%nat ->
  Reveal.type fuel text speed i
    (Reveal.Terminal (Some (Reveal.Element cls (firstn i text) b)) fs)
  = Reveal.Terminal (Some (Reveal.Element cls text false))
      (fs ++ prefix_frames cls text speed
               (seq (S i) (List.length text - i))).
Proof.
  revert i b fs. induction fuel as [|fuel IH]; intros i b fs Hfuel Hi; [lia|].
  cbn [Reveal.type]. replace (i <? List.length text)%nat with true
    by (symmetry; now apply Nat.ltb_lt).
  unfold Reveal.set_textContent, Reveal.get_textContent, Reveal.wait,
    Reveal.set_child.
  cbn [Reveal.child Reveal.frames Reveal.className Reveal.textContent].
  rewrite firstn_charAt by exact Hi.
  destruct (Nat.eq_dec (S i) (List.length text)) as [E|E].
  - destruct fuel as [|fuel'].
    + cbn [Reveal.type]. replace (List.length text - i)%nat with 1%nat by lia.
      cbn [seq prefix_frames map]. rewrite E, firstn_all. reflexivity.
    + cbn [Reveal.type]. replace (S i <? List.length text)%nat with false
        by (symmetry; apply Nat.ltb_ge; lia).
      replace (List.length text - i)%nat with 1%nat by lia.
      cbn [seq prefix_frames map]. rewrite E, firstn_all. reflexivity.
  - rewrite IH by lia. f_equal. rewrite <- app_assoc. f_equal.
    replace (List.length text - i)%nat with (S (List.length text - S i)) by lia.
    reflexivity.
Qed.

Lemma typeText_eq (text : jsstring) (speed : N)
    (t : Reveal.terminal) (e : Reveal.element) :
  Reveal.child t = Some e ->
  Reveal.typeText text speed t
  = Reveal.Terminal
      (Some (Reveal.Element (Reveal.className e) text false))
      (Reveal.frames t
       ++ prefix_frames (Reveal.className e) text speed
            (seq 1 (List.length text))).
Proof.
  intros He. destruct t as [c fs]. cbn [Reveal.child] in He. subst c.
  unfold Reveal.typeText, Reveal.set_textContent, Reveal.set_child.
  cbn [Reveal.child Reveal.frames].
  destruct text as [|c text].
  - cbn. now rewrite app_nil_r.
  - rewrite (type_from _ (c :: text) speed 0 (Reveal.className e) false fs);
      [| cbn [List.length]; lia | cbn [List.length]; lia].
    now rewrite Nat.sub_0_r.
Qed.

(** X22.  [typeText] types the text and nothing else: when it is done
    the element holds exactly the text, whatever it held before, and on
    the way it has shown, for [speed] milliseconds each, the prefixes of
    the text of 1, 2, ... code units, one timeout for each code unit. *)
Theorem typeText_types_the_text (text : jsstring) (speed : N)
    (t : Reveal.terminal) (e : Reveal.element) :
  Reveal.child t = Some e ->
  Reveal.child (Reveal.typeText text speed t)
  = Some (Reveal.Element (Reveal.className e) text false) /\
  Reveal.frames (Reveal.typeText text speed t)
  = Reveal.frames t
    ++ prefix_frames (Reveal.className e) text speed (seq 1 (List.length text)).
Proof.
  intros He. rewrite (typeText_eq text speed t e He). now split.
Qed.

Lemma typeText_types_the_text_witness :
  Reveal.child (Reveal.typeText (js "OAK") 50 blank_line)
  = Some (Reveal.Element "secret-message-reveal" (js "OAK") false) /\
  Reveal.frames (Reveal.typeText (js "OAK") 50 blank_line)
  = Reveal.frames blank_line
    ++ prefix_frames "secret-message-reveal" (js "OAK") 50
         (seq 1 (List.length (js "OAK"))).
Proof.
  apply (typeText_types_the_text (js "OAK") 50 blank_line
           (Reveal.Element "secret-message-reveal" [] false)).
  reflexivity.
Defined.

Lemma chop_firstn (k : nat) (text : jsstring) :
  (S k <= List.length text)%nat ->
  Reveal.chop (firstn (S k) text) = firstn k text.
Proof.
  intros H. unfold Reveal.chop. rewrite length_firstn.
  replace (Nat.min (S k) (List.length text) - 1)%nat with k by lia.
  rewrite firstn_firstn. f_equal. lia.
Qed.

Lemma erase_from (fuel : nat) (speed : N) (text : jsstring) (k : nat)
    (cls : string) (b : bool) (shown : jsstring)
    (fs : list (option Reveal.element * N)) :
  (k < fuel)%nat -> (0 < k <= List.length text)%nat ->
  Reveal.erase fuel speed (firstn k text)
    (Reveal.Terminal (Some (Reveal.Element cls shown b)) fs)
  = Reveal.Terminal (Some (Reveal.Element cls [] false))
      (fs ++ prefix_frames cls text speed (rev (seq 0 k))).
Proof.
  revert k b shown fs.
  induction fuel as [|fuel IH]; intros k b shown fs Hfuel Hk; [lia|].
  destruct k as [|k]; [lia|].
  cbn [Reveal.erase]. rewrite length_firstn.
  replace (0 <? Nat.min (S k) (List.length text))%nat with true
    by (symmetry; apply Nat.ltb_lt; lia).
  rewrite chop_firstn by lia.
  unfold Reveal.set_textContent, Reveal.wait, Reveal.set_child.
  cbn [Reveal.child Reveal.frames Reveal.className].
  replace (rev (seq 0 (S k))) with (k :: rev (seq 0 k))
    by (rewrite seq_S; cbn [Nat.add]; now rewrite rev_app_distr).
  cbn [prefix_frames map].
  destruct k as [|k'].
  - destruct fuel as [|fuel']; cbn [Reveal.erase firstn List.length Nat.ltb
      Nat.leb seq rev map app]; reflexivity.
  - rewrite IH by lia. now rewrite <- app_assoc.
Qed.

Lemma deleteText_eq (speed : N) (cls : string) (text : jsstring) (b : bool)
    (fs : list (option Reveal.element * N)) :
  text <> [] ->
  Reveal.deleteText speed
    (Reveal.Terminal (Some (Reveal.Element cls text b)) fs)
  = Reveal.Terminal (Some (Reveal.Element cls [] false))
      (fs ++ prefix_frames cls text speed (rev (seq 0 (List.length text)))).
Proof.
  intros Hne. unfold Reveal.deleteText, Reveal.get_textContent.
  cbn [Reveal.child Reveal.textContent Reveal.frames].
  rewrite <- (firstn_all text) at 2.
  apply erase_from; [lia|]. destruct text; [congruence | cbn; lia].
Qed.

(** X23.  [deleteText] empties the element one code unit at a time:
    when it is done the element holds no text (and no status [span]),
    and on the way it has shown, for [speed] milliseconds each, what was
    left of the text after each deletion, down to nothing. *)
Theorem deleteText_erases_the_text (speed : N) (t : Reveal.terminal)
    (e : Reveal.element) :
  Reveal.child t = Some e -> Reveal.textContent e <> [] ->
  Reveal.child (Reveal.deleteText speed t)
  = Some (Reveal.Element (Reveal.className e) [] false) /\
  Reveal.frames (Reveal.deleteText speed t)
  = Reveal.frames t
    ++ prefix_frames (Reveal.className e) (Reveal.textContent e) speed
         (rev (seq 0 (List.length (Reveal.textContent e)))).
Proof.
  intros He Hne. destruct t as [c fs]. cbn [Reveal.child] in He. subst c.
  destruct e as [cls text b]. cbn [Reveal.className Reveal.textContent] in *.
  rewrite deleteText_eq by exact Hne. now split.
Qed.

Lemma deleteText_erases_the_text_witness :
  Reveal.child (Reveal.deleteText 15 typed_line)
  = Some (Reveal.Element "term-line active normal" [] false) /\
  Reveal.frames (Reveal.deleteText 15 typed_line)
  = Reveal.frames typed_line
    ++ prefix_frames "term-line active normal" (js "> GO [OK]") 15
         (rev (seq 0 (List.length (js "> GO [OK]")))).
Proof.
  apply (deleteText_erases_the_text 15 typed_line
           (Reveal.Element "term-line active normal" (js "> GO [OK]") true)).
  - reflexivity.
  - discriminate.
Defined.

Lemma typeText_new_child (cls : string) (text : jsstring) (speed : N)
    (t : Reveal.terminal) :
  Reveal.typeText text speed (Reveal.new_child cls t)
  = Reveal.Terminal (Some (Reveal.Element cls text false))
      (Reveal.frames t
       ++ prefix_frames cls text speed (seq 1 (List.length text))).
Proof.
  exact (typeText_eq text speed (Reveal.new_child cls t)
           (Reveal.Element cls [] false) eq_refl).
Qed.

Lemma prelude_duration :
  duration (Reveal.frames (Reveal.showSuccess [])) = 10765.
Proof. vm_compute. reflexivity. Qed.

(** X24.  The reveal ends with the message and nothing else on
    display: whatever the message, [showSuccess] first shows the same
    frames, those of the five lines of the terminal, which take 10765
    milliseconds, then types the message in an element of class
    [secret-message-reveal], one code unit every 50 milliseconds, and
    leaves that element holding exactly the message. *)
Theorem reveal_ends_with_the_message (message : jsstring) :
  Reveal.child (Reveal.showSuccess message)
  = Some (Reveal.Element "secret-message-reveal" message false) /\
  Reveal.frames (Reveal.showSuccess message)
  = Reveal.frames (Reveal.showSuccess [])
    ++ prefix_frames "secret-message-reveal" message 50
         (seq 1 (List.length message)) /\
  duration (Reveal.frames (Reveal.showSuccess [])) = 10765.
Proof.
  split; [|split; [|exact prelude_duration]].
  - unfold Reveal.showSuccess, Reveal.runFocusedSequence. cbv zeta.
    now rewrite typeText_new_child.
  - unfold Reveal.showSuccess, Reveal.runFocusedSequence. cbv zeta.
    rewrite !typeText_new_child. cbn [Reveal.frames].
    cbn [List.length seq prefix_frames map]. now rewrite app_nil_r.
Qed.

Lemma duration_app (a b : list (option Reveal.element * N)) :
  duration (a ++ b) = duration a + duration b.
Proof.
  induction a as [|f a IH]; [reflexivity|].
  cbn [app duration fold_right]. fold (duration (a ++ b)) (duration a).
  rewrite IH. lia.
Qed.

Lemma duration_prefix_frames (cls : string) (text : jsstring) (speed : N)
    (lengths : list nat) :
  duration (prefix_frames cls text speed lengths)
  = speed * N.of_nat (List.length lengths).
Proof.
  induction lengths as [|k lengths IH]; [cbn; lia|].
  cbn [prefix_frames map duration fold_right List.length snd].
  fold (prefix_frames cls text speed lengths).
  fold (duration (prefix_frames cls text speed lengths)).
  rewrite IH. lia.
Qed.

Lemma processStep_eq (text type : string) (shouldDelete : bool)
    (t : Reveal.terminal) :
  let cls := String.append "term-line active " type in
  let line := js "> " ++ js text in
  let marked := Reveal.Element cls (line ++ js " [OK]") true in
  let fs :=
    Reveal.frames t
    ++ prefix_frames cls line 30 (seq 1 (List.length line))
    ++ [(Some (Reveal.Element cls line false), 400); (Some marked, 600)] in
  Reveal.processStep text type shouldDelete t
  = if shouldDelete
    then Reveal.Terminal (Some (Reveal.Element cls [] false))
           (fs ++ prefix_frames cls (line ++ js " [OK]") 15
                    (rev (seq 0 (List.length (line ++ js " [OK]"))))
               ++ [(Some (Reveal.Element cls [] false), 200)])
    else Reveal.Terminal (Some marked) fs.
Proof.
  cbv zeta. unfold Reveal.processStep. cbv zeta.
  rewrite typeText_new_child.
  unfold Reveal.wait, Reveal.append_status, Reveal.set_child.
  cbn [Reveal.child Reveal.frames Reveal.className Reveal.textContent].
  destruct shouldDelete.
  - rewrite deleteText_eq by (now destruct (js text)).
    cbn [Reveal.child Reveal.frames]. f_equal.
    now rewrite <- !app_assoc.
  - f_equal. now rewrite <- !app_assoc.
Qed.

(** X27.  A step of the terminal types its line, marks it [OK] and,
    unless it is the last, deletes it again: [processStep] leaves a line
    of class [term-line active] and the type given that is empty when
    [shouldDelete] is set and holds the prompt, the text and the mark
    when it is not, and it takes 30 milliseconds for each code unit typed,
    a second of waiting and, when it deletes, 15 milliseconds for each
    code unit and 200 more. *)
Theorem processStep_types_and_deletes (text type : string)
    (shouldDelete : bool) (t : Reveal.terminal) :
  let cls := String.append "term-line active " type in
  let line := js "> " ++ js text in
  Reveal.child (Reveal.processStep text type shouldDelete t)
  = Some (if shouldDelete then Reveal.Element cls [] false
          else Reveal.Element cls (line ++ js " [OK]") true) /\
  duration (Reveal.frames (Reveal.processStep text type shouldDelete t))
  = duration (Reveal.frames t)
    + 30 * N.of_nat (List.length line) + 1000
    + (if shouldDelete
       then 15 * N.of_nat (List.length (line ++ js " [OK]")) + 200
       else 0).
Proof.
  cbv zeta. rewrite processStep_eq. cbv zeta.
  destruct shouldDelete; cbn [Reveal.child Reveal.frames];
    (split; [reflexivity|]);
    rewrite !duration_app, !duration_prefix_frames;
    rewrite ?length_rev, !length_seq; cbn [duration fold_right snd]; lia.
Qed.

(** ** Well-formed text *)

(** X25.  Every message of well-formed text goes round: a non-empty
    message without lone surrogates that does not start with a byte order
    mark is revealed exactly, by [verify] with the code typed in, from what
    the build made of it. *)
Theorem well_formed_message_goes_round
    (i : Build.inputs) (code message : jsstring) (p : page) :
  Build.SECRET_CODE (Build.env i) = Some code ->
  Build.SECRET_MESSAGE (Build.env i) = Some message ->
  code <> [] -> message <> [] ->
  no_lone_surrogate message = true -> hd 0 message <> 65279 ->
  isVerifying p = false ->
  List.concat (boxes p) = code ->
  exists a,
    snd (Build.build i) = Some a /\
    state_of (snd (verify (constants_of a) p)) = Accepted message.
Proof.
  intros Hc Hm Hc0 Hm0 Hwf Hbom Hidle Hboxes.
  destruct (build_artifacts i code message Hc Hm Hc0 Hm0) as (a & Ha & HC).
  exists a. split; [exact Ha|]. rewrite HC.
  rewrite verify_prepared;
    [| exact Hidle | now rewrite Hboxes | now rewrite Hboxes].
  cbv zeta. rewrite (utf8_round_trip message Hwf Hbom).
  destruct message as [|c m]; [congruence|]. reflexivity.
Qed.

Lemma well_formed_message_goes_round_witness :
  exists a,
    snd (Build.build (sample_inputs (js "ABC123") greeting)) = Some a /\
    state_of (snd (verify (constants_of a) (typed (js "ABC123"))))
    = Accepted greeting.
Proof.
  apply (well_formed_message_goes_round (sample_inputs (js "ABC123") greeting)
           (js "ABC123") greeting (typed (js "ABC123")) eq_refl eq_refl).
  - discriminate.
  - discriminate.
  - reflexivity.
  - discriminate.
  - reflexivity.
  - reflexivity.
Defined.

(** X26.  Among well-formed codes the hash check tells every wrong code
    from the right one: a candidate without lone surrogates, of the length
    of the code and different from it, is rejected at the hash check when
    the code has no lone surrogate either, unless the two are a SHA-256
    collision; nothing is revealed. *)
Theorem well_formed_wrong_code_is_rejected
    (i : Build.inputs) (code message candidate : jsstring) (p : page) :
  Build.SECRET_CODE (Build.env i) = Some code ->
  Build.SECRET_MESSAGE (Build.env i) = Some message ->
  code <> [] -> message <> [] ->
  no_lone_surrogate code = true -> no_lone_surrogate candidate = true ->
  isVerifying p = false -> revealed p = None ->
  List.concat (boxes p) = candidate ->
  List.length candidate = List.length code ->
  candidate <> code ->
  ~ sha256_collision (UTF8.encode candidate) (UTF8.encode code) ->
  exists a,
    snd (Build.build i) = Some a /\
    state_of (snd (verify (constants_of a) p)) = RejectedHash /\
    revealed (snd (verify (constants_of a) p)) = None.
Proof.
  intros Hc Hm Hc0 Hm0 Hwc Hwd Hidle Hrev Hboxes Hlen Hne Hcol.
  destruct (build_artifacts i code message Hc Hm Hc0 Hm0) as (a & Ha & HC).
  exists a. split; [exact Ha|]. rewrite HC.
  rewrite verify_prepared_mismatch;
    [| exact Hidle | now rewrite Hboxes | rewrite Hboxes ].
  - cbn [snd]. split.
    + apply state_of_rejected_hash. exact Hrev.
    + exact Hrev.
  - intros E. apply Hcol. split; [|exact E].
    intros Henc. apply Hne. now apply utf8_encode_inj.
Qed.

Lemma well_formed_wrong_code_is_rejected_witness :
  exists a,
    snd (Build.build (sample_inputs (js "ABC123") treasure)) = Some a /\
    state_of (snd (verify (constants_of a) (typed (js "ABC124")))) = RejectedHash /\
    revealed (snd (verify (constants_of a) (typed (js "ABC124")))) = None.
Proof.
  apply (well_formed_wrong_code_is_rejected
           (sample_inputs (js "ABC123") treasure)
           (js "ABC123") treasure (js "ABC124") (typed (js "ABC124"))
           eq_refl eq_refl).
  - discriminate.
  - discriminate.
  - reflexivity.
  - reflexivity.
  - reflexivity.
  - reflexivity.
  - reflexivity.
  - reflexivity.
  - discriminate.
  - intros [_ E]. vm_compute in E. discriminate E.
Defined.

(** ** A rejection, the shake, and another attempt *)

Section Paste.

Variable C : constants.


End Paste.


